(** * Spot tracking and inpainting pipeline (blur_spots.py)

    A shallow embedding of [build_spot_templates], [track_spot_on_frame]
    and [main] of blur_spots.py, with the OpenCV and NumPy primitives the
    script calls taken as an interface.

    Conventions.
    - A NumPy 2-D [uint8] array is a shape and an index function; a colour
      frame has a third (channel) index.
    - Python [int] is [Z].  The fields [origin_cx], [origin_cy], [last_cx],
      [last_cy] are Python floats, but every value ever stored in them is
      [float(n)] for an [int] n, so they are integer valued; they are [Z]
      here, and [int(...)] and [round(...)] applied to them are the identity.
    - Correlation scores, the match threshold and the darken factor are
      floats that are only compared, clamped or multiplied; they are [Q]. *)

From Stdlib Require Import ZArith QArith Qround Lia Bool String.
From Stdlib Require Import DecimalString.
From stdpp Require Import base list gmap strings.

Local Open Scope Z_scope.

(** ** NumPy arrays and basic slicing *)

Record ndarray := mk_ndarray {
  shape0 : Z;                (* rows    : a.shape[0] *)
  shape1 : Z;                (* columns : a.shape[1] *)
  at2 : Z -> Z -> Z          (* a[i, j] *)
}.

Record frame := mk_frame {
  frows : Z;
  fcols : Z;
  chan : Z -> Z -> Z -> Z    (* f[i, j, c] *)
}.

(** [a.size] *)
Definition array_size (a : ndarray) : Z := shape0 a * shape1 a.

(** How Python resolves one bound of [a[start:stop]] on an axis of length
    [len]: a negative bound counts from the end, then the bound is clamped
    into [0, len]. *)
Definition slice_index (len i : Z) : Z :=
  if i <? 0 then Z.max 0 (i + len) else Z.min i len.

(** First index and length of [a[start:stop]] on an axis of length [len]. *)
Definition slice_range (len start stop : Z) : Z * Z :=
  let s := slice_index len start in
  let e := slice_index len stop in
  (s, Z.max 0 (e - s)).

(** [a[y1:y2, x1:x2]] *)
Definition slice2 (a : ndarray) (y1 y2 x1 x2 : Z) : ndarray :=
  let '(r0, nr) := slice_range (shape0 a) y1 y2 in
  let '(c0, nc) := slice_range (shape1 a) x1 x2 in
  {| shape0 := nr; shape1 := nc; at2 := fun i j => at2 a (r0 + i) (c0 + j) |}.

(** [np.zeros((height, width), dtype=np.uint8)] *)
Definition zeros (height width : Z) : ndarray :=
  {| shape0 := height; shape1 := width; at2 := fun _ _ => 0 |}.

(** ** Comparisons and clamps on scores *)

Definition Qlt_bool (a b : Q) : bool := negb (Qle_bool b a).

Definition Qmax (a b : Q) : Q := if Qlt_bool a b then b else a.
Definition Qmin (a b : Q) : Q := if Qlt_bool b a then b else a.

(** [np.clip(v, 0, 255)] *)
Definition clip_0_255 (v : Q) : Q := Qmin (Qmax v 0) 255.

(** ** The library interface used by the script (OpenCV, NumPy, os.path) *)

Inductive inpaint_flag := INPAINT_TELEA | INPAINT_NS.

Class OpenCV := {
  (* cv2.cvtColor(f, cv2.COLOR_BGR2GRAY) *)
  cvtColor_gray : frame -> ndarray;
  (* cv2.Laplacian(g, cv2.CV_8U, ksize=3) *)
  Laplacian : ndarray -> ndarray;
  (* (max_val, max_loc) of
     cv2.minMaxLoc(cv2.matchTemplate(roi, templ, cv2.TM_CCOEFF_NORMED));
     max_loc is (u, v) = (column, row) *)
  match_best : ndarray -> ndarray -> Q * (Z * Z);
  (* cv2.circle(mask, (cx, cy), r, 255, thickness=-1), for arguments the
     call accepts (see [circle_accepts]) *)
  circle_filled : ndarray -> Z -> Z -> Z -> ndarray;
  (* cv2.circle(out, (cx, cy), r, (0, 0, 255), 2), for arguments the call
     accepts *)
  circle_outline : frame -> Z -> Z -> Z -> frame;
  (* cv2.inpaint(frame, mask, inpaintRadius=r, flags=flag) *)
  inpaint : frame -> ndarray -> Q -> inpaint_flag -> frame;
  (* rounding of a real to the nearest np.float32 *)
  f32 : Q -> Q;
  (* os.path.splitext(p)[0] *)
  splitext_base : string -> string
}.

(** ** Spot definitions and tracks *)

Record SpotDef := mk_spot {
  spot_x : Z;        (* int(s["x"]) *)
  spot_y : Z;        (* int(s["y"]) *)
  spot_radius : Z    (* int(s["radius"]) *)
}.

Record SpotTrack := mk_track {
  radius : Z;
  template : ndarray;
  templ_w : Z;
  templ_h : Z;
  origin_cx : Z;
  origin_cy : Z;
  last_cx : Z;
  last_cy : Z;
  alive : bool
}.

(** Messages printed on standard output. *)
Inductive message :=
| MsgCannotOpen
| MsgResolutionMismatch (json_w json_h video_w video_h : Z)
| MsgCannotReadRef (idx : Z)
| MsgEmptyTemplate (cx cy : Z)
| MsgNothingToDo
| MsgProgress (frame_idx active_spots : Z)
| MsgDone (output_path : string).

Definition margin : Z := 4.

Section Pipeline.
Context `{cv : OpenCV}.

Definition preprocess_for_match (gray_img : ndarray) : ndarray :=
  Laplacian gray_img.

(** The corners [x1, y1, x2, y2] computed for one definition. *)
Definition template_box (s : SpotDef) (width height : Z) : Z * Z * Z * Z :=
  let cx0 := spot_x s in
  let cy0 := spot_y s in
  let half_size := spot_radius s + margin in
  (Z.max 0 (cx0 - half_size), Z.max 0 (cy0 - half_size),
   Z.min width (cx0 + half_size), Z.min height (cy0 + half_size)).

(** One iteration of the loop of [build_spot_templates]: [inl] the warning
    when the spot is skipped, [inr] the appended dict otherwise. *)
Definition build_spot (gray_ref_proc : ndarray) (width height : Z)
    (s : SpotDef) : message + SpotTrack :=
  let cx0 := spot_x s in
  let cy0 := spot_y s in
  let r := spot_radius s in
  let '(x1, y1, x2, y2) := template_box s width height in
  let templ_proc := slice2 gray_ref_proc y1 y2 x1 x2 in
  if array_size templ_proc =? 0 then inl (MsgEmptyTemplate cx0 cy0)
  else inr {| radius := r;
              template := templ_proc;
              templ_w := shape1 templ_proc;
              templ_h := shape0 templ_proc;
              origin_cx := cx0;
              origin_cy := cy0;
              last_cx := cx0;
              last_cy := cy0;
              alive := true |}.

Fixpoint build_loop (gray_ref_proc : ndarray) (width height : Z)
    (spots : list SpotDef) : list SpotTrack * list message :=
  match spots with
  | [] => ([], [])
  | s :: rest =>
      let '(spot_data, warnings) :=
        build_loop gray_ref_proc width height rest in
      match build_spot gray_ref_proc width height s with
      | inl w => (spot_data, w :: warnings)
      | inr t => (t :: spot_data, warnings)
      end
  end.

(** Returns [spot_data] and the warnings printed while building it. *)
Definition build_spot_templates (ref_frame_bgr : frame) (spots : list SpotDef)
    (width height : Z) : list SpotTrack * list message :=
  let gray_ref := cvtColor_gray ref_frame_bgr in
  let gray_ref_proc := preprocess_for_match gray_ref in
  build_loop gray_ref_proc width height spots.

(** ** The per-frame tracker *)

(** The search region before clipping: [roi_x1, roi_y1, roi_x2, roi_y2]. *)
Definition search_box (spot : SpotTrack) (max_shift : Z) : Z * Z * Z * Z :=
  let half_w := templ_w spot / 2 in
  let half_h := templ_h spot / 2 in
  (last_cx spot - half_w - max_shift, last_cy spot - half_h - max_shift,
   last_cx spot + half_w + max_shift, last_cy spot + half_h + max_shift).

Definition clip_box (b : Z * Z * Z * Z) (width height : Z) : Z * Z * Z * Z :=
  let '(x1, y1, x2, y2) := b in
  (Z.max 0 x1, Z.max 0 y1, Z.min width x2, Z.min height y2).

(** [roi = gray_frame_proc[roi_y1:roi_y2, roi_x1:roi_x2]] *)
Definition search_roi (spot : SpotTrack) (gray_frame_proc : ndarray)
    (width height max_shift : Z) : ndarray :=
  let '(x1, y1, x2, y2) := clip_box (search_box spot max_shift) width height in
  slice2 gray_frame_proc y1 y2 x1 x2.

(** [cv2.matchTemplate] raises [cv2.error] when the template does not fit
    into the image; [None] stands for that exception.  (OpenCV accepts a few
    more shapes; rejecting them here only makes "no exception" harder.) *)
Definition cv_matchTemplate (roi templ : ndarray) : option (Q * (Z * Z)) :=
  if (1 <=? shape0 templ) && (1 <=? shape1 templ)
     && (shape0 templ <=? shape0 roi) && (shape1 templ <=? shape1 roi)
  then Some (match_best roi templ) else None.

Definition set_last (spot : SpotTrack) (cx cy : Z) : SpotTrack :=
  {| radius := radius spot;
     template := template spot;
     templ_w := templ_w spot;
     templ_h := templ_h spot;
     origin_cx := origin_cx spot;
     origin_cy := origin_cy spot;
     last_cx := cx;
     last_cy := cy;
     alive := alive spot |}.

(** The dict after the call; [None] when the call raises. *)
Definition track_spot_on_frame (spot : SpotTrack) (gray_frame_proc : ndarray)
    (width height max_shift : Z) (match_threshold : Q) : option SpotTrack :=
  if negb (alive spot) then Some spot else
  let templ := template spot in
  let half_w := templ_w spot / 2 in
  let half_h := templ_h spot / 2 in
  let '(roi_x1, roi_y1, roi_x2, roi_y2) :=
    clip_box (search_box spot max_shift) width height in
  let roi := slice2 gray_frame_proc roi_y1 roi_y2 roi_x1 roi_x2 in
  if (shape0 roi <? templ_h spot) || (shape1 roi <? templ_w spot) then Some spot
  else
    match cv_matchTemplate roi templ with
    | None => None
    | Some (max_val, (u, v)) =>
        if Qlt_bool max_val match_threshold then Some spot
        else
          let cx_new := roi_x1 + u + half_w in
          let cy_new := roi_y1 + v + half_h in
          let cx_new := Z.max 0 (Z.min cx_new (width - 1)) in
          let cy_new := Z.max 0 (Z.min cy_new (height - 1)) in
          Some (set_last spot cx_new cy_new)
    end.

(** ** The frame loop of [main] *)

(** [region = out[mask_bool].astype(np.float32); region *= darken;
    out[mask_bool] = np.clip(region, 0, 255).astype(np.uint8)]
    with [mask_bool = (mask == 255)].  The product is taken in float32, and
    the cast to uint8 of a value in [0, 255] drops the fraction. *)
Definition darken_channel (darken : Q) (v : Z) : Z :=
  Qfloor (clip_0_255 (f32 (inject_Z v * f32 darken))).

Definition darken_masked (darken : Q) (mask : ndarray) (out : frame) : frame :=
  {| frows := frows out;
     fcols := fcols out;
     chan := fun i j c =>
       if at2 mask i j =? 255 then darken_channel darken (chan out i j c)
       else chan out i j c |}.

(** State of the [for spot in spot_templates] loop: the list of dicts (which
    the loop mutates in place), the mask, the counter and the debug list. *)
Record frame_state := mk_fs {
  fs_spots : list SpotTrack;
  fs_mask : ndarray;
  fs_active : Z;
  fs_circles : list (Z * Z * Z)
}.

(** The loop body for the dict at position [i]; [None] when the tracker
    call raises.  [cv2.circle] is followed on the arguments it accepts: it
    raises for a negative radius and for a coordinate or radius that does
    not fit a C int, and the statements about completed passes carry
    [drawable] as a hypothesis for that reason. *)
Definition visit_spot (gray_proc : ndarray) (width height max_shift : Z)
    (match_threshold : Q) (debug : bool) (i : nat) (st : frame_state)
    : option frame_state :=
  match fs_spots st !! i with
  | None => Some st
  | Some spot =>
      if negb (alive spot) then Some st else
      match track_spot_on_frame spot gray_proc width height max_shift
              match_threshold with
      | None => None
      | Some spot' =>
          let spots' := <[i := spot']> (fs_spots st) in
          if negb (alive spot')
          then Some (mk_fs spots' (fs_mask st) (fs_active st) (fs_circles st))
          else
            let cx := last_cx spot' in
            let cy := last_cy spot' in
            let r := radius spot' in
            Some (mk_fs spots'
                    (circle_filled (fs_mask st) cx cy r)
                    (fs_active st + 1)
                    (if debug then fs_circles st ++ [(cx, cy, r)]
                     else fs_circles st))
      end
  end.

Fixpoint visit_spots (gray_proc : ndarray) (width height max_shift : Z)
    (match_threshold : Q) (debug : bool) (idxs : list nat) (st : frame_state)
    : option frame_state :=
  match idxs with
  | [] => Some st
  | i :: rest =>
      match visit_spot gray_proc width height max_shift match_threshold
              debug i st with
      | None => None
      | Some st' =>
          visit_spots gray_proc width height max_shift match_threshold
            debug rest st'
      end
  end.

Record Args := mk_args {
  arg_video : string;
  arg_output : string;            (* empty when --output is not given *)
  arg_darken : Q;
  arg_max_shift : Z;
  arg_match_threshold : Q;
  arg_inpaint_radius : Q;
  arg_inpaint_method : inpaint_flag;
  arg_debug : bool
}.

(** The frame after inpainting and darkening (the value of [out] before the
    debug circles are drawn). *)
Definition composite (args : Args) (inpaint_radius : Q) (f : frame)
    (mask : ndarray) (active_spots : Z) : frame :=
  if 0 <? active_spots then
    let inpainted :=
      inpaint f mask inpaint_radius (arg_inpaint_method args) in
    if Qlt_bool (arg_darken args) 1
    then darken_masked (arg_darken args) mask inpainted
    else inpainted
  else f.

Definition draw_debug (debug : bool) (circles : list (Z * Z * Z))
    (out : frame) : frame :=
  if debug then
    fold_left (fun o c => let '(cx, cy, r) := c in circle_outline o cx cy r)
      circles out
  else out.

(** The [for spot in spot_templates] loop of one iteration of [while True],
    from the freshly read frame. *)
Definition spot_pass (args : Args) (width height max_shift : Z)
    (match_threshold : Q) (f : frame) (spot_templates : list SpotTrack)
    : option frame_state :=
  let gray := cvtColor_gray f in
  let gray_proc := preprocess_for_match gray in
  let mask := zeros height width in
  visit_spots gray_proc width height max_shift match_threshold
    (arg_debug args) (seq 0 (length spot_templates))
    (mk_fs spot_templates mask 0 []).

(** One iteration of [while True] after a successful read: the updated
    dicts, the written frame and [active_spots]. *)
Definition process_frame (args : Args) (width height max_shift : Z)
    (match_threshold inpaint_radius : Q) (f : frame)
    (spot_templates : list SpotTrack) : option (list SpotTrack * frame * Z) :=
  match spot_pass args width height max_shift match_threshold f
          spot_templates with
  | None => None
  | Some st =>
      let out := composite args inpaint_radius f (fs_mask st) (fs_active st) in
      let out := draw_debug (arg_debug args) (fs_circles st) out in
      Some (fs_spots st, out, fs_active st)
  end.

Inductive event :=
| Stdout (m : message)
| CapRelease
| WriterOpen (path : string) (fps : Q) (width height : Z)
| WriterWrite (f : frame)
| WriterRelease.

(** The [while True] loop over the frames the capture delivers; the events
    it produces and the final dicts ([None] when an iteration raised). *)
Fixpoint process_loop (args : Args) (width height max_shift : Z)
    (match_threshold inpaint_radius : Q) (frames : list frame)
    (frame_idx : Z) (spot_templates : list SpotTrack)
    : list event * option (list SpotTrack) :=
  match frames with
  | [] => ([], Some spot_templates)
  | f :: rest =>
      match process_frame args width height max_shift match_threshold
              inpaint_radius f spot_templates with
      | None => ([], None)
      | Some (spots', out, active_spots) =>
          let frame_idx := frame_idx + 1 in
          let evs :=
            WriterWrite out ::
            (if frame_idx mod 100 =? 0
             then [Stdout (MsgProgress frame_idx active_spots)] else []) in
          let '(evs', r) :=
            process_loop args width height max_shift match_threshold
              inpaint_radius rest frame_idx spots' in
          (evs ++ evs', r)
      end
  end.

(** ** [main] *)

Record SpotsFile := mk_spots_file {
  json_spots : list SpotDef;
  frame_width : Z;
  frame_height : Z;
  frame_index : Z              (* data.get("frame_index", 0) *)
}.

Record VideoCapture := mk_capture {
  isOpened : bool;
  CAP_PROP_FRAME_WIDTH : Z;
  CAP_PROP_FRAME_HEIGHT : Z;
  CAP_PROP_FPS : Q;
  (* cap.set(CAP_PROP_POS_FRAMES, idx); cap.read() *)
  read_at : Z -> option frame;
  (* the frames the successive cap.read() deliver after the rewind to 0,
     up to the first failed read *)
  frames_from_start : list frame
}.

Inductive exit := Returned | Raised.

(** [main] from [cap = cv2.VideoCapture(video_path)] on: [args] and [data]
    are the parsed arguments and the loaded spot file (the lines before,
    which open and parse the file, raise on a missing file or key and are
    not part of this function).  The three lines printed on a resolution
    mismatch are one [MsgResolutionMismatch]. *)
Definition main (args : Args) (data : SpotsFile) (cap : VideoCapture)
    : list event * exit :=
  let video_path := arg_video args in
  let spots := json_spots data in
  if negb (isOpened cap) then ([Stdout MsgCannotOpen], Returned) else
  let width := CAP_PROP_FRAME_WIDTH cap in
  let height := CAP_PROP_FRAME_HEIGHT cap in
  let fps := CAP_PROP_FPS cap in
  if negb (width =? frame_width data) || negb (height =? frame_height data)
  then ([Stdout (MsgResolutionMismatch (frame_width data) (frame_height data)
                  width height); CapRelease], Returned)
  else
    match read_at cap (frame_index data) with
    | None => ([Stdout (MsgCannotReadRef (frame_index data)); CapRelease],
               Returned)
    | Some ref_frame =>
        let '(spot_templates, warnings) :=
          build_spot_templates ref_frame spots width height in
        let evs := map Stdout warnings in
        match spot_templates with
        | [] => (evs ++ [Stdout MsgNothingToDo; CapRelease], Returned)
        | _ :: _ =>
            let output_path :=
              if String.eqb (arg_output args) EmptyString
              then String.append (splitext_base video_path) "_clean.mp4"
              else arg_output args in
            let max_shift := Z.max 1 (arg_max_shift args) in
            let match_threshold :=
              Qmax 0 (Qmin 1 (arg_match_threshold args)) in
            let inpaint_radius := arg_inpaint_radius args in
            let '(loop_evs, r) :=
              process_loop args width height max_shift match_threshold
                inpaint_radius (frames_from_start cap) 0 spot_templates in
            let evs := evs ++ WriterOpen output_path fps width height
                                :: loop_evs in
            match r with
            | None => (evs, Raised)
            | Some _ =>
                (evs ++ [Stdout (MsgDone output_path); CapRelease;
                         WriterRelease], Returned)
            end
        end
    end.

End Pipeline.

(** ** Iterating the tracker on one dict *)

(** The calls [track_spot_on_frame(spot, g, ...)] for the successive
    processed images [gs], on one dict. *)
Fixpoint track_seq `{cv : OpenCV} (gs : list ndarray)
    (width height max_shift : Z) (match_threshold : Q) (spot : SpotTrack)
    : option SpotTrack :=
  match gs with
  | [] => Some spot
  | g :: rest =>
      match track_spot_on_frame spot g width height max_shift
              match_threshold with
      | None => None
      | Some spot' =>
          track_seq rest width height max_shift match_threshold spot'
      end
  end.

(** The call on the dict stored at position [i] of a list of dicts. *)
Definition track_in_store `{cv : OpenCV} (i : nat) (store : list SpotTrack)
    (g : ndarray) (width height max_shift : Z) (match_threshold : Q)
    : option (list SpotTrack) :=
  match store !! i with
  | None => Some store
  | Some spot =>
      match track_spot_on_frame spot g width height max_shift
              match_threshold with
      | None => None
      | Some spot' => Some (<[i := spot']> store)
      end
  end.

(** The processed image the loop computes from a frame. *)
Definition edge_image `{cv : OpenCV} (f : frame) : ndarray :=
  preprocess_for_match (cvtColor_gray f).

(** ** Predicates used in the statements *)

(** The dict is consistent with its template, and the template is not
    empty: what [build_spot_templates] establishes. *)
Definition well_formed (s : SpotTrack) : Prop :=
  templ_w s = shape1 (template s) /\ templ_h s = shape0 (template s) /\
  1 <= templ_w s /\ 1 <= templ_h s.

Definition in_frame (width height : Z) (s : SpotTrack) : Prop :=
  0 <= last_cx s <= width - 1 /\ 0 <= last_cy s <= height - 1.

Definition center_in_frame (width height : Z) (d : SpotDef) : Prop :=
  0 <= spot_x d <= width - 1 /\ 0 <= spot_y d <= height - 1.

(** The box of half-size [radius + margin] around the original center lies
    inside the frame: the template was not clipped. *)
Definition unclipped (width height : Z) (s : SpotTrack) : Prop :=
  1 <= radius s + margin /\
  0 <= origin_cx s - (radius s + margin) /\
  origin_cx s + (radius s + margin) <= width /\
  0 <= origin_cy s - (radius s + margin) /\
  origin_cy s + (radius s + margin) <= height.

(** The clamp of a coordinate into [0, width - 1] (or [0, height - 1]). *)
Definition clampx (width : Z) (c : Z) : Z := Z.max 0 (Z.min c (width - 1)).

(** Events that do not touch the output video. *)
Definition no_writer_event (e : event) : Prop :=
  match e with
  | Stdout _ | CapRelease => True
  | WriterOpen _ _ _ _ | WriterWrite _ | WriterRelease => False
  end.

(** Where, inside the search region around the original center, the
    template of an unclipped dict was cut from: [(x1 - roi_x1, y1 - roi_y1)]. *)
Definition template_offset (s : SpotTrack) (max_shift : Z) : Z * Z :=
  let half_size := radius s + margin in
  (origin_cx s - half_size - Z.max 0 (origin_cx s - half_size - max_shift),
   origin_cy s - half_size - Z.max 0 (origin_cy s - half_size - max_shift)).

(** ** What one pass over the dicts leaves behind *)

(** The disks stamped into a mask for the dicts that are alive, in list
    order. *)
Definition stamp_mask `{cv : OpenCV} (mask : ndarray)
    (spots : list SpotTrack) : ndarray :=
  fold_left
    (fun m s =>
       if alive s then circle_filled m (last_cx s) (last_cy s) (radius s)
       else m)
    spots mask.

Definition alive_count (spots : list SpotTrack) : Z :=
  Z.of_nat (length (List.filter alive spots)).

Definition circles_of (spots : list SpotTrack) : list (Z * Z * Z) :=
  map (fun s => (last_cx s, last_cy s, radius s)) (List.filter alive spots).

(** The frames handed to [writer.write], in order. *)
Fixpoint written_frames (evs : list event) : list frame :=
  match evs with
  | [] => []
  | WriterWrite f :: rest => f :: written_frames rest
  | _ :: rest => written_frames rest
  end.

Definition is_cap_release (e : event) : bool :=
  match e with CapRelease => true | _ => false end.

Definition is_writer_open (e : event) : bool :=
  match e with WriterOpen _ _ _ _ => true | _ => false end.

Definition is_writer_release (e : event) : bool :=
  match e with WriterRelease => true | _ => false end.

(** The arguments with the search parameters as [main] uses them:
    [max(1, args.max_shift)] and [max(0.0, min(1.0, args.match_threshold))]. *)
Definition coerce_args (args : Args) : Args :=
  {| arg_video := arg_video args;
     arg_output := arg_output args;
     arg_darken := arg_darken args;
     arg_max_shift := Z.max 1 (arg_max_shift args);
     arg_match_threshold := Qmax 0 (Qmin 1 (arg_match_threshold args));
     arg_inpaint_radius := arg_inpaint_radius args;
     arg_inpaint_method := arg_inpaint_method args;
     arg_debug := arg_debug args |}.

(** The matcher reports a location inside its result array whenever the
    template fits into the region (what [cv2.minMaxLoc] returns). *)
Definition match_in_range `{cv : OpenCV} : Prop :=
  forall roi templ,
    1 <= shape0 templ <= shape0 roi -> 1 <= shape1 templ <= shape1 roi ->
    0 <= fst (snd (match_best roi templ)) <= shape1 roi - shape1 templ /\
    0 <= snd (snd (match_best roi templ)) <= shape0 roi - shape0 templ.

(** ** What [cv2.circle] accepts

    [cv2.circle(img, (cx, cy), r, ...)] raises [cv2.error] for a negative
    radius, and the binding rejects a coordinate or a radius that does not
    fit a C int. *)
Definition INT_MAX : Z := 2147483647.

Definition fits_int (n : Z) : Prop := - INT_MAX - 1 <= n <= INT_MAX.

Definition circle_accepts (cx cy r : Z) : Prop :=
  fits_int cx /\ fits_int cy /\ 0 <= r <= INT_MAX.

(** The circle the frame loop draws for a dict is accepted. *)
Definition drawable (s : SpotTrack) : Prop :=
  circle_accepts (last_cx s) (last_cy s) (radius s).

Definition drawable_def (d : SpotDef) : Prop :=
  circle_accepts (spot_x d) (spot_y d) (spot_radius d).

(** A frame size a capture can report for the frames it delivers: the
    dimensions of a non-empty image are positive C ints. *)
Definition cv_size (width height : Z) : Prop :=
  1 <= width <= INT_MAX /\ 1 <= height <= INT_MAX.

(** The frame has the resolution the capture reported. *)
Definition sized (width height : Z) (f : frame) : Prop :=
  frows f = height /\ fcols f = width.

(** * The marking tool (mark_spots.py)

    The tool shows one frame, collects clicks and writes the spot file that
    blur_spots.py reads.  The displayed image ([redraw]) does not flow into
    the file and is not modelled; window and capture calls leave no trace
    here. *)
Module MarkSpots.

(** The module globals [spots], [current_radius], [mouse_x], [mouse_y]. *)
Record ui_state := mk_ui {
  spots : list SpotDef;
  current_radius : Z;
  mouse_x : Z;
  mouse_y : Z
}.

(** [cv2.EVENT_MOUSEMOVE] and [cv2.EVENT_LBUTTONDOWN]. *)
Definition EVENT_MOUSEMOVE : Z := 0.
Definition EVENT_LBUTTONDOWN : Z := 1.

Definition mouse_callback (event x y : Z) (st : ui_state) : ui_state :=
  if event =? EVENT_MOUSEMOVE then
    mk_ui (spots st) (current_radius st) x y
  else if event =? EVENT_LBUTTONDOWN then
    mk_ui (spots st ++ [mk_spot x y (current_radius st)])
      (current_radius st) x y
  else st.

(** [ord('q')], ESC, [ord('s')], [ord('+')], [ord('=')], [ord('-')],
    [ord('_')]. *)
Definition key_q : Z := 113.
Definition key_esc : Z := 27.
Definition key_s : Z := 115.
Definition key_plus : Z := 43.
Definition key_equal : Z := 61.
Definition key_minus : Z := 45.
Definition key_underscore : Z := 95.

(** What the window delivers, in order: a mouse callback, or the return
    value of one [cv2.waitKey(20)] (-1 when no key was pressed). *)
Inductive ui_input :=
| MouseEvent (event x y : Z)
| WaitKey (ret : Z).

Inductive mark_message :=
| MkCannotOpen
| MkCannotRead (idx : Z)
| MkExiting
| MkSaving
| MkNoSpots
| MkSaved (n : nat) (path : string).

(** The [while True] loop: the lines printed and the globals when it
    breaks; [None] when the inputs run out before a key ends the loop. *)
Fixpoint ui_loop (inputs : list ui_input) (st : ui_state)
    : option (list mark_message * ui_state) :=
  match inputs with
  | [] => None
  | MouseEvent event x y :: rest => ui_loop rest (mouse_callback event x y st)
  | WaitKey ret :: rest =>
      let key := Z.land ret 255 in
      if (key =? key_q) || (key =? key_esc) then
        Some ([MkExiting], mk_ui [] (current_radius st) (mouse_x st)
                             (mouse_y st))
      else if key =? key_s then Some ([MkSaving], st)
      else if (key =? key_plus) || (key =? key_equal) then
        let r := current_radius st + 2 in
        let r := if r >? 200 then 200 else r in
        ui_loop rest (mk_ui (spots st) r (mouse_x st) (mouse_y st))
      else if (key =? key_minus) || (key =? key_underscore) then
        let r := current_radius st - 2 in
        let r := if r <? 3 then 3 else r in
        ui_loop rest (mk_ui (spots st) r (mouse_x st) (mouse_y st))
      else ui_loop rest st
  end.

(** The dict passed to [json.dump]. *)
Record SpotsJson := mk_json {
  js_video_path : string;
  js_frame_index : Z;
  js_frame_width : Z;
  js_frame_height : Z;
  js_spots : list SpotDef
}.

Record mark_result := mk_result {
  mk_out : list mark_message;
  mk_file : option (string * SpotsJson)     (* path and content written *)
}.

(** [main], with [spots = []] and [current_radius = 25] as the module sets
    them; [output_json] is empty when --output-json is not given. *)
Definition main `{cv : OpenCV} (video_path : string) (frame_index : Z)
    (output_json : string) (cap : VideoCapture) (inputs : list ui_input)
    : option mark_result :=
  if negb (isOpened cap) then Some (mk_result [MkCannotOpen] None) else
  match read_at cap frame_index with
  | None => Some (mk_result [MkCannotRead frame_index] None)
  | Some f =>
      let h := frows f in
      let w := fcols f in
      match ui_loop inputs (mk_ui [] 25 (w / 2) (h / 2)) with
      | None => None
      | Some (msgs, st) =>
          match spots st with
          | [] => Some (mk_result (msgs ++ [MkNoSpots]) None)
          | _ :: _ =>
              let path :=
                if String.eqb output_json EmptyString
                then String.append (splitext_base video_path) ".spots.json"
                else output_json in
              Some (mk_result
                      (msgs ++ [MkSaved (length (spots st)) path])
                      (Some (path,
                             mk_json video_path frame_index w h (spots st))))
          end
      end
  end.

(** What blur_spots.py reads back from the file. *)
Definition load_spots_file (j : SpotsJson) : SpotsFile :=
  {| json_spots := js_spots j;
     frame_width := js_frame_width j;
     frame_height := js_frame_height j;
     frame_index := js_frame_index j |}.

(** Inputs that can change what is saved: clicks and the handled keys. *)
Definition relevant (i : ui_input) : bool :=
  match i with
  | MouseEvent event _ _ =>
      negb (event =? EVENT_MOUSEMOVE) && (event =? EVENT_LBUTTONDOWN)
  | WaitKey ret =>
      let key := Z.land ret 255 in
      (key =? key_q) || (key =? key_esc) || (key =? key_s)
      || (key =? key_plus) || (key =? key_equal)
      || (key =? key_minus) || (key =? key_underscore)
  end.

(** The radii the +/- keys can reach. *)
Definition valid_radius (d : SpotDef) : Prop := 3 <= spot_radius d <= 200.

(** What of the loop's result the rest of [main] uses. *)
Definition saved_view (r : option (list mark_message * ui_state))
    : option (list mark_message * list SpotDef * Z) :=
  match r with
  | Some (msgs, st) => Some (msgs, spots st, current_radius st)
  | None => None
  end.

End MarkSpots.

(** * The offset helpers of the clip tool (my_toolbox_utils.py,
      my_toolbox.py) *)
Module Toolbox.

(** [str(n)] for [n >= 0]. *)
Definition dec (n : Z) : string :=
  NilZero.string_of_uint (N.to_uint (Z.to_N n)).

(** [f"{n:02d}"] for [n >= 0]. *)
Definition pad2 (n : Z) : string :=
  let d := dec n in
  if (String.length d <? 2)%nat then String.append "0" d else d.

Definition format_hhmmss (total_seconds : Z) : string :=
  let sign := if 0 <=? total_seconds then "+"%string else "-"%string in
  let abs_seconds := Z.abs total_seconds in
  let hh := abs_seconds / 3600 in
  let mm := (abs_seconds mod 3600) / 60 in
  let ss := abs_seconds mod 60 in
  String.append sign
    (String.append (pad2 hh)
       (String.append ":"
          (String.append (pad2 mm) (String.append ":" (pad2 ss))))).

(** The widgets [get_offset_seconds] reads. *)
Record offset_widgets := mk_widgets {
  hoursSpin : Z;
  minutesSpin : Z;
  secondsSpin : Z;
  modeToggle : bool       (* Checked: True means SUB *)
}.

Definition get_offset_seconds (w : offset_widgets) : Z :=
  let total_seconds :=
    hoursSpin w * 3600 + minutesSpin w * 60 + secondsSpin w in
  if modeToggle w then - total_seconds else total_seconds.

(** The text [updateHoursLabel] puts into the label. *)
Definition hours_label (w : offset_widgets) : string :=
  format_hhmmss (get_offset_seconds w).

(** The outcome of a call that may raise. *)
Inductive py (A : Type) :=
| Ret (a : A)
| Raises.
Arguments Ret {A} a.
Arguments Raises {A}.

Section Timestamps.
(** [datetime], [datetime.strptime(value, fmt)] ([None]: ValueError) and
    [int((b - a).total_seconds())] ([None]: the subtraction raises, as it
    does for one naive and one aware datetime). *)
Variable datetime : Type.
Variable strptime : string -> string -> option datetime.
Variable seconds_between : datetime -> datetime -> option Z.

Definition SHOT_DATETIME_FORMATS : list string :=
  ["%Y-%m-%dT%H:%M:%S";
   "%Y-%m-%dT%H:%M:%S.%f";
   "%Y-%m-%dT%H:%M:%SZ";
   "%Y-%m-%dT%H:%M:%S.%fZ";
   "%Y-%m-%dT%H:%M:%S%z";
   "%Y-%m-%dT%H:%M:%S.%f%z";
   "%Y-%m-%d %H:%M:%S"]%string.

Definition strict_formats : list string :=
  ["%Y-%m-%dT%H:%M:%S";
   "%Y-%m-%dT%H:%M:%S.%f";
   "%Y-%m-%dT%H:%M:%SZ";
   "%Y-%m-%dT%H:%M:%S.%fZ";
   "%Y-%m-%dT%H:%M:%S%z";
   "%Y-%m-%dT%H:%M:%S.%f%z"]%string.

(** [for fmt in formats: try: return strptime(value, fmt) except ...] *)
Fixpoint first_parse (value : string) (formats : list string)
    : option datetime :=
  match formats with
  | [] => None
  | fmt :: rest =>
      match strptime value fmt with
      | Some dt => Some dt
      | None => first_parse value rest
      end
  end.

(** The argument is [None] or a string; [not value] holds for [None] and
    for the empty string. *)
Definition falsy (value : option string) : bool :=
  match value with
  | None => true
  | Some v => String.eqb v EmptyString
  end.

Definition parse_shot_datetime (shot_value : option string)
    : option datetime :=
  match shot_value with
  | None => None
  | Some v =>
      if falsy shot_value then None else first_parse v SHOT_DATETIME_FORMATS
  end.

Definition parse_iso8601_strict (value : option string) : option datetime :=
  match value with
  | None => None
  | Some v => if falsy value then None else first_parse v strict_formats
  end.

Definition calc_offset (from_text to_text : option string)
    : py (option (Z * Z * Z * bool)) :=
  match parse_iso8601_strict from_text, parse_iso8601_strict to_text with
  | Some dt_from, Some dt_to =>
      match seconds_between dt_from dt_to with
      | None => Raises
      | Some diff_seconds =>
          let abs_seconds := Z.abs diff_seconds in
          let hours := abs_seconds / 3600 in
          let minutes := (abs_seconds mod 3600) / 60 in
          let seconds := abs_seconds mod 60 in
          let is_subtract := diff_seconds <? 0 in
          Ret (Some (hours, minutes, seconds, is_subtract))
      end
  | _, _ => Ret None
  end.

(** [spin.Value = v] on a spin box declared with [Minimum lo] and
    [Maximum hi]: the value the box holds afterwards.  What the toolkit
    does with a value outside the range is its own business. *)
Variable set_value : Z -> Z -> Z -> Z.

(** The widgets after [onCalcOffsetClicked] has stored a result of
    [calc_offset]: [hoursSpin] is declared with the range 0..999,
    [minutesSpin] and [secondsSpin] with 0..59. *)
Definition store_offset (r : Z * Z * Z * bool) : offset_widgets :=
  let '(hours, minutes, seconds, is_subtract) := r in
  mk_widgets (set_value 0 999 hours) (set_value 0 59 minutes)
    (set_value 0 59 seconds) is_subtract.

End Timestamps.

(** ** [get_exif_data_many]

    The call of exiftool is one step of the model: it either raises or ends
    with a standard output, a standard error and a return code.  The JSON
    it prints is a list of objects; results are kept in a dict keyed by
    normalized path. *)

(** The argument: one path or a list of paths. *)
Inductive path_arg :=
| OnePath (p : string)
| ManyPaths (ps : list string).

Inductive run_outcome :=
| RunRaised (e : string)
| RunDone (stdout stderr : string) (returncode : Z).

Inductive exif_text :=
| NotFoundOnPath                (* "exiftool not found on PATH" *)
| ParseFailed (e : string)      (* "Failed to parse exiftool output: {e}" *)
| Unexpected (e : string)       (* "Unexpected error: {e}" *)
| ReturnedCode (returncode : Z) (* "exiftool returned {rc}. See ..." *)
| Stripped (stderr : string).   (* proc.stderr.strip() *)

Section Exif.
(** A JSON object of the output, its ["SourceFile"] entry when it is there
    and not empty, [norm_path], [json.loads] ([inl]: JSONDecodeError),
    whether [shutil.which("exiftool")] finds the tool, and the run of the
    command built for the paths. *)
Variable json_obj : Type.
Variable source_file : json_obj -> option string.
Variable norm_path : string -> string.
Variable json_loads : string -> string + list json_obj.
Variable which_exiftool : bool.
Variable run_exiftool : list string -> run_outcome.

(** The values of the returned dict: an object of the output, the dict
    [{"error": "No data returned by exiftool"}], or a text. *)
Inductive exif_value :=
| VObj (o : json_obj)
| VNoData
| VText (t : exif_text).

(** [for obj in data_list: sf = obj.get("SourceFile");
    if sf: r[norm(sf)] = obj] *)
Fixpoint collect (data_list : list json_obj) (r : gmap string exif_value)
    : gmap string exif_value :=
  match data_list with
  | [] => r
  | obj :: rest =>
      collect rest
        match source_file obj with
        | Some sf => <[norm_path sf := VObj obj]> r
        | None => r
        end
  end.

(** [for p in paths: if norm(p) not in r: r[norm(p)] = {"error": ...}] *)
Fixpoint fill_missing (paths : list string) (r : gmap string exif_value)
    : gmap string exif_value :=
  match paths with
  | [] => r
  | p :: rest =>
      fill_missing rest
        match r !! norm_path p with
        | Some _ => r
        | None => <[norm_path p := VNoData]> r
        end
  end.

Definition paths_of (file_paths : path_arg) : list string :=
  match file_paths with
  | OnePath p => [p]
  | ManyPaths ps => ps
  end.

(** [not file_paths]: the empty string or the empty list. *)
Definition no_paths (file_paths : path_arg) : bool :=
  match file_paths with
  | OnePath p => String.eqb p EmptyString
  | ManyPaths [] => true
  | ManyPaths (_ :: _) => false
  end.

Definition get_exif_data_many (file_paths : path_arg)
    : gmap string exif_value :=
  if no_paths file_paths then ∅ else
  let paths := paths_of file_paths in
  if negb which_exiftool then {[ "error"%string := VText NotFoundOnPath ]}
  else
    match run_exiftool paths with
    | RunRaised e => {[ "error"%string := VText (Unexpected e) ]}
    | RunDone stdout stderr returncode =>
        let stdout :=
          if String.eqb stdout EmptyString then "[]"%string else stdout in
        match json_loads stdout with
        | inl e =>
            <["stderr"%string := VText (Stripped stderr)]>
              {[ "error"%string := VText (ParseFailed e) ]}
        | inr data_list =>
            let result_by_path :=
              fill_missing paths (collect data_list ∅) in
            if negb (returncode =? 0) then
              <["_stderr"%string := VText (Stripped stderr)]>
                (<["_warning"%string := VText (ReturnedCode returncode)]>
                   result_by_path)
            else result_by_path
        end
    end.

(** The test [onPrintExif] applies to the result to decide that the whole
    call failed: ["error" in exif_results and len(exif_results) == 1]. *)
Definition whole_call_failed (r : gmap string exif_value) : bool :=
  bool_decide (is_Some (r !! "error"%string)) && (size r =? 1)%nat.

End Exif.

End Toolbox.

(** ** A reference instance of the interface

    A stand-in for OpenCV that makes the model executable: grey level is
    channel 0, the edge filter is the identity, the matcher scores 1 at the
    first position (in scan order) where the region equals the template
    pixel for pixel and 0 when there is none, inpainting returns the frame,
    float32 rounding is exact.  Its answers are not OpenCV's: a lemma
    evaluated with it shows what the script's own arithmetic does with such
    answers. *)
Module Reference.

Definition range (n : Z) : list Z := map Z.of_nat (seq 0 (Z.to_nat n)).

Definition patch_eqb (roi templ : ndarray) (u v : Z) : bool :=
  forallb (fun i =>
    forallb (fun j => at2 roi (v + i) (u + j) =? at2 templ i j)
      (range (shape1 templ)))
    (range (shape0 templ)).

Definition positions (roi templ : ndarray) : list (Z * Z) :=
  flat_map (fun v => map (fun u => (u, v))
                       (range (shape1 roi - shape1 templ + 1)))
    (range (shape0 roi - shape0 templ + 1)).

Definition exact_match (roi templ : ndarray) : Q * (Z * Z) :=
  match find (fun p => patch_eqb roi templ (fst p) (snd p))
          (positions roi templ) with
  | Some loc => (1%Q, loc)
  | None => (0%Q, (0, 0))
  end.

Definition disk (mask : ndarray) (cx cy r : Z) : ndarray :=
  {| shape0 := shape0 mask;
     shape1 := shape1 mask;
     at2 := fun i j =>
       if (j - cx) * (j - cx) + (i - cy) * (i - cy) <=? r * r then 255
       else at2 mask i j |}.

Definition ring (out : frame) (cx cy r : Z) : frame :=
  {| frows := frows out;
     fcols := fcols out;
     chan := fun i j c =>
       if (j - cx) * (j - cx) + (i - cy) * (i - cy) =? r * r
       then (if c =? 2 then 255 else 0)
       else chan out i j c |}.

Definition opencv : OpenCV :=
  {| cvtColor_gray := fun f =>
       {| shape0 := frows f; shape1 := fcols f;
          at2 := fun i j => chan f i j 0 |};
     Laplacian := fun g => g;
     match_best := exact_match;
     circle_filled := disk;
     circle_outline := ring;
     inpaint := fun f _ _ _ => f;
     f32 := fun q => q;
     splitext_base := fun p => p |}.

(** A 16 x 16 frame whose pixels are pairwise distinct. *)
Definition frame16 : frame :=
  {| frows := 16; fcols := 16; chan := fun i j c => 16 * i + j |}.

(** A 16 x 16 frame of one colour. *)
Definition flat16 : frame :=
  {| frows := 16; fcols := 16; chan := fun i j c => 0 |}.

Definition args0 : Args :=
  {| arg_video := "clip.mp4";
     arg_output := EmptyString;
     arg_darken := 1%Q;
     arg_max_shift := 2;
     arg_match_threshold := 1 # 2;
     arg_inpaint_radius := 3%Q;
     arg_inpaint_method := INPAINT_TELEA;
     arg_debug := false |}.

Definition gray16 : ndarray := edge_image (cv:=opencv) frame16.

(** The dict built for a spot of radius 1 at (8, 8): a 10 x 10 template. *)
Definition track_8_8 : SpotTrack :=
  mk_track 1 (slice2 gray16 3 13 3 13) 10 10 8 8 8 8 true.

(** The dict built for a spot of radius 1 at (2, 8): the box is clipped at
    the left border, the template is 7 wide. *)
Definition track_2_8 : SpotTrack :=
  mk_track 1 (slice2 gray16 3 13 0 7) 7 10 2 8 2 8 true.

(** The dict built for a spot of radius 1 at (-2, 8): the center is left of
    the frame, the clipped box is 3 wide. *)
Definition track_m2_8 : SpotTrack :=
  mk_track 1 (slice2 gray16 3 13 0 3) 3 10 (-2) 8 (-2) 8 true.

(** The dict built on the uniform frame for a spot of radius 1 at (8, 8). *)
Definition track_flat : SpotTrack :=
  mk_track 1 (slice2 (edge_image (cv:=opencv) flat16) 3 13 3 13)
    10 10 8 8 8 8 true.

(** The dict built for a spot of radius 1 at (-3, 8): the clipped box is 2
    wide. *)
Definition track_m3_8 : SpotTrack :=
  mk_track 1 (slice2 gray16 3 13 0 2) 2 10 (-3) 8 (-3) 8 true.

(** The dict built for a spot of radius 4 at (8, 8): the box of half-size 8
    is the whole frame, so the template is the whole processed image and
    the only place it fits into any search region is (0, 0). *)
Definition track_whole : SpotTrack :=
  mk_track 4 (slice2 gray16 0 16 0 16) 16 16 8 8 8 8 true.

Definition args_darken (debug : bool) : Args :=
  {| arg_video := "clip.mp4";
     arg_output := EmptyString;
     arg_darken := 1 # 2;
     arg_max_shift := 2;
     arg_match_threshold := 1 # 2;
     arg_inpaint_radius := 3%Q;
     arg_inpaint_method := INPAINT_TELEA;
     arg_debug := debug |}.

Definition data_outside : SpotsFile :=
  {| json_spots := [mk_spot 100 100 1];
     frame_width := 16;
     frame_height := 16;
     frame_index := 0 |}.

Definition cap16 : VideoCapture :=
  {| isOpened := true;
     CAP_PROP_FRAME_WIDTH := 16;
     CAP_PROP_FRAME_HEIGHT := 16;
     CAP_PROP_FPS := 25%Q;
     read_at := fun idx => if idx =? 0 then Some frame16 else None;
     frames_from_start := [frame16] |}.

(** A dict that is not alive. *)
Definition track_dead : SpotTrack :=
  mk_track 1 (slice2 gray16 3 13 3 13) 10 10 8 8 8 8 false.

Definition data_inside : SpotsFile :=
  {| json_spots := [mk_spot 8 8 1];
     frame_width := 16;
     frame_height := 16;
     frame_index := 0 |}.

(** Two clicks, the second after one press of "+", a mouse move in
    between, then "s". *)
Definition clicks_then_save : list MarkSpots.ui_input :=
  [MarkSpots.MouseEvent 1 8 8; MarkSpots.WaitKey 43;
   MarkSpots.MouseEvent 0 3 3; MarkSpots.MouseEvent 1 2 8;
   MarkSpots.WaitKey (-1); MarkSpots.WaitKey 115].

Definition clicks_then_quit : list MarkSpots.ui_input :=
  [MarkSpots.MouseEvent 1 8 8; MarkSpots.WaitKey 113].

Definition saved_json : MarkSpots.SpotsJson :=
  MarkSpots.mk_json "clip.mp4" 0 16 16 [mk_spot 8 8 25; mk_spot 2 8 27].

(** A spin box that keeps a value inside its range and moves any other to
    the nearer end. *)
Definition clamp_value (lo hi v : Z) : Z := Z.max lo (Z.min hi v).

(** A toy clock: timestamps are seconds, two texts are known. *)
Definition toy_strptime (value fmt : string) : option Z :=
  if String.eqb fmt "%Y-%m-%dT%H:%M:%S" then
    if String.eqb value "2025-04-24T01:00:00" then Some 3600
    else if String.eqb value "2025-04-24T00:00:00" then Some 0
    else None
  else None.

Definition toy_seconds_between (a b : Z) : option Z := Some (b - a).

(** A toy exiftool: objects are identified with their SourceFile, paths are
    already normalized, and the tool knows one file. *)
Definition toy_source_file (o : string) : option string :=
  if String.eqb o EmptyString then None else Some o.

Definition toy_norm_path (p : string) : string := p.

Definition toy_json_loads (out : string) : string + list string :=
  if String.eqb out "garbage" then inl "Expecting value"%string
  else inr ["a.mp4"%string].

Definition toy_run (paths : list string) : Toolbox.run_outcome :=
  Toolbox.RunDone "[...]" "warning: b.mp4" 0.

Definition toy_run_garbage (paths : list string) : Toolbox.run_outcome :=
  Toolbox.RunDone "garbage" "no such tag" 1.

Definition toy_exif (paths : Toolbox.path_arg)
    : gmap string (Toolbox.exif_value string) :=
  Toolbox.get_exif_data_many string toy_source_file toy_norm_path
    toy_json_loads true toy_run paths.

End Reference.

(** * Properties *)

Section Properties.
Context `{cv : OpenCV}.

(** ** Slicing *)

Lemma slice_range_length_nonneg len a b : 0 <= snd (slice_range len a b).
Proof. unfold slice_range; simpl; lia. Qed.

Lemma slice_range_plain len a b :
  0 <= a -> 0 <= b ->
  slice_range len a b = (Z.min a len, Z.max 0 (Z.min b len - Z.min a len)).
Proof.
  intros Ha Hb. unfold slice_range, slice_index.
  destruct (Z.ltb_spec a 0), (Z.ltb_spec b 0); try lia. reflexivity.
Qed.

Lemma slice2_shape0 a y1 y2 x1 x2 :
  shape0 (slice2 a y1 y2 x1 x2) = snd (slice_range (shape0 a) y1 y2).
Proof.
  unfold slice2. destruct (slice_range (shape0 a) y1 y2),
    (slice_range (shape1 a) x1 x2); reflexivity.
Qed.

Lemma slice2_shape1 a y1 y2 x1 x2 :
  shape1 (slice2 a y1 y2 x1 x2) = snd (slice_range (shape1 a) x1 x2).
Proof.
  unfold slice2. destruct (slice_range (shape0 a) y1 y2),
    (slice_range (shape1 a) x1 x2); reflexivity.
Qed.

Lemma slice2_at a y1 y2 x1 x2 i j :
  at2 (slice2 a y1 y2 x1 x2) i j =
  at2 a (fst (slice_range (shape0 a) y1 y2) + i)
        (fst (slice_range (shape1 a) x1 x2) + j).
Proof.
  unfold slice2. destruct (slice_range (shape0 a) y1 y2),
    (slice_range (shape1 a) x1 x2); reflexivity.
Qed.

(** ** [build_spot_templates] *)

Lemma build_spot_inr g width height d t :
  build_spot g width height d = inr t ->
  well_formed t /\ alive t = true /\ radius t = spot_radius d /\
  origin_cx t = spot_x d /\ origin_cy t = spot_y d /\
  last_cx t = spot_x d /\ last_cy t = spot_y d /\
  template t =
    slice2 g (Z.max 0 (spot_y d - (spot_radius d + margin)))
             (Z.min height (spot_y d + (spot_radius d + margin)))
             (Z.max 0 (spot_x d - (spot_radius d + margin)))
             (Z.min width (spot_x d + (spot_radius d + margin))).
Proof.
  unfold build_spot, template_box. cbv zeta.
  remember (slice2 g _ _ _ _) as tp eqn:Htp.
  destruct (Z.eqb_spec (array_size tp) 0) as [|Hne]; [discriminate|].
  intros [= <-]. unfold well_formed. simpl.
  unfold array_size in Hne.
  assert (0 <= shape0 tp)
    by (rewrite Htp, slice2_shape0; apply slice_range_length_nonneg).
  assert (0 <= shape1 tp)
    by (rewrite Htp, slice2_shape1; apply slice_range_length_nonneg).
  assert (shape0 tp <> 0) by (intros E; rewrite E in Hne; lia).
  assert (shape1 tp <> 0) by (intros E; rewrite E, Z.mul_0_r in Hne; lia).
  repeat split; lia.
Qed.

Lemma build_loop_lookup g width height spots i t :
  fst (build_loop g width height spots) !! i = Some t ->
  exists d, In d spots /\ build_spot g width height d = inr t.
Proof.
  revert i. induction spots as [|d rest IH]; intros i; simpl.
  - rewrite lookup_nil. discriminate.
  - destruct (build_loop g width height rest) as [data warns] eqn:E.
    simpl in IH.
    destruct (build_spot g width height d) as [m|t'] eqn:Ed; simpl.
    + intros Hi. destruct (IH _ Hi) as (d' & ? & ?). eauto.
    + destruct i as [|i]; simpl.
      * intros [= ->]. eauto.
      * intros Hi. destruct (IH _ Hi) as (d' & ? & ?). eauto.
Qed.

Lemma build_spot_templates_lookup ref spots width height i t :
  fst (build_spot_templates ref spots width height) !! i = Some t ->
  exists d, In d spots /\
    build_spot (preprocess_for_match (cvtColor_gray ref)) width height d
      = inr t.
Proof. apply build_loop_lookup. Qed.

Lemma build_spot_templates_well_formed ref spots width height :
  Forall well_formed (fst (build_spot_templates ref spots width height)).
Proof.
  apply Forall_lookup. intros i t Hi.
  destruct (build_spot_templates_lookup _ _ _ _ _ _ Hi) as (d & _ & Hd).
  apply build_spot_inr in Hd. tauto.
Qed.

(** ** One call of the tracker *)

(** The three ways a call can end: the dict is left as it is; a match is
    accepted and the center overwritten; [cv2.matchTemplate] raises. *)
Lemma track_spot_on_frame_inv s g width height max_shift thr :
  track_spot_on_frame s g width height max_shift thr = Some s \/
  (exists max_val u v,
     alive s = true /\
     templ_h s <= shape0 (search_roi s g width height max_shift) /\
     templ_w s <= shape1 (search_roi s g width height max_shift) /\
     match_best (search_roi s g width height max_shift) (template s)
       = (max_val, (u, v)) /\
     Qlt_bool max_val thr = false /\
     track_spot_on_frame s g width height max_shift thr =
       Some (set_last s
         (clampx width
            (Z.max 0 (last_cx s - templ_w s / 2 - max_shift) + u
             + templ_w s / 2))
         (clampx height
            (Z.max 0 (last_cy s - templ_h s / 2 - max_shift) + v
             + templ_h s / 2)))) \/
  (track_spot_on_frame s g width height max_shift thr = None /\
   alive s = true /\
   templ_h s <= shape0 (search_roi s g width height max_shift) /\
   templ_w s <= shape1 (search_roi s g width height max_shift) /\
   cv_matchTemplate (search_roi s g width height max_shift) (template s)
     = None).
Proof.
  unfold track_spot_on_frame, search_roi, clip_box, search_box. cbv zeta.
  destruct (alive s); cbn [negb]; [|auto].
  remember (slice2 g _ _ _ _) as roi eqn:Hroi.
  destruct (Z.ltb_spec (shape0 roi) (templ_h s)); cbn [orb]; [auto|].
  destruct (Z.ltb_spec (shape1 roi) (templ_w s)); [auto|].
  destruct (cv_matchTemplate roi (template s)) as [[mv [u v]]|] eqn:Em.
  - destruct (Qlt_bool mv thr) eqn:Et; [auto|].
    right; left. exists mv, u, v.
    assert (match_best roi (template s) = (mv, (u, v))).
    { unfold cv_matchTemplate in Em.
      destruct (_ && _); [|discriminate]. congruence. }
    repeat split; try assumption; try reflexivity.
  - right; right. auto.
Qed.

Lemma cv_matchTemplate_fits roi templ :
  1 <= shape0 templ <= shape0 roi -> 1 <= shape1 templ <= shape1 roi ->
  cv_matchTemplate roi templ = Some (match_best roi templ).
Proof.
  intros [? ?] [? ?]. unfold cv_matchTemplate.
  destruct (Z.leb_spec 1 (shape0 templ)); [|lia].
  destruct (Z.leb_spec 1 (shape1 templ)); [|lia].
  destruct (Z.leb_spec (shape0 templ) (shape0 roi)); [|lia].
  destruct (Z.leb_spec (shape1 templ) (shape1 roi)); [|lia].
  reflexivity.
Qed.

(** A well-formed dict never makes the call raise. *)
Lemma track_spot_on_frame_total s g width height max_shift thr :
  well_formed s ->
  exists s', track_spot_on_frame s g width height max_shift thr = Some s'.
Proof.
  intros (Hw & Hh & ? & ?).
  destruct (track_spot_on_frame_inv s g width height max_shift thr)
    as [E|[(mv & u & v & _ & _ & _ & _ & _ & E)|(_ & _ & ? & ? & E)]];
    eauto.
  rewrite cv_matchTemplate_fits in E by lia. discriminate.
Qed.

(** Whatever the outcome, only [last_cx] and [last_cy] can differ. *)
Lemma track_spot_on_frame_frame s g width height max_shift thr s' :
  track_spot_on_frame s g width height max_shift thr = Some s' ->
  exists cx cy, s' = set_last s cx cy.
Proof.
  intros E.
  destruct (track_spot_on_frame_inv s g width height max_shift thr)
    as [E'|[(mv & u & v & _ & _ & _ & _ & _ & E')|(E' & _)]];
    rewrite E' in E; try discriminate; injection E as <-.
  - exists (last_cx s), (last_cy s). destruct s; reflexivity.
  - eauto.
Qed.

Lemma set_last_well_formed s cx cy :
  well_formed s -> well_formed (set_last s cx cy).
Proof. unfold well_formed; simpl; tauto. Qed.

Lemma track_spot_on_frame_well_formed s g width height max_shift thr s' :
  well_formed s ->
  track_spot_on_frame s g width height max_shift thr = Some s' ->
  well_formed s'.
Proof.
  intros Hwf E. apply track_spot_on_frame_frame in E as (cx & cy & ->).
  by apply set_last_well_formed.
Qed.

(** ** The loop over the dicts *)

Section SpotLoop.
Variables (g : ndarray) (width height max_shift : Z) (thr : Q) (debug : bool).

Let track (s : SpotTrack) :=
  track_spot_on_frame s g width height max_shift thr.
Let visit := visit_spot g width height max_shift thr debug.
Let visits := visit_spots g width height max_shift thr debug.

Lemma visit_spot_spec i st st' :
  visit i st = Some st' ->
  length (fs_spots st') = length (fs_spots st) /\
  (forall j, j <> i -> fs_spots st' !! j = fs_spots st !! j) /\
  (forall s, fs_spots st !! i = Some s ->
     exists s', track s = Some s' /\ fs_spots st' !! i = Some s').
Proof.
  unfold visit, visit_spot.
  destruct (fs_spots st !! i) as [s|] eqn:Ei.
  - destruct (alive s) eqn:Ea; cbn [negb].
    + destruct (track_spot_on_frame s g width height max_shift thr)
        as [s1|] eqn:Et; [|discriminate].
      assert (i < length (fs_spots st))%nat by (eapply lookup_lt_Some; eauto).
      intros Hst.
      assert (fs_spots st' = <[i:=s1]> (fs_spots st)) as ->
        by (destruct (negb (alive s1)); injection Hst as <-; reflexivity).
      rewrite length_insert. split; [reflexivity|]. split.
      * intros j Hj. by rewrite list_lookup_insert_ne.
      * intros s0 [= <-]. exists s1. split; [exact Et|].
        by apply list_lookup_insert_eq.
    + intros [= <-]. split; [reflexivity|]. split; [reflexivity|].
      intros s0 [= <-]. exists s. split; [|exact Ei].
      unfold track, track_spot_on_frame. by rewrite Ea.
  - intros [= <-]. split; [reflexivity|]. split; [reflexivity|].
    intros s0. discriminate.
Qed.

Lemma visit_spots_spec idxs : forall st st',
  NoDup idxs ->
  visits idxs st = Some st' ->
  length (fs_spots st') = length (fs_spots st) /\
  forall j s, fs_spots st !! j = Some s ->
    exists s', fs_spots st' !! j = Some s' /\
      (j ∈ idxs -> track s = Some s') /\ (j ∉ idxs -> s' = s).
Proof.
  induction idxs as [|i rest IH]; intros st st' Hnd; simpl.
  - intros [= <-]. split; [reflexivity|]. intros j s Hj. exists s.
    split; [exact Hj|]. split; [|reflexivity]. intros Hin.
    by apply not_elem_of_nil in Hin.
  - unfold visits; simpl. fold visit.
    destruct (visit i st) as [st1|] eqn:E1; [|discriminate].
    intros Hrest. apply NoDup_cons in Hnd as [Hi Hnd].
    destruct (visit_spot_spec _ _ _ E1) as (Hlen & Hother & Hself).
    destruct (IH _ _ Hnd Hrest) as [Hlen' Hrec].
    split; [congruence|]. intros j s Hj.
    destruct (decide (j = i)) as [->|Hne].
    + destruct (Hself _ Hj) as (s1 & Ht & H1).
      destruct (Hrec _ _ H1) as (s' & Hs' & _ & Hout).
      exists s'. split; [exact Hs'|]. rewrite (Hout Hi). split.
      * intros _. exact Ht.
      * intros Hn. exfalso. apply Hn. left.
    + rewrite <- (Hother j Hne) in Hj.
      destruct (Hrec _ _ Hj) as (s' & Hs' & Hin & Hout).
      exists s'. split; [exact Hs'|]. split.
      * intros Hjin. apply elem_of_cons in Hjin as [?|?]; [done|auto].
      * intros Hjn. apply Hout. intros ?. apply Hjn. by right.
Qed.

Lemma visit_spot_total i st :
  Forall well_formed (fs_spots st) ->
  exists st', visit i st = Some st' /\ Forall well_formed (fs_spots st').
Proof.
  intros Hwf. unfold visit, visit_spot.
  destruct (fs_spots st !! i) as [s|] eqn:Ei; [|eauto].
  destruct (alive s); cbn [negb]; [|eauto].
  assert (well_formed s) as Hs by (eapply Forall_lookup_1; eauto).
  destruct (track_spot_on_frame_total s g width height max_shift thr Hs)
    as [s1 E1].
  rewrite E1.
  assert (Forall well_formed (<[i:=s1]> (fs_spots st))).
  { apply Forall_insert; [exact Hwf|].
    eapply track_spot_on_frame_well_formed; eauto. }
  destruct (negb (alive s1)); eauto.
Qed.

Lemma visit_spots_total idxs : forall st,
  Forall well_formed (fs_spots st) ->
  exists st', visits idxs st = Some st'.
Proof.
  induction idxs as [|i rest IH]; intros st Hwf; simpl; [eauto|].
  unfold visits; simpl. fold visit.
  destruct (visit_spot_total i st Hwf) as (st1 & -> & Hwf1).
  apply IH, Hwf1.
Qed.

End SpotLoop.

(** ** The loop over the frames *)

Lemma process_frame_spec args width height max_shift thr ir f spots
    spots' out active :
  process_frame args width height max_shift thr ir f spots
    = Some (spots', out, active) ->
  length spots' = length spots /\
  forall j s, spots !! j = Some s ->
    exists s', spots' !! j = Some s' /\
      track_spot_on_frame s (edge_image f) width height max_shift thr
        = Some s'.
Proof.
  unfold process_frame, spot_pass. cbv zeta.
  destruct (visit_spots _ _ _ _ _ _ _ _) as [st|] eqn:Ev; [|discriminate].
  intros [= <- _ _].
  destruct (visit_spots_spec _ _ _ _ _ _ _ _ _ (NoDup_seq 0 (length spots)) Ev)
    as [Hlen Hrec]. simpl in Hlen, Hrec.
  split; [exact Hlen|]. intros j s Hj.
  destruct (Hrec _ _ Hj) as (s' & Hs' & Hin & _).
  exists s'. split; [exact Hs'|]. apply Hin, elem_of_seq.
  apply lookup_lt_Some in Hj. lia.
Qed.

Lemma process_frame_total args width height max_shift thr ir f spots :
  Forall well_formed spots ->
  exists r, process_frame args width height max_shift thr ir f spots = Some r.
Proof.
  intros Hwf. unfold process_frame, spot_pass. cbv zeta.
  destruct (visit_spots_total (preprocess_for_match (cvtColor_gray f))
              width height max_shift thr (arg_debug args)
              (seq 0 (length spots))
              (mk_fs spots (zeros height width) 0 []) Hwf) as [st ->].
  eauto.
Qed.

Lemma track_seq_well_formed gs width height max_shift thr : forall s s',
  well_formed s ->
  track_seq gs width height max_shift thr s = Some s' -> well_formed s'.
Proof.
  induction gs as [|g rest IH]; intros s s' Hwf; simpl.
  - by intros [= <-].
  - destruct (track_spot_on_frame s g width height max_shift thr)
      as [s1|] eqn:E1; [|discriminate].
    apply IH. eapply track_spot_on_frame_well_formed; eauto.
Qed.

(** The frame loop runs the tracker on every dict independently: dict [j]
    ends as [track_seq] leaves it. *)
Lemma process_loop_spec args width height max_shift thr ir frames :
  forall idx spots evs spots',
  process_loop args width height max_shift thr ir frames idx spots
    = (evs, Some spots') ->
  length spots' = length spots /\
  forall j s, spots !! j = Some s ->
    exists s', spots' !! j = Some s' /\
      track_seq (map edge_image frames) width height max_shift thr s
        = Some s'.
Proof.
  induction frames as [|f rest IH]; intros idx spots evs spots'; simpl.
  - intros [= _ <-]. eauto.
  - destruct (process_frame args width height max_shift thr ir f spots)
      as [[[spots1 out] active]|] eqn:Ef; [|discriminate].
    destruct (process_loop _ _ _ _ _ _ rest _ spots1) as [evs1 r] eqn:El.
    intros [= _ ->].
    destruct (process_frame_spec _ _ _ _ _ _ _ _ _ _ _ Ef) as [Hlen1 H1].
    destruct (IH _ _ _ _ El) as [Hlen2 H2].
    split; [congruence|]. intros j s Hj.
    destruct (H1 _ _ Hj) as (s1 & Hs1 & Ht).
    destruct (H2 _ _ Hs1) as (s' & Hs' & Hseq).
    exists s'. split; [exact Hs'|]. by rewrite Ht.
Qed.

Lemma process_loop_total args width height max_shift thr ir frames :
  forall idx spots,
  Forall well_formed spots ->
  exists evs spots',
    process_loop args width height max_shift thr ir frames idx spots
      = (evs, Some spots').
Proof.
  induction frames as [|f rest IH]; intros idx spots Hwf; simpl; [eauto|].
  destruct (process_frame_total args width height max_shift thr ir f spots
              Hwf) as [[[spots1 out] active] Ef].
  rewrite Ef.
  assert (Forall well_formed spots1) as Hwf1.
  { destruct (process_frame_spec _ _ _ _ _ _ _ _ _ _ _ Ef) as [Hlen H1].
    apply Forall_lookup. intros j s1 Hj.
    destruct (spots !! j) as [s|] eqn:Es.
    - destruct (H1 _ _ Es) as (s1' & Hs1' & Ht).
      assert (s1' = s1) as -> by congruence.
      eapply track_spot_on_frame_well_formed; [|exact Ht].
      eapply Forall_lookup_1; eauto.
    - apply lookup_ge_None in Es. apply lookup_lt_Some in Hj. lia. }
  destruct (IH (idx + 1) spots1 Hwf1) as (evs1 & spots' & ->). eauto.
Qed.

(** ** Score comparison *)

Lemma Qlt_bool_true a b : Qlt_bool a b = true <-> (a < b)%Q.
Proof.
  unfold Qlt_bool. rewrite negb_true_iff. split.
  - intros E. apply Qnot_le_lt. intros Hle.
    apply Qle_bool_iff in Hle. congruence.
  - intros Hlt. destruct (Qle_bool b a) eqn:E; [|reflexivity].
    apply Qle_bool_iff in E. exfalso. exact (Qlt_not_le _ _ Hlt E).
Qed.

(** ** No motion *)

Lemma set_last_same s : set_last s (last_cx s) (last_cy s) = s.
Proof. destruct s; reflexivity. Qed.

Lemma build_spot_unclipped g width height d t :
  shape0 g = height -> shape1 g = width ->
  build_spot g width height d = inr t ->
  unclipped width height t ->
  templ_w t = 2 * (radius t + margin) /\ templ_h t = 2 * (radius t + margin).
Proof.
  intros H0 H1 Hb (Hh & Hx1 & Hx2 & Hy1 & Hy2).
  apply build_spot_inr in Hb
    as ((Hw & Hhh & _ & _) & _ & Hr & Hox & Hoy & _ & _ & Ht).
  rewrite Hw, Hhh, Ht, slice2_shape0, slice2_shape1, H0, H1.
  rewrite !slice_range_plain by lia. simpl. lia.
Qed.

(** On the reference image, a dict with an unclipped template that sits at
    its original center stays there, whether the call holds or accepts the
    place the template was cut from. *)
Lemma track_unclipped_fixed s g width height max_shift thr :
  unclipped width height s ->
  templ_w s = 2 * (radius s + margin) ->
  templ_h s = 2 * (radius s + margin) ->
  well_formed s ->
  last_cx s = origin_cx s -> last_cy s = origin_cy s ->
  (fst (match_best (search_roi s g width height max_shift) (template s))
     < thr)%Q \/
  snd (match_best (search_roi s g width height max_shift) (template s))
    = template_offset s max_shift ->
  track_spot_on_frame s g width height max_shift thr = Some s.
Proof.
  intros (Hh & Hx1 & Hx2 & Hy1 & Hy2) Hw Hhh Hwf Hlx Hly Hm.
  destruct (track_spot_on_frame_inv s g width height max_shift thr)
    as [E|[(mv & u & v & _ & _ & _ & Eb & Et & E)|(E & _)]].
  - exact E.
  - rewrite Eb in Hm. cbn [fst snd] in Hm. destruct Hm as [Hlt|Hloc].
    + apply Qlt_bool_true in Hlt. congruence.
    + rewrite E. f_equal.
      unfold template_offset in Hloc. injection Hloc as -> ->.
      transitivity (set_last s (last_cx s) (last_cy s));
        [|apply set_last_same].
      unfold clampx. rewrite Hw, Hhh, (Z.mul_comm 2), Z.div_mul by lia.
      f_equal; lia.
  - destruct (track_spot_on_frame_total s g width height max_shift thr Hwf)
      as [s' E']. congruence.
Qed.

Lemma track_seq_repeat_fixed s g width height max_shift thr n :
  track_spot_on_frame s g width height max_shift thr = Some s ->
  track_seq (repeat g n) width height max_shift thr s = Some s.
Proof.
  intros E. induction n as [|n IH]; simpl; [reflexivity|]. by rewrite E.
Qed.

(** A template clipped at the left border is not centered on the spot:
    when the previous center is left of the middle of the template, any
    accepted match (whatever non-negative column the matcher reports) moves
    the center to the right. *)
Lemma accept_moves_left_clipped_center s g width height max_shift thr s' :
  0 <= fst (snd (match_best (search_roi s g width height max_shift)
                   (template s))) ->
  last_cx s < templ_w s / 2 -> last_cx s < width - 1 ->
  track_spot_on_frame s g width height max_shift thr = Some s' ->
  s' = s \/ last_cx s < last_cx s'.
Proof.
  intros Hu Hleft Hw E.
  destruct (track_spot_on_frame_inv s g width height max_shift thr)
    as [E'|[(mv & u & v & _ & _ & _ & Eb & _ & E')|(E' & _)]];
    rewrite E' in E; try discriminate; injection E as <-; [by left|].
  right. rewrite Eb in Hu. cbn [fst snd] in Hu.
  unfold set_last, clampx. cbn [last_cx]. lia.
Qed.

(** C1 (amended): on a run whose frames are all the reference frame, a
    track whose template box lay inside the frame (no clipping) keeps
    [lastCenter = originCenter] after every number of processed frames,
    provided the matcher, run on the search region around the original
    center, either scores below the threshold or reports the place the
    template was cut from. *)
Theorem no_motion_unclipped ref spots args width height max_shift thr ir n
    idx i t :
  shape0 (edge_image ref) = height ->
  shape1 (edge_image ref) = width ->
  fst (build_spot_templates ref spots width height) !! i = Some t ->
  unclipped width height t ->
  (fst (match_best (search_roi t (edge_image ref) width height max_shift)
          (template t)) < thr)%Q \/
  snd (match_best (search_roi t (edge_image ref) width height max_shift)
         (template t)) = template_offset t max_shift ->
  exists evs spots' t',
    process_loop args width height max_shift thr ir (repeat ref n) idx
      (fst (build_spot_templates ref spots width height))
      = (evs, Some spots') /\
    spots' !! i = Some t' /\
    last_cx t' = origin_cx t' /\ last_cy t' = origin_cy t'.
Proof.
  intros H0 H1 Hi Hun Hm.
  destruct (build_spot_templates_lookup _ _ _ _ _ _ Hi) as (d & _ & Hd).
  destruct (build_spot_unclipped _ _ _ _ _ H0 H1 Hd Hun) as [Hw Hh].
  apply build_spot_inr in Hd
    as (Hwf & _ & _ & Hox & Hoy & Hlx & Hly & _).
  assert (track_spot_on_frame t (edge_image ref) width height max_shift thr
          = Some t) as Hfix
    by (apply track_unclipped_fixed; auto; congruence).
  destruct (process_loop_total args width height max_shift thr ir
              (repeat ref n) idx _
              (build_spot_templates_well_formed ref spots width height))
    as (evs & spots' & Hrun).
  destruct (process_loop_spec _ _ _ _ _ _ _ _ _ _ _ Hrun) as [_ Hrec].
  destruct (Hrec _ _ Hi) as (t' & Ht' & Hseq).
  rewrite List.map_repeat, (track_seq_repeat_fixed _ _ _ _ _ _ _ Hfix)
    in Hseq.
  injection Hseq as <-.
  exists evs, spots', t. repeat split; [exact Hrun|exact Ht'|congruence..].
Qed.

(** ** Frame bounds *)

Lemma track_spot_on_frame_in_frame s g width height max_shift thr s' :
  in_frame width height s ->
  track_spot_on_frame s g width height max_shift thr = Some s' ->
  in_frame width height s'.
Proof.
  intros Hin E.
  destruct (track_spot_on_frame_inv s g width height max_shift thr)
    as [E'|[(mv & u & v & _ & _ & _ & _ & _ & E')|(E' & _)]];
    rewrite E' in E; try discriminate; injection E as <-; [exact Hin|].
  destruct Hin as [? ?]. unfold in_frame, clampx; simpl. lia.
Qed.

Lemma track_seq_in_frame gs width height max_shift thr : forall s s',
  in_frame width height s ->
  track_seq gs width height max_shift thr s = Some s' ->
  in_frame width height s'.
Proof.
  induction gs as [|g rest IH]; intros s s' Hin; simpl.
  - by intros [= <-].
  - destruct (track_spot_on_frame s g width height max_shift thr)
      as [s1|] eqn:E1; [|discriminate].
    apply IH. eapply track_spot_on_frame_in_frame; eauto.
Qed.

(** C2 (amended): when every spot definition places its center inside the
    frame, the frame loop runs to the end and, after any number of processed
    frames, every track has [lastCenter] in [0, width-1] x [0, height-1]
    (each update step keeps an in-frame center in frame, hold or accept). *)
Theorem bounds_invariant_in_frame ref spots args width height max_shift thr
    ir frames idx :
  Forall (center_in_frame width height) spots ->
  exists evs spots',
    process_loop args width height max_shift thr ir frames idx
      (fst (build_spot_templates ref spots width height))
      = (evs, Some spots') /\
    Forall (in_frame width height) spots'.
Proof.
  intros Hc.
  destruct (process_loop_total args width height max_shift thr ir frames idx
              _ (build_spot_templates_well_formed ref spots width height))
    as (evs & spots' & Hrun).
  exists evs, spots'. split; [exact Hrun|].
  destruct (process_loop_spec _ _ _ _ _ _ _ _ _ _ _ Hrun) as [Hlen Hrec].
  apply Forall_lookup. intros j t' Hj.
  destruct (fst (build_spot_templates ref spots width height) !! j)
    as [t|] eqn:Et.
  - destruct (Hrec _ _ Et) as (t'' & Ht'' & Hseq).
    assert (t'' = t') as -> by congruence.
    eapply track_seq_in_frame; [|exact Hseq].
    destruct (build_spot_templates_lookup _ _ _ _ _ _ Et) as (d & Hd & Hb).
    apply build_spot_inr in Hb as (_ & _ & _ & _ & _ & Hlx & Hly & _).
    rewrite <- list_elem_of_In in Hd.
    rewrite Forall_forall in Hc. specialize (Hc d Hd).
    unfold in_frame, center_in_frame in *. by rewrite Hlx, Hly.
  - apply lookup_ge_None in Et. apply lookup_lt_Some in Hj. lia.
Qed.

(** ** Hold *)

(** A call on a well-formed track always returns (it never raises), and
    when the array [roi] the code slices is smaller than the template in
    either dimension, or the best score is below the threshold, it returns
    the track with every field unchanged. *)
Lemma hold_leaves_track_unchanged s g width height max_shift thr :
  well_formed s ->
  (exists s', track_spot_on_frame s g width height max_shift thr = Some s') /\
  (shape0 (search_roi s g width height max_shift) < templ_h s \/
   shape1 (search_roi s g width height max_shift) < templ_w s \/
   (fst (match_best (search_roi s g width height max_shift) (template s))
      < thr)%Q ->
   track_spot_on_frame s g width height max_shift thr = Some s).
Proof.
  intros Hwf. split; [by apply track_spot_on_frame_total|].
  intros Hhold.
  destruct (track_spot_on_frame_inv s g width height max_shift thr)
    as [E|[(mv & u & v & _ & ? & ? & Eb & Et & _)|(E & _)]].
  - exact E.
  - rewrite Eb in Hhold. cbn [fst] in Hhold.
    destruct Hhold as [?|[?|Hlt]]; [lia..|].
    apply Qlt_bool_true in Hlt. congruence.
  - destruct (track_spot_on_frame_total s g width height max_shift thr Hwf)
      as [s' E']. congruence.
Qed.

(** The extent of the clipped search region as the claim reads it: the
    distance between the clipped corners, empty when they cross. *)
Lemma search_roi_plain_shape s g width height max_shift :
  shape0 g = height -> shape1 g = width ->
  let '(x1, y1, x2, y2) := clip_box (search_box s max_shift) width height in
  0 <= x2 -> 0 <= y2 ->
  shape1 (search_roi s g width height max_shift) = Z.max 0 (x2 - x1) /\
  shape0 (search_roi s g width height max_shift) = Z.max 0 (y2 - y1).
Proof.
  intros H0 H1. unfold search_roi, clip_box, search_box.
  cbv beta iota zeta. intros Hx2 Hy2.
  rewrite slice2_shape0, slice2_shape1, H0, H1.
  rewrite !slice_range_plain by lia. cbn [snd]. lia.
Qed.

(** As long as the upper corners of the clipped search region are not
    negative, a clipped region smaller than the template in either
    dimension makes the call hold. *)
Lemma hold_on_small_clipped_region s g width height max_shift thr :
  well_formed s -> shape0 g = height -> shape1 g = width ->
  let '(x1, y1, x2, y2) := clip_box (search_box s max_shift) width height in
  0 <= x2 -> 0 <= y2 ->
  x2 - x1 < templ_w s \/ y2 - y1 < templ_h s ->
  track_spot_on_frame s g width height max_shift thr = Some s.
Proof.
  intros Hwf H0 H1.
  pose proof (search_roi_plain_shape s g width height max_shift H0 H1) as Hs.
  destruct (clip_box (search_box s max_shift) width height)
    as [[[x1 y1] x2] y2].
  intros Hx2 Hy2 Hsmall. destruct (Hs Hx2 Hy2) as [Hw Hh].
  apply (proj2 (hold_leaves_track_unchanged s g width height max_shift thr
                  Hwf)).
  destruct Hwf as (_ & _ & ? & ?). lia.
Qed.

(** ** Search region *)

(** C4 (amended): the search region before clipping is centered on
    [lastCenter]; its width is [2 * (templateWidth // 2) + 2 * maxShift] and
    its height [2 * (templateHeight // 2) + 2 * maxShift], that is the
    template dimension plus [2 * maxShift] when the dimension is even and
    one pixel less when it is odd. *)
Theorem search_box_dimensions s max_shift :
  let '(x1, y1, x2, y2) := search_box s max_shift in
  x1 + x2 = 2 * last_cx s /\ y1 + y2 = 2 * last_cy s /\
  x2 - x1 = templ_w s - templ_w s mod 2 + 2 * max_shift /\
  y2 - y1 = templ_h s - templ_h s mod 2 + 2 * max_shift.
Proof.
  unfold search_box. cbv zeta.
  pose proof (Z.div_mod (templ_w s) 2 ltac:(lia)).
  pose proof (Z.div_mod (templ_h s) 2 ltac:(lia)).
  repeat split; lia.
Qed.

(** ** Template construction *)

(** For a center inside the frame the template is the sub-image of the
    processed reference image over the clipped box, and the track starts at
    the definition's center, alive. *)
Lemma build_spot_center_in_frame g width height d :
  shape0 g = height -> shape1 g = width ->
  center_in_frame width height d ->
  1 <= spot_radius d + margin ->
  exists t,
    build_spot g width height d = inr t /\
    (let '(x1, y1, x2, y2) := template_box d width height in
     templ_w t = x2 - x1 /\ templ_h t = y2 - y1 /\
     shape1 (template t) = x2 - x1 /\ shape0 (template t) = y2 - y1 /\
     forall i j, at2 (template t) i j = at2 g (y1 + i) (x1 + j)) /\
    radius t = spot_radius d /\
    origin_cx t = spot_x d /\ origin_cy t = spot_y d /\
    last_cx t = spot_x d /\ last_cy t = spot_y d /\ alive t = true.
Proof.
  intros H0 H1 [Hx Hy] Hh.
  destruct (build_spot g width height d) as [m|t] eqn:Eb.
  - exfalso. revert Eb. unfold build_spot, template_box. cbv zeta.
    remember (slice2 g _ _ _ _) as tp eqn:Htp.
    destruct (Z.eqb_spec (array_size tp) 0) as [E|]; [|discriminate].
    intros _. revert E. unfold array_size.
    rewrite Htp, slice2_shape0, slice2_shape1, H0, H1.
    rewrite !slice_range_plain by lia. simpl. nia.
  - exists t. split; [reflexivity|].
    apply build_spot_inr in Eb
      as ((Hw & Hhh & _ & _) & Ha & Hr & Hox & Hoy & Hlx & Hly & Ht).
    split; [|repeat split; assumption].
    unfold template_box. cbv beta iota zeta.
    rewrite Hw, Hhh, Ht, slice2_shape0, slice2_shape1, H0, H1.
    rewrite !slice_range_plain by lia. cbn [fst snd].
    repeat split; try lia.
    intros i j. rewrite slice2_at, H0, H1, !slice_range_plain by lia.
    cbn [fst snd]. f_equal; lia.
Qed.

(** When the upper corner of the box is not negative, an empty clipped box
    makes the loop skip the definition with the warning. *)
Lemma build_spot_empty_box g width height d :
  shape0 g = height -> shape1 g = width ->
  (let '(x1, y1, x2, y2) := template_box d width height in
   0 <= x2 /\ 0 <= y2 /\ (x2 <= x1 \/ y2 <= y1)) ->
  build_spot g width height d
    = inl (MsgEmptyTemplate (spot_x d) (spot_y d)).
Proof.
  intros H0 H1. unfold build_spot, template_box. cbv zeta.
  intros (Hx2 & Hy2 & Hempty).
  remember (slice2 g _ _ _ _) as tp eqn:Htp.
  destruct (Z.eqb_spec (array_size tp) 0) as [|Hne]; [reflexivity|].
  exfalso. apply Hne. unfold array_size.
  rewrite Htp, slice2_shape0, slice2_shape1, H0, H1.
  rewrite !slice_range_plain by lia. simpl. nia.
Qed.

(** A spot of radius 10 at (100, 100) in a 200 x 200 frame: a 28 x 28 patch. *)
Example template_28_by_28 g :
  shape0 g = 200 -> shape1 g = 200 ->
  exists t, build_spot g 200 200 (mk_spot 100 100 10) = inr t /\
            templ_w t = 28 /\ templ_h t = 28.
Proof.
  intros H0 H1.
  destruct (build_spot_center_in_frame g 200 200 (mk_spot 100 100 10) H0 H1)
    as (t & Hb & Hbox & _).
  - unfold center_in_frame; simpl; lia.
  - unfold margin; simpl; lia.
  - exists t. split; [exact Hb|]. unfold template_box, margin in Hbox.
    simpl in Hbox. lia.
Qed.

(** ** [main] *)

(** C6: once the stream is open, the resolution matches and the reference
    frame is read, a non-empty spot list all of whose definitions are
    discarded makes [main] print the warnings and "nothing to do", release
    the capture and return: no writer is opened, no frame written, nothing
    raised. *)
Theorem nothing_to_do_when_all_discarded args data cap ref_frame :
  isOpened cap = true ->
  CAP_PROP_FRAME_WIDTH cap = frame_width data ->
  CAP_PROP_FRAME_HEIGHT cap = frame_height data ->
  read_at cap (frame_index data) = Some ref_frame ->
  json_spots data <> [] ->
  fst (build_spot_templates ref_frame (json_spots data)
         (CAP_PROP_FRAME_WIDTH cap) (CAP_PROP_FRAME_HEIGHT cap)) = [] ->
  main args data cap =
    (map Stdout
       (snd (build_spot_templates ref_frame (json_spots data)
               (CAP_PROP_FRAME_WIDTH cap) (CAP_PROP_FRAME_HEIGHT cap)))
     ++ [Stdout MsgNothingToDo; CapRelease], Returned) /\
  Forall no_writer_event (fst (main args data cap)).
Proof.
  intros Hopen Hw Hh Hread _ Hnone.
  assert (main args data cap =
    (map Stdout
       (snd (build_spot_templates ref_frame (json_spots data)
               (CAP_PROP_FRAME_WIDTH cap) (CAP_PROP_FRAME_HEIGHT cap)))
     ++ [Stdout MsgNothingToDo; CapRelease], Returned)) as Hmain.
  { unfold main. cbv zeta. rewrite Hopen. cbn [negb].
    rewrite <- Hw, <- Hh, !Z.eqb_refl. cbn [negb orb]. rewrite Hread.
    destruct (build_spot_templates ref_frame (json_spots data)
                (CAP_PROP_FRAME_WIDTH cap) (CAP_PROP_FRAME_HEIGHT cap))
      as [tracks warnings].
    simpl in Hnone. subst tracks. reflexivity. }
  split; [exact Hmain|]. rewrite Hmain. cbn [fst].
  apply Forall_app. split.
  - apply Forall_forall. intros e He.
    apply list_elem_of_fmap in He as (m & -> & _). exact I.
  - repeat constructor.
Qed.

(** ** Fields the tracker leaves alone *)

Lemma track_seq_frame gs width height max_shift thr : forall s s',
  track_seq gs width height max_shift thr s = Some s' ->
  exists cx cy, s' = set_last s cx cy.
Proof.
  induction gs as [|g rest IH]; intros s s'; simpl.
  - intros [= <-]. exists (last_cx s), (last_cy s).
    symmetry. apply set_last_same.
  - destruct (track_spot_on_frame s g width height max_shift thr)
      as [s1|] eqn:E1; [|discriminate].
    intros Hrest. apply track_spot_on_frame_frame in E1 as (cx1 & cy1 & ->).
    apply IH in Hrest as (cx & cy & ->). exists cx, cy. reflexivity.
Qed.

(** C7: no call of the tracker changes [alive] (the global-drift kill is
    commented out), and on every run the frame loop reaches its end with
    every track that survived template building still alive. *)
Theorem alive_never_cleared ref spots args width height max_shift thr ir
    frames idx :
  (forall s g,
     match track_spot_on_frame s g width height max_shift thr with
     | Some s' => alive s' = alive s
     | None => True
     end) /\
  exists evs spots',
    process_loop args width height max_shift thr ir frames idx
      (fst (build_spot_templates ref spots width height))
      = (evs, Some spots') /\
    length spots' = length (fst (build_spot_templates ref spots width height))
    /\ Forall (fun s => alive s = true) spots'.
Proof.
  split.
  - intros s g.
    destruct (track_spot_on_frame s g width height max_shift thr)
      as [s'|] eqn:E; [|exact I].
    apply track_spot_on_frame_frame in E as (cx & cy & ->). reflexivity.
  - destruct (process_loop_total args width height max_shift thr ir frames
                idx _
                (build_spot_templates_well_formed ref spots width height))
      as (evs & spots' & Hrun).
    exists evs, spots'. split; [exact Hrun|].
    destruct (process_loop_spec _ _ _ _ _ _ _ _ _ _ _ Hrun) as [Hlen Hrec].
    split; [exact Hlen|].
    apply Forall_lookup. intros j t' Hj.
    destruct (fst (build_spot_templates ref spots width height) !! j)
      as [t|] eqn:Et.
    + destruct (Hrec _ _ Et) as (t'' & Ht'' & Hseq).
      assert (t'' = t') as -> by congruence.
      apply track_seq_frame in Hseq as (cx & cy & ->). simpl.
      destruct (build_spot_templates_lookup _ _ _ _ _ _ Et) as (d & _ & Hb).
      apply build_spot_inr in Hb. tauto.
    + apply lookup_ge_None in Et. apply lookup_lt_Some in Hj. lia.
Qed.

(** C10: a call on the dict at position [i] of the list of dicts leaves the
    list as long as it was and every other dict as it was, and in dict [i]
    it can change [last_cx] and [last_cy] only. *)
Theorem tracker_frame_condition i store g width height max_shift thr store' :
  track_in_store i store g width height max_shift thr = Some store' ->
  length store' = length store /\
  (forall j, j <> i -> store' !! j = store !! j) /\
  (forall s, store !! i = Some s ->
     exists s', store' !! i = Some s' /\
       radius s' = radius s /\ template s' = template s /\
       templ_w s' = templ_w s /\ templ_h s' = templ_h s /\
       origin_cx s' = origin_cx s /\ origin_cy s' = origin_cy s /\
       alive s' = alive s).
Proof.
  unfold track_in_store.
  destruct (store !! i) as [s|] eqn:Ei.
  - destruct (track_spot_on_frame s g width height max_shift thr)
      as [s1|] eqn:E1; [|discriminate].
    intros [= <-]. rewrite length_insert.
    split; [reflexivity|]. split.
    + intros j Hj. by rewrite list_lookup_insert_ne.
    + intros s0 [= <-]. exists s1. split.
      * apply list_lookup_insert_eq. eapply lookup_lt_Some; eauto.
      * apply track_spot_on_frame_frame in E1 as (cx & cy & ->).
        simpl. tauto.
  - intros [= <-]. split; [reflexivity|]. split; [reflexivity|].
    intros s0. discriminate.
Qed.

(** ** One pass over the dicts *)

Section SpotPass.
Variables (g : ndarray) (width height max_shift : Z) (thr : Q) (debug : bool).

Let track (s : SpotTrack) :=
  track_spot_on_frame s g width height max_shift thr.

Lemma stamp_mask_cons mask s rest :
  stamp_mask mask (s :: rest) =
  stamp_mask
    (if alive s then circle_filled mask (last_cx s) (last_cy s) (radius s)
     else mask) rest.
Proof. reflexivity. Qed.

(** Visiting the positions of [todo], which follows [done] in the list:
    every dict of [todo] is replaced by what the tracker returns for it,
    and the mask, the counter and the debug list grow by the alive ones. *)
Lemma visit_spots_run todo : forall done st st',
  fs_spots st = done ++ todo ->
  visit_spots g width height max_shift thr debug
    (seq (length done) (length todo)) st = Some st' ->
  exists todo',
    fs_spots st' = done ++ todo' /\
    Forall2 (fun s s' => track s = Some s') todo todo' /\
    fs_mask st' = stamp_mask (fs_mask st) todo' /\
    fs_active st' = fs_active st + alive_count todo' /\
    fs_circles st' =
      fs_circles st ++ (if debug then circles_of todo' else []).
Proof.
  induction todo as [|s rest IH]; intros done st st' Hst; simpl.
  - intros [= <-]. exists []. rewrite app_nil_r in Hst.
    rewrite app_nil_r. repeat split; auto.
    + unfold alive_count; simpl; lia.
    + destruct debug; by rewrite app_nil_r.
  - unfold visit_spot at 1. rewrite Hst, list_lookup_middle by reflexivity.
    assert (forall st1,
      fs_spots st1 = (done ++ [s]) ++ rest ->
      visit_spots g width height max_shift thr debug
        (seq (S (length done)) (length rest)) st1 = Some st' ->
      exists rest',
        fs_spots st' = (done ++ [s]) ++ rest' /\
        Forall2 (fun s s' => track s = Some s') rest rest' /\
        fs_mask st' = stamp_mask (fs_mask st1) rest' /\
        fs_active st' = fs_active st1 + alive_count rest' /\
        fs_circles st' =
          fs_circles st1 ++ (if debug then circles_of rest' else []))
      as IHs.
    { intros st1 H1 Hv. apply (IH (done ++ [s]) st1 st' H1).
      rewrite length_app. simpl. by rewrite Nat.add_1_r. }
    destruct (alive s) eqn:Ea; cbn [negb].
    + destruct (track_spot_on_frame s g width height max_shift thr)
        as [s1|] eqn:Et; [|discriminate].
      assert (alive s1 = true) as Ea1.
      { apply track_spot_on_frame_frame in Et as (cx & cy & ->). exact Ea. }
      rewrite Ea1. cbn [negb].
      assert (<[length done:=s1]> (done ++ s :: rest) = done ++ s1 :: rest)
        as Hins.
      { replace (length done) with (length done + 0)%nat by lia.
        by rewrite insert_app_r. }
      rewrite Hins. intros Hv.
      assert (forall st1,
        fs_spots st1 = (done ++ [s1]) ++ rest ->
        visit_spots g width height max_shift thr debug
          (seq (S (length done)) (length rest)) st1 = Some st' ->
        exists rest',
          fs_spots st' = (done ++ [s1]) ++ rest' /\
          Forall2 (fun s s' => track s = Some s') rest rest' /\
          fs_mask st' = stamp_mask (fs_mask st1) rest' /\
          fs_active st' = fs_active st1 + alive_count rest' /\
          fs_circles st' =
            fs_circles st1 ++ (if debug then circles_of rest' else []))
        as IHs1.
      { intros st1 H1 Hv1. apply (IH (done ++ [s1]) st1 st' H1).
        rewrite length_app. simpl. by rewrite Nat.add_1_r. }
      eapply IHs1 in Hv; [|simpl; by rewrite <- app_assoc].
      destruct Hv as (rest' & Hs' & Hf & Hm & Ha & Hc).
      simpl in Hm, Ha, Hc.
      exists (s1 :: rest'). rewrite <- app_assoc in Hs'.
      split; [exact Hs'|]. split; [by constructor|].
      rewrite stamp_mask_cons, Ea1. split; [exact Hm|].
      unfold alive_count, circles_of in *. simpl. rewrite Ea1. simpl.
      split; [lia|].
      rewrite Hc. destruct debug; by rewrite <- ?app_assoc.
    + intros Hv.
      eapply IHs in Hv; [|rewrite Hst; by rewrite <- app_assoc].
      destruct Hv as (rest' & Hs' & Hf & Hm & Ha & Hc).
      exists (s :: rest'). rewrite <- app_assoc in Hs'.
      split; [exact Hs'|]. split.
      * constructor; [|exact Hf].
        unfold track, track_spot_on_frame. by rewrite Ea.
      * rewrite stamp_mask_cons, Ea.
        unfold alive_count, circles_of in *. simpl. rewrite Ea.
        repeat split; assumption.
Qed.

Lemma visit_spots_all_dead idxs : forall st,
  Forall (fun s => alive s = false) (fs_spots st) ->
  visit_spots g width height max_shift thr debug idxs st = Some st.
Proof.
  induction idxs as [|i rest IH]; intros st Hdead; simpl; [reflexivity|].
  assert (visit_spot g width height max_shift thr debug i st = Some st)
    as ->.
  { unfold visit_spot. destruct (fs_spots st !! i) as [s|] eqn:Ei; [|done].
    rewrite (Forall_lookup_1 _ _ _ _ Hdead Ei). reflexivity. }
  by apply IH.
Qed.

End SpotPass.

Lemma spot_pass_run args width height max_shift thr f spots st :
  spot_pass args width height max_shift thr f spots = Some st ->
  Forall2
    (fun s s' =>
       track_spot_on_frame s (edge_image f) width height max_shift thr
         = Some s')
    spots (fs_spots st) /\
  fs_mask st = stamp_mask (zeros height width) (fs_spots st) /\
  fs_active st = alive_count (fs_spots st) /\
  fs_circles st = if arg_debug args then circles_of (fs_spots st) else [].
Proof.
  unfold spot_pass. cbv zeta. intros Hv.
  apply (visit_spots_run _ _ _ _ _ _ spots []
           (mk_fs spots (zeros height width) 0 []) st eq_refl) in Hv
    as (todo' & Hs & Hf & Hm & Ha & Hc).
  simpl in Hs, Hm, Ha, Hc. rewrite Hs. repeat split; assumption.
Qed.

(** ** Darkening *)

Lemma Qlt_bool_false a b : Qlt_bool a b = false <-> (b <= a)%Q.
Proof.
  unfold Qlt_bool. rewrite negb_false_iff. apply Qle_bool_iff.
Qed.

(** Clamping to [0, 255] and dropping the fraction, on the integer side. *)
Lemma Qfloor_clip q :
  Qfloor (clip_0_255 q) = Z.max 0 (Z.min 255 (Qfloor q)).
Proof.
  unfold clip_0_255, Qmax, Qmin.
  destruct (Qlt_bool q 0) eqn:E1.
  - apply Qlt_bool_true in E1.
    assert (Qfloor q < 0).
    { rewrite Zlt_Qlt. eapply Qle_lt_trans; [apply Qfloor_le|exact E1]. }
    replace (Qlt_bool 255 0) with false by reflexivity.
    change (Qfloor 0) with 0. lia.
  - apply Qlt_bool_false in E1.
    assert (0 <= Qfloor q) by (apply (Qfloor_resp_le 0 q), E1).
    destruct (Qlt_bool 255 q) eqn:E2.
    + apply Qlt_bool_true in E2.
      assert (255 <= Qfloor q)
        by (apply (Qfloor_resp_le 255 q), Qlt_le_weak, E2).
      change (Qfloor 255) with 255. lia.
    + apply Qlt_bool_false in E2.
      assert (Qfloor q <= 255) by (apply (Qfloor_resp_le q 255), E2).
      lia.
Qed.

Lemma darken_channel_range darken v : 0 <= darken_channel darken v <= 255.
Proof. unfold darken_channel. rewrite Qfloor_clip. lia. Qed.

Lemma Qfloor_half v : Qfloor (inject_Z v * (1 # 2)) = v / 2.
Proof. unfold Qfloor, Qmult, inject_Z; simpl. by rewrite Z.mul_1_r. Qed.

Lemma composite_darkens args ir f mask active i j c :
  0 < active -> (arg_darken args < 1)%Q ->
  chan (composite args ir f mask active) i j c =
    if at2 mask i j =? 255
    then darken_channel (arg_darken args)
           (chan (inpaint f mask ir (arg_inpaint_method args)) i j c)
    else chan (inpaint f mask ir (arg_inpaint_method args)) i j c.
Proof.
  intros Ha Hd. unfold composite.
  destruct (Z.ltb_spec 0 active); [|lia].
  apply Qlt_bool_true in Hd. rewrite Hd. reflexivity.
Qed.

(** C8 (amended): with [darken < 1.0] and at least one spot drawn, the
    frame the darkening step leaves is the inpainted frame in which every
    channel of every pixel under the mask is replaced by the float32
    product with [darken], clamped to [0, 255] and cut to an integer - so
    it is within [0, 255], and with [darken = 0.5] at most half the
    inpainted value - while pixels outside the mask are the inpainted ones.
    With the debug overlay off that frame is the written frame.  With the
    overlay on, the written frame is that frame with the outline circles of
    the alive tracks drawn over it afterwards, in list order. *)
Theorem darkened_written_frame args width height max_shift thr ir f spots
    st :
  spot_pass args width height max_shift thr f spots = Some st ->
  0 < fs_active st ->
  (arg_darken args < 1)%Q ->
  let inpainted := inpaint f (fs_mask st) ir (arg_inpaint_method args) in
  exists darkened,
    (forall i j c,
       (at2 (fs_mask st) i j = 255 ->
          chan darkened i j c =
            Z.max 0 (Z.min 255
              (Qfloor (f32 (inject_Z (chan inpainted i j c)
                            * f32 (arg_darken args))))) /\
          0 <= chan darkened i j c <= 255 /\
          (arg_darken args = 1 # 2 ->
           (f32 (inject_Z (chan inpainted i j c) * f32 (1 # 2))
              == inject_Z (chan inpainted i j c) * (1 # 2))%Q ->
           0 <= chan inpainted i j c <= 255 ->
           chan darkened i j c = chan inpainted i j c / 2 /\
           2 * chan darkened i j c <= chan inpainted i j c)) /\
       (at2 (fs_mask st) i j <> 255 ->
          chan darkened i j c = chan inpainted i j c)) /\
    (arg_debug args = false ->
       process_frame args width height max_shift thr ir f spots
         = Some (fs_spots st, darkened, fs_active st)) /\
    (arg_debug args = true ->
       process_frame args width height max_shift thr ir f spots
         = Some (fs_spots st,
                 draw_debug true (circles_of (fs_spots st)) darkened,
                 fs_active st)).
Proof.
  intros Hpass Hactive Hd. cbv zeta.
  exists (composite args ir f (fs_mask st) (fs_active st)).
  split; [|split].
  - intros i j c. rewrite composite_darkens by assumption. split.
    + intros Hm. rewrite Hm, Z.eqb_refl. split; [|split].
      * unfold darken_channel. apply Qfloor_clip.
      * apply darken_channel_range.
      * intros Hhalf Hexact Hv. unfold darken_channel.
        rewrite Qfloor_clip, Hhalf, Hexact, Qfloor_half.
        pose proof (Z.div_mod (chan (inpaint f (fs_mask st) ir
                                       (arg_inpaint_method args)) i j c) 2
                      ltac:(lia)).
        pose proof (Z.mod_pos_bound
                      (chan (inpaint f (fs_mask st) ir
                               (arg_inpaint_method args)) i j c) 2
                      ltac:(lia)).
        lia.
    + intros Hm. destruct (Z.eqb_spec (at2 (fs_mask st) i j) 255); [done|].
      reflexivity.
  - intros Hdebug. unfold process_frame. rewrite Hpass, Hdebug.
    reflexivity.
  - intros Hdebug. unfold process_frame. rewrite Hpass.
    apply spot_pass_run in Hpass as (_ & _ & _ & Hc).
    rewrite Hc, Hdebug. reflexivity.
Qed.

(** ** Displacement of an accepted match *)

(** One axis of the search: [len] is the frame extent, [c] the previous
    center, [tw] the template extent, [u] the reported offset. *)
Lemma axis_displacement len c tw max_shift u :
  0 <= len -> 1 <= tw -> 0 <= max_shift ->
  0 <= c + tw / 2 + max_shift ->
  tw <= snd (slice_range len (Z.max 0 (c - tw / 2 - max_shift))
                             (Z.min len (c + tw / 2 + max_shift))) ->
  0 <= u <= snd (slice_range len (Z.max 0 (c - tw / 2 - max_shift))
                                 (Z.min len (c + tw / 2 + max_shift))) - tw ->
  Z.abs (clampx len (Z.max 0 (c - tw / 2 - max_shift) + u + tw / 2) - c)
    <= max_shift.
Proof.
  intros Hlen Htw Hms Hx2.
  pose proof (Z.div_mod tw 2 ltac:(lia)) as D.
  pose proof (Z.mod_pos_bound tw 2 ltac:(lia)) as M.
  remember (tw / 2) as hw eqn:Ehw. clear Ehw.
  remember (Z.max 0 (c - hw - max_shift)) as x1 eqn:E1.
  remember (Z.min len (c + hw + max_shift)) as x2 eqn:E2.
  assert (0 <= x1 /\ c - hw - max_shift <= x1) as [? ?] by lia.
  assert (0 <= x2 /\ x2 <= len /\ x2 <= c + hw + max_shift) as (? & ? & ?)
    by lia.
  assert (x1 = 0 \/ x1 = c - hw - max_shift) as Hx1 by lia.
  clear E1 E2. rewrite slice_range_plain by lia. cbn [snd].
  intros Hfit Hu.
  assert (x1 <= len) by lia.
  rewrite Z.min_l in Hfit, Hu by lia.
  rewrite Z.min_l in Hfit, Hu by lia.
  rewrite Z.max_r in Hfit, Hu by lia.
  unfold clampx.
  rewrite Z.min_l by lia. rewrite Z.max_r by lia. lia.
Qed.

(** As long as the upper corner of the clipped search region is not
    negative (which holds whenever the previous center is in the frame) and
    the matcher reports a location inside its result array, a call moves
    the center by at most [max_shift] in each axis. *)
Lemma displacement_bound_plain_slice s g width height max_shift thr s' :
  shape0 g = height -> shape1 g = width -> 0 <= height -> 0 <= width ->
  well_formed s -> 0 <= max_shift ->
  0 <= last_cx s + templ_w s / 2 + max_shift ->
  0 <= last_cy s + templ_h s / 2 + max_shift ->
  (let roi := search_roi s g width height max_shift in
   let '(u, v) := snd (match_best roi (template s)) in
   0 <= u <= shape1 roi - templ_w s /\ 0 <= v <= shape0 roi - templ_h s) ->
  track_spot_on_frame s g width height max_shift thr = Some s' ->
  Z.abs (last_cx s' - last_cx s) <= max_shift /\
  Z.abs (last_cy s' - last_cy s) <= max_shift.
Proof.
  intros H0 H1 Hh0 Hw0 (_ & _ & Hw1 & Hh1) Hms Hx2 Hy2 Hrange E.
  destruct (track_spot_on_frame_inv s g width height max_shift thr)
    as [E'|[(mv & u & v & _ & Hfh & Hfw & Eb & _ & E')|(E' & _)]];
    rewrite E' in E; try discriminate; injection E as <-; [lia|].
  cbv zeta in Hrange. rewrite Eb in Hrange. cbn [snd] in Hrange.
  revert Hfh Hfw Hrange. unfold search_roi, clip_box, search_box.
  cbv beta iota zeta. rewrite slice2_shape0, slice2_shape1, H0, H1.
  intros Hfh Hfw [Hu Hv]. unfold set_last. cbn [last_cx last_cy].
  split; apply axis_displacement; assumption.
Qed.

End Properties.

(** * The statements on concrete inputs *)

Section Concrete.
Import Reference.
Local Existing Instance opencv.

Lemma build_8_8 :
  build_spot_templates frame16 [mk_spot 8 8 1] 16 16 = ([track_8_8], []).
Proof. reflexivity. Qed.

Lemma build_2_8 :
  build_spot_templates frame16 [mk_spot 2 8 1] 16 16 = ([track_2_8], []).
Proof. reflexivity. Qed.

Lemma build_m2_8 :
  build_spot_templates frame16 [mk_spot (-2) 8 1] 16 16 = ([track_m2_8], []).
Proof. reflexivity. Qed.

(** C1, counterexample, on one processed frame identical to the reference
    frame.
    (a) The spot at (2, 8) of radius 1 has its template clipped at the left
    border.  The match is accepted at the only column where the 7-wide
    template fits into the 7-wide search region, and the center becomes the
    middle of the clipped patch, column 3, not the original column 2.
    (b) On a uniform frame the template of the spot at (8, 8), not clipped,
    matches everywhere in its search region; the first location is reported
    and the center moves by [max_shift] to (6, 6). *)
Lemma no_motion_counterexamples :
  (fst (build_spot_templates frame16 [mk_spot 2 8 1] 16 16) = [track_2_8] /\
   exists evs t',
     process_loop args0 16 16 2 (1 # 2) 3 [frame16] 0 [track_2_8]
       = (evs, Some [t']) /\
     last_cx t' = 3 /\ origin_cx t' = 2 /\ last_cx t' <> origin_cx t') /\
  (fst (build_spot_templates flat16 [mk_spot 8 8 1] 16 16) = [track_flat] /\
   unclipped 16 16 track_flat /\
   exists evs t',
     process_loop args0 16 16 2 (1 # 2) 3 [flat16] 0 [track_flat]
       = (evs, Some [t']) /\
     (last_cx t', last_cy t') = (6, 6) /\
     (origin_cx t', origin_cy t') = (8, 8)).
Proof.
  split.
  - split; [reflexivity|].
    eexists. exists (set_last track_2_8 3 8).
    split; [vm_compute; reflexivity|].
    split; [reflexivity|]. split; [reflexivity|]. discriminate.
  - split; [reflexivity|].
    split; [unfold unclipped, margin; simpl; lia|].
    eexists. exists (set_last track_flat 6 6).
    split; [vm_compute; reflexivity|].
    split; reflexivity.
Qed.

Lemma no_motion_unclipped_witness :
  unclipped 16 16 track_8_8 /\
  exists evs spots' t',
    process_loop args0 16 16 2 (1 # 2) 3 (repeat frame16 3) 0
      (fst (build_spot_templates frame16 [mk_spot 8 8 1] 16 16))
      = (evs, Some spots') /\
    spots' !! 0%nat = Some t' /\
    last_cx t' = origin_cx t' /\ last_cy t' = origin_cy t'.
Proof.
  assert (unclipped 16 16 track_8_8) as Hun
    by (unfold unclipped, margin; simpl; lia).
  split; [exact Hun|].
  apply (no_motion_unclipped frame16 [mk_spot 8 8 1] args0 16 16 2 (1 # 2) 3
           3 0 0%nat track_8_8).
  - reflexivity.
  - reflexivity.
  - reflexivity.
  - exact Hun.
  - right. vm_compute. reflexivity.
Defined.

(** C2, counterexample: the spot at (-2, 8) of radius 1 survives template
    building (its box overlaps the frame); its search region is narrower
    than its template, so every call holds, and after the update the track
    is alive with [last_cx = -2], outside [0, 15]. *)
Lemma center_outside_frame_survives_holds :
  fst (build_spot_templates frame16 [mk_spot (-2) 8 1] 16 16)
    = [track_m2_8] /\
  exists evs,
    process_loop args0 16 16 2 (1 # 2) 3 [frame16] 0 [track_m2_8]
      = (evs, Some [track_m2_8]) /\
    alive track_m2_8 = true /\ last_cx track_m2_8 = -2 /\
    ~ in_frame 16 16 track_m2_8.
Proof.
  split; [reflexivity|]. eexists.
  split; [vm_compute; reflexivity|].
  split; [reflexivity|]. split; [reflexivity|].
  unfold in_frame; simpl. lia.
Qed.

Lemma bounds_invariant_in_frame_witness :
  Forall (center_in_frame 16 16) [mk_spot 8 8 1; mk_spot 2 8 1] /\
  exists evs spots',
    process_loop args0 16 16 2 (1 # 2) 3 [frame16; frame16] 0
      (fst (build_spot_templates frame16 [mk_spot 8 8 1; mk_spot 2 8 1]
              16 16))
      = (evs, Some spots') /\
    Forall (in_frame 16 16) spots'.
Proof.
  assert (Forall (center_in_frame 16 16) [mk_spot 8 8 1; mk_spot 2 8 1])
    as Hc by (repeat constructor; simpl; lia).
  split; [exact Hc|].
  apply (bounds_invariant_in_frame frame16 [mk_spot 8 8 1; mk_spot 2 8 1]
           args0 16 16 2 (1 # 2) 3 [frame16; frame16] 0 Hc).
Defined.

Lemma hold_leaves_track_unchanged_witness :
  well_formed track_m2_8 /\
  shape1 (search_roi track_m2_8 gray16 16 16 2) < templ_w track_m2_8 /\
  track_spot_on_frame track_m2_8 gray16 16 16 2 (1 # 2) = Some track_m2_8.
Proof.
  assert (well_formed track_m2_8) as Hwf
    by (unfold well_formed; split; [reflexivity|]; split; [reflexivity|];
        split; simpl; lia).
  assert (shape1 (search_roi track_m2_8 gray16 16 16 2) < templ_w track_m2_8)
    as Hsmall by (vm_compute; reflexivity).
  split; [exact Hwf|]. split; [exact Hsmall|].
  apply (proj2 (hold_leaves_track_unchanged track_m2_8 gray16 16 16 2 (1 # 2)
                  Hwf)).
  right; left. exact Hsmall.
Defined.

(** C3, the code at the failing input: for the spot at (-3, 8) of radius 1
    and [max_shift = 1] the clipped search region has the corners
    [roi_x1 = 0] and [roi_x2 = -1]: it is empty, narrower than the 2-wide
    template, and the claim says the call holds.  The slice [0:-1] the code
    takes is 15 columns wide, so the size test passes, the matcher runs and
    the call overwrites [last_cx] (from -3 to 1) instead of holding. *)
Lemma clipped_region_too_small_but_no_hold :
  fst (build_spot_templates frame16 [mk_spot (-3) 8 1] 16 16)
    = [track_m3_8] /\
  well_formed track_m3_8 /\
  (let '(x1, y1, x2, y2) := clip_box (search_box track_m3_8 1) 16 16 in
   x1 = 0 /\ x2 = -1 /\ Z.max 0 (x2 - x1) = 0 /\
   Z.max 0 (x2 - x1) < templ_w track_m3_8) /\
  shape1 (search_roi track_m3_8 gray16 16 16 1) = 15 /\
  exists s',
    track_spot_on_frame track_m3_8 gray16 16 16 1 (1 # 2) = Some s' /\
    last_cx s' = 1 /\ last_cx track_m3_8 = -3 /\ s' <> track_m3_8.
Proof.
  split; [reflexivity|]. split.
  { unfold well_formed. split; [reflexivity|]. split; [reflexivity|].
    split; simpl; lia. }
  split; [vm_compute; repeat split|]. split; [reflexivity|].
  exists (set_last track_m3_8 1 8).
  split; [vm_compute; reflexivity|]. split; [reflexivity|].
  split; [reflexivity|]. intros E.
  apply (f_equal last_cx) in E. discriminate.
Qed.

(** C4, counterexample: the track of the spot at (2, 8) has a template 7
    wide; with [max_shift = 2] its search region before clipping runs from
    -3 to 7, 10 wide, not [7 + 2 * 2 = 11]. *)
Lemma search_box_width_odd_template :
  fst (build_spot_templates frame16 [mk_spot 2 8 1] 16 16) = [track_2_8] /\
  templ_w track_2_8 = 7 /\
  search_box track_2_8 2 = (-3, 1, 7, 15) /\
  7 - -3 <> templ_w track_2_8 + 2 * 2.
Proof. repeat split; discriminate. Qed.

(** C5, the code at the failing input: for the spot at (-8, 8) of radius 1
    in a 16 x 16 frame the box spans columns -13 .. -3, so clipped to the
    frame it is empty; the slice [0:-3] the loop takes is 13 columns wide,
    nothing is printed and a track is appended. *)
Lemma empty_box_not_discarded_on_negative_corner :
  template_box (mk_spot (-8) 8 1) 16 16 = (0, 3, -3, 13) /\
  snd (build_spot_templates frame16 [mk_spot (-8) 8 1] 16 16) = [] /\
  map (fun t => (templ_w t, templ_h t, alive t))
    (fst (build_spot_templates frame16 [mk_spot (-8) 8 1] 16 16))
    = [(13, 10, true)].
Proof. repeat split. Qed.

Lemma nothing_to_do_when_all_discarded_witness :
  json_spots data_outside <> [] /\
  fst (build_spot_templates frame16 (json_spots data_outside) 16 16) = [] /\
  main args0 data_outside cap16 =
    (map Stdout
       (snd (build_spot_templates frame16 (json_spots data_outside) 16 16))
     ++ [Stdout MsgNothingToDo; CapRelease], Returned) /\
  Forall no_writer_event (fst (main args0 data_outside cap16)).
Proof.
  assert (json_spots data_outside <> []) as Hne by discriminate.
  split; [exact Hne|]. split; [reflexivity|].
  apply (nothing_to_do_when_all_discarded args0 data_outside cap16 frame16).
  - reflexivity.
  - reflexivity.
  - reflexivity.
  - reflexivity.
  - exact Hne.
  - reflexivity.
Defined.

Lemma spot_pass_whole debug :
  spot_pass (args_darken debug) 16 16 2 (1 # 2) frame16 [track_whole]
    = Some (mk_fs [track_whole] (disk (zeros 16 16) 8 8 4) 1
              (if debug then [(8, 8, 4)] else [])).
Proof. destruct debug; vm_compute; reflexivity. Qed.

(** C8, counterexample: darken = 0.5, debug overlay on, one spot of radius 4
    at (8, 8) in the 16 x 16 frame.  Its template is the whole processed
    frame, so the only location a match can have is (0, 0) and the track
    stays at (8, 8) whether the match is accepted or not.  The pixel
    (row 8, column 12) is under the mask, and darkening leaves at most 127
    in each of its channels, whatever the inpainted value; the outline of
    radius 4 drawn afterwards passes through that pixel, and the written
    frame has red 255 there. *)
Lemma debug_overlay_overwrites_darkened_pixel :
  build_spot_templates frame16 [mk_spot 8 8 4] 16 16 = ([track_whole], []) /\
  (arg_darken (args_darken true) < 1)%Q /\
  (forall v, 0 <= v <= 255 -> darken_channel (1 # 2) v <= 127) /\
  exists st out,
    spot_pass (args_darken true) 16 16 2 (1 # 2) frame16 [track_whole]
      = Some st /\
    fs_spots st = [track_whole] /\
    0 < fs_active st /\
    at2 (fs_mask st) 8 12 = 255 /\
    process_frame (args_darken true) 16 16 2 (1 # 2) 3 frame16 [track_whole]
      = Some ([track_whole], out, 1) /\
    chan out 8 12 2 = 255 /\
    chan out 8 12 2 <>
      darken_channel (1 # 2)
        (chan (inpaint frame16 (fs_mask st) 3 INPAINT_TELEA) 8 12 2).
Proof.
  split; [reflexivity|]. split; [reflexivity|]. split.
  { intros v Hv. unfold darken_channel. rewrite Qfloor_clip.
    change (f32 (inject_Z v * f32 (1 # 2))) with (inject_Z v * (1 # 2))%Q.
    rewrite Qfloor_half.
    pose proof (Z.div_mod v 2 ltac:(lia)).
    pose proof (Z.mod_pos_bound v 2 ltac:(lia)). lia. }
  eexists. eexists. split; [apply (spot_pass_whole true)|].
  split; [reflexivity|]. split; [reflexivity|]. split; [reflexivity|].
  split; [vm_compute; reflexivity|]. split; [reflexivity|].
  vm_compute. discriminate.
Qed.

Lemma darkened_written_frame_witness :
  exists st darkened,
    spot_pass (args_darken false) 16 16 2 (1 # 2) frame16 [track_whole]
      = Some st /\
    at2 (fs_mask st) 8 12 = 255 /\ at2 (fs_mask st) 0 0 <> 255 /\
    process_frame (args_darken false) 16 16 2 (1 # 2) 3 frame16
      [track_whole] = Some (fs_spots st, darkened, fs_active st) /\
    0 <= chan darkened 8 12 2 <= 255 /\
    chan darkened 0 0 2
      = chan (inpaint frame16 (fs_mask st) 3 INPAINT_TELEA) 0 0 2.
Proof.
  pose proof (spot_pass_whole false) as Hpass.
  destruct (darkened_written_frame (args_darken false) 16 16 2 (1 # 2) 3
              frame16 [track_whole] _ Hpass)
    as (darkened & Hpix & Hoff & _); [reflexivity | reflexivity |].
  eexists. exists darkened. split; [exact Hpass|].
  split; [reflexivity|]. split; [discriminate|].
  split; [exact (Hoff eq_refl)|].
  destruct (Hpix 8 12 2) as [Hin _]. destruct (Hpix 0 0 2) as [_ Hout].
  split; [apply (Hin eq_refl)|]. apply Hout. discriminate.
Defined.

(** C9, the code at the failing input: for the spot at (-3, 8) of radius 1
    and [max_shift = 1] the clipped corners are [roi_x1 = 0] and
    [roi_x2 = -1]; the slice [0:-1] is 15 columns wide, the 2-wide template
    fits, the match at its own place is accepted and the center goes from
    -3 to 1: a displacement of 4 with [max_shift = 1]. *)
Lemma displacement_exceeds_max_shift_on_wrapped_slice :
  fst (build_spot_templates frame16 [mk_spot (-3) 8 1] 16 16)
    = [track_m3_8] /\
  clip_box (search_box track_m3_8 1) 16 16 = (0, 2, -1, 14) /\
  shape1 (search_roi track_m3_8 gray16 16 16 1) = 15 /\
  track_spot_on_frame track_m3_8 gray16 16 16 1 (1 # 2)
    = Some (set_last track_m3_8 1 8) /\
  Z.abs (last_cx (set_last track_m3_8 1 8) - last_cx track_m3_8) = 4.
Proof.
  split; [reflexivity|]. split; [reflexivity|]. split; [reflexivity|].
  split; [vm_compute; reflexivity|]. reflexivity.
Qed.

Lemma tracker_frame_condition_witness :
  track_in_store 0 [track_2_8; track_8_8] gray16 16 16 2 (1 # 2)
    = Some [set_last track_2_8 3 8; track_8_8] /\
  length [set_last track_2_8 3 8; track_8_8]
    = length [track_2_8; track_8_8] /\
  (forall j, j <> 0%nat ->
     [set_last track_2_8 3 8; track_8_8] !! j = [track_2_8; track_8_8] !! j)
  /\
  (forall s, [track_2_8; track_8_8] !! 0%nat = Some s ->
     exists s', [set_last track_2_8 3 8; track_8_8] !! 0%nat = Some s' /\
       radius s' = radius s /\ template s' = template s /\
       templ_w s' = templ_w s /\ templ_h s' = templ_h s /\
       origin_cx s' = origin_cx s /\ origin_cy s' = origin_cy s /\
       alive s' = alive s).
Proof.
  assert (track_in_store 0 [track_2_8; track_8_8] gray16 16 16 2 (1 # 2)
          = Some [set_last track_2_8 3 8; track_8_8]) as E
    by (vm_compute; reflexivity).
  split; [exact E|].
  exact (tracker_frame_condition 0 [track_2_8; track_8_8] gray16 16 16 2
           (1 # 2) [set_last track_2_8 3 8; track_8_8] E).
Defined.

End Concrete.

(** * Further properties of the pipeline *)

Section PipelineExtras.
Context `{cv : OpenCV}.

(** ** One pass over the dicts, as a whole *)

Lemma track_spot_on_frame_drawable s g width height max_shift thr s' :
  cv_size width height -> drawable s ->
  track_spot_on_frame s g width height max_shift thr = Some s' ->
  drawable s'.
Proof.
  intros [Hw Hh] Hd E.
  destruct (track_spot_on_frame_inv s g width height max_shift thr)
    as [E'|[(mv & u & v & _ & _ & _ & _ & _ & E')|(E' & _)]];
    rewrite E' in E; try discriminate; injection E as <-; [exact Hd|].
  revert Hd Hw Hh.
  unfold drawable, circle_accepts, fits_int, clampx, INT_MAX.
  cbn [last_cx last_cy radius set_last]. lia.
Qed.

Lemma track_seq_drawable gs width height max_shift thr : forall s s',
  cv_size width height -> drawable s ->
  track_seq gs width height max_shift thr s = Some s' -> drawable s'.
Proof.
  induction gs as [|g rest IH]; intros s s' Hsz Hd; simpl.
  - by intros [= <-].
  - destruct (track_spot_on_frame s g width height max_shift thr)
      as [s1|] eqn:E1; [|discriminate].
    apply IH; [exact Hsz|]. eapply track_spot_on_frame_drawable; eauto.
Qed.

Lemma build_spot_drawable g width height d t :
  drawable_def d -> build_spot g width height d = inr t -> drawable t.
Proof.
  intros Hd Hb.
  apply build_spot_inr in Hb as (_ & _ & Hr & _ & _ & Hx & Hy & _).
  unfold drawable. by rewrite Hr, Hx, Hy.
Qed.

Lemma build_spot_templates_drawable ref spots width height :
  Forall drawable_def spots ->
  Forall drawable (fst (build_spot_templates ref spots width height)).
Proof.
  intros Hall. apply Forall_lookup. intros i t Hi.
  destruct (build_spot_templates_lookup _ _ _ _ _ _ Hi) as (d & Hd & Hb).
  eapply build_spot_drawable; [|exact Hb].
  rewrite Forall_forall in Hall. apply Hall. by apply list_elem_of_In.
Qed.

(** X1: a pass over well-formed dicts whose circles [cv2.circle] accepts
    completes; it leaves every dict as the tracker returns it, again with
    a circle that is accepted, the counter equal to the number of alive
    dicts, and the mask equal to the empty mask with one filled disk per
    alive dict, stamped in list order at the updated center. *)
Theorem spot_pass_mask_and_count args width height max_shift thr f spots :
  cv_size width height -> sized width height f ->
  Forall well_formed spots -> Forall drawable spots ->
  exists st,
    spot_pass args width height max_shift thr f spots = Some st /\
    Forall2
      (fun s s' =>
         track_spot_on_frame s (edge_image f) width height max_shift thr
           = Some s')
      spots (fs_spots st) /\
    Forall drawable (fs_spots st) /\
    fs_mask st = stamp_mask (zeros height width) (fs_spots st) /\
    fs_active st = alive_count (fs_spots st) /\
    fs_circles st = if arg_debug args then circles_of (fs_spots st) else [].
Proof.
  intros Hsz _ Hwf Hdr.
  destruct (visit_spots_total (preprocess_for_match (cvtColor_gray f))
              width height max_shift thr (arg_debug args)
              (seq 0 (length spots))
              (mk_fs spots (zeros height width) 0 []) Hwf) as [st Hst].
  exists st. split; [exact Hst|].
  destruct (spot_pass_run _ _ _ _ _ _ _ _ Hst) as (Hf & Hm & Ha & Hc).
  split; [exact Hf|]. split; [|auto].
  clear Hm Ha Hc Hst Hwf. induction Hf as [|s s' l l' Hs _ IH].
  - constructor.
  - apply Forall_cons in Hdr as [Hd Hdr]. constructor; [|by apply IH].
    eapply track_spot_on_frame_drawable; eauto.
Qed.

(** X2: when no dict is alive (in particular when there is none), the frame
    is written as it was read, whatever the darken and debug settings, no
    dict changes and the counter is 0. *)
Theorem frame_passes_through_without_alive_spots args width height max_shift
    thr ir f spots :
  Forall (fun s => alive s = false) spots ->
  process_frame args width height max_shift thr ir f spots
    = Some (spots, f, 0).
Proof.
  intros Hdead. unfold process_frame, spot_pass. cbv zeta.
  rewrite visit_spots_all_dead by exact Hdead. cbn [fs_spots fs_mask
    fs_active fs_circles]. unfold composite, draw_debug. simpl.
  by destruct (arg_debug args).
Qed.

(** ** Template building, all definitions *)

Lemma build_loop_partition g width height spots :
  (length (fst (build_loop g width height spots))
   + length (snd (build_loop g width height spots)))%nat = length spots /\
  Forall (fun m => exists d, d ∈ spots /\
            build_spot g width height d = inl m /\
            m = MsgEmptyTemplate (spot_x d) (spot_y d))
    (snd (build_loop g width height spots)).
Proof.
  induction spots as [|d rest [IHl IHw]]; simpl; [by split|].
  destruct (build_loop g width height rest) as [data warns]. simpl in *.
  assert (Forall (fun m => exists d0, d0 ∈ d :: rest /\
            build_spot g width height d0 = inl m /\
            m = MsgEmptyTemplate (spot_x d0) (spot_y d0)) warns) as Hrest.
  { eapply Forall_impl; [exact IHw|]. intros m (d0 & ? & ? & ?).
    exists d0. split; [by right|]. auto. }
  destruct (build_spot g width height d) as [m|t] eqn:Ed; simpl.
  - split; [lia|]. constructor; [|exact Hrest].
    exists d. split; [by left|]. split; [exact Ed|].
    revert Ed. unfold build_spot. cbv zeta.
    destruct (template_box d width height) as [[[x1 y1] x2] y2].
    destruct (_ =? 0); [|discriminate]. by intros [= <-].
  - split; [lia|exact Hrest].
Qed.

(** X3: every definition gives either one track or one warning, nothing is
    lost or duplicated.  A warning names the center of a definition whose
    slice was empty; a track is alive, sits at the center of its definition
    with its radius, and has a non-empty template whose shape is recorded in
    [templ_w] and [templ_h]. *)
Theorem build_partitions_definitions ref spots width height :
  (length (fst (build_spot_templates ref spots width height))
   + length (snd (build_spot_templates ref spots width height)))%nat
    = length spots /\
  Forall (fun t =>
            well_formed t /\ alive t = true /\
            last_cx t = origin_cx t /\ last_cy t = origin_cy t /\
            exists d, d ∈ spots /\ origin_cx t = spot_x d /\
                      origin_cy t = spot_y d /\ radius t = spot_radius d)
    (fst (build_spot_templates ref spots width height)) /\
  Forall (fun m => exists d, d ∈ spots /\
            m = MsgEmptyTemplate (spot_x d) (spot_y d))
    (snd (build_spot_templates ref spots width height)).
Proof.
  unfold build_spot_templates. cbv zeta.
  destruct (build_loop_partition
              (preprocess_for_match (cvtColor_gray ref)) width height spots)
    as [Hlen Hw].
  split; [exact Hlen|]. split.
  - apply Forall_lookup. intros i t Hi.
    apply build_loop_lookup in Hi as (d & Hd & Hb).
    apply build_spot_inr in Hb
      as (Hwf & Ha & Hr & Hox & Hoy & Hlx & Hly & _).
    split; [exact Hwf|]. split; [exact Ha|].
    split; [congruence|]. split; [congruence|].
    exists d. split; [by apply list_elem_of_In|]. auto.
  - eapply Forall_impl; [exact Hw|]. intros m (d & ? & _ & ?). eauto.
Qed.

Lemma build_loop_in_frame g width height spots :
  shape0 g = height -> shape1 g = width ->
  Forall (fun d => center_in_frame width height d /\
                   1 <= spot_radius d + margin) spots ->
  snd (build_loop g width height spots) = [] /\
  Forall2
    (fun d t =>
       build_spot g width height d = inr t /\
       origin_cx t = spot_x d /\ origin_cy t = spot_y d /\
       radius t = spot_radius d /\
       let '(x1, y1, x2, y2) := template_box d width height in
       templ_w t = x2 - x1 /\ templ_h t = y2 - y1 /\
       forall i j, at2 (template t) i j = at2 g (y1 + i) (x1 + j))
    spots (fst (build_loop g width height spots)).
Proof.
  intros H0 H1 Hall. induction Hall as [|d rest [Hc Hr] _ [IHw IHf]]; simpl.
  - split; [reflexivity|constructor].
  - destruct (build_loop g width height rest) as [data warns].
    simpl in IHw, IHf.
    destruct (build_spot_center_in_frame g width height d H0 H1 Hc Hr)
      as (t & Hb & Hbox & Hrad & Hox & Hoy & _).
    rewrite Hb. simpl. split; [exact IHw|].
    constructor; [|exact IHf].
    split; [exact Hb|]. split; [exact Hox|]. split; [exact Hoy|].
    split; [exact Hrad|].
    unfold template_box in Hbox |- *. cbv beta iota zeta in Hbox |- *.
    tauto.
Qed.

(** X4: when every definition has its center inside the frame (and
    [radius + 4 >= 1]), no definition is skipped: the tracks are the
    definitions in order, and each template is the processed reference
    image over the box [x - half, x + half) x [y - half, y + half) clipped
    to the frame. *)
Theorem in_frame_definitions_all_tracked ref spots width height :
  shape0 (edge_image ref) = height -> shape1 (edge_image ref) = width ->
  Forall (fun d => center_in_frame width height d /\
                   1 <= spot_radius d + margin) spots ->
  snd (build_spot_templates ref spots width height) = [] /\
  Forall2
    (fun d t =>
       origin_cx t = spot_x d /\ origin_cy t = spot_y d /\
       radius t = spot_radius d /\
       let '(x1, y1, x2, y2) := template_box d width height in
       templ_w t = x2 - x1 /\ templ_h t = y2 - y1 /\
       forall i j,
         at2 (template t) i j = at2 (edge_image ref) (y1 + i) (x1 + j))
    spots (fst (build_spot_templates ref spots width height)).
Proof.
  intros H0 H1 Hall.
  destruct (build_loop_in_frame (edge_image ref) width height spots H0 H1
              Hall) as [Hw Hf].
  split; [exact Hw|].
  eapply Forall2_impl; [exact Hf|]. intros d t (_ & ? & ? & ? & Hbox).
  split; [assumption|]. split; [assumption|]. split; [assumption|].
  exact Hbox.
Qed.

(** X5: when every definition has an empty clipped box with non-negative
    upper corners (for instance every box lies right of or below the
    frame), all definitions are skipped, each with its warning, in order. *)
Theorem boxes_outside_frame_are_skipped ref spots width height :
  shape0 (edge_image ref) = height -> shape1 (edge_image ref) = width ->
  Forall (fun d =>
            let '(x1, y1, x2, y2) := template_box d width height in
            0 <= x2 /\ 0 <= y2 /\ (x2 <= x1 \/ y2 <= y1)) spots ->
  build_spot_templates ref spots width height =
    ([], map (fun d => MsgEmptyTemplate (spot_x d) (spot_y d)) spots).
Proof.
  intros H0 H1 Hall. unfold build_spot_templates. cbv zeta.
  fold (edge_image ref).
  induction Hall as [|d rest Hd _ IH]; simpl; [reflexivity|].
  rewrite IH, (build_spot_empty_box _ _ _ _ H0 H1 Hd). reflexivity.
Qed.

(** ** Accepted matches *)

(** X6: whenever a call changes the dict, the new center lies in the frame
    (the clamp), wherever the previous center was. *)
Theorem accepted_center_in_frame s g width height max_shift thr s' :
  1 <= width -> 1 <= height ->
  track_spot_on_frame s g width height max_shift thr = Some s' ->
  s' = s \/ in_frame width height s'.
Proof.
  intros Hw Hh E.
  destruct (track_spot_on_frame_inv s g width height max_shift thr)
    as [E'|[(mv & u & v & _ & _ & _ & _ & _ & E')|(E' & _)]];
    rewrite E' in E; try discriminate; injection E as <-; [by left|].
  right. unfold in_frame, clampx; simpl. lia.
Qed.

Lemma step_displacement_in_frame s g width height max_shift thr s' :
  match_in_range ->
  shape0 g = height -> shape1 g = width ->
  well_formed s -> in_frame width height s -> 0 <= max_shift ->
  track_spot_on_frame s g width height max_shift thr = Some s' ->
  Z.abs (last_cx s' - last_cx s) <= max_shift /\
  Z.abs (last_cy s' - last_cy s) <= max_shift.
Proof.
  intros Hrange H0 H1 (Ew & Eh & Hw1 & Hh1) [Hx Hy] Hms E.
  destruct (track_spot_on_frame_inv s g width height max_shift thr)
    as [E'|[(mv & u & v & _ & Hfh & Hfw & Eb & _ & E')|(E' & _)]];
    rewrite E' in E; try discriminate; injection E as <-; [lia|].
  destruct (Hrange (search_roi s g width height max_shift) (template s))
    as [Hu Hv]; [lia..|].
  rewrite Eb, <- Ew in Hu. rewrite Eb, <- Eh in Hv.
  cbn [fst snd] in Hu, Hv.
  revert Hfh Hfw Hu Hv. unfold search_roi, clip_box, search_box.
  cbv beta iota zeta. rewrite slice2_shape0, slice2_shape1, H0, H1.
  intros Hfh Hfw Hu Hv. unfold set_last. cbn [last_cx last_cy].
  assert (0 <= templ_w s / 2) by (apply Z.div_pos; lia).
  assert (0 <= templ_h s / 2) by (apply Z.div_pos; lia).
  split; apply axis_displacement; try assumption; lia.
Qed.

(** X7: for a track whose center is in the frame, with a matcher that
    reports a location inside its result, a call moves the center by at
    most [max_shift] in each axis. *)
Theorem displacement_bound_in_frame s g width height max_shift thr s' :
  match_in_range ->
  shape0 g = height -> shape1 g = width ->
  well_formed s -> in_frame width height s -> 0 <= max_shift ->
  track_spot_on_frame s g width height max_shift thr = Some s' ->
  Z.abs (last_cx s' - last_cx s) <= max_shift /\
  Z.abs (last_cy s' - last_cy s) <= max_shift.
Proof. apply step_displacement_in_frame. Qed.

Lemma track_seq_drift gs width height max_shift thr :
  match_in_range -> 0 <= max_shift ->
  Forall (fun g => shape0 g = height /\ shape1 g = width) gs ->
  forall s s',
  well_formed s -> in_frame width height s ->
  track_seq gs width height max_shift thr s = Some s' ->
  Z.abs (last_cx s' - last_cx s) <= Z.of_nat (length gs) * max_shift /\
  Z.abs (last_cy s' - last_cy s) <= Z.of_nat (length gs) * max_shift.
Proof.
  intros Hrange Hms Hgs. induction Hgs as [|g rest [H0 H1] _ IH];
    intros s s' Hwf Hin; simpl length.
  - intros [= <-]. lia.
  - simpl. destruct (track_spot_on_frame s g width height max_shift thr)
      as [s1|] eqn:E1; [|discriminate].
    intros Hrest.
    destruct (step_displacement_in_frame _ _ _ _ _ _ _ Hrange H0 H1 Hwf Hin
                Hms E1) as [Dx Dy].
    destruct (IH s1 s') as [Rx Ry]; [| |exact Hrest|].
    + eapply track_spot_on_frame_well_formed; eauto.
    + eapply track_spot_on_frame_in_frame; eauto.
    + lia.
Qed.

(** X8: total drift is bounded only by the number of frames.  With every
    definition's center in the frame and a matcher that reports a location
    inside its result, whenever the frame loop has processed [n] frames
    every track is within [n * max_shift] of its original center in each
    axis. *)
Theorem drift_bounded_by_frames ref spots args width height max_shift thr ir
    frames idx evs spots' :
  match_in_range -> 0 <= max_shift ->
  Forall (fun f => shape0 (edge_image f) = height /\
                   shape1 (edge_image f) = width) frames ->
  Forall (center_in_frame width height) spots ->
  process_loop args width height max_shift thr ir frames idx
    (fst (build_spot_templates ref spots width height))
    = (evs, Some spots') ->
  length spots' = length (fst (build_spot_templates ref spots width height))
  /\
  Forall (fun t =>
            Z.abs (last_cx t - origin_cx t)
              <= Z.of_nat (length frames) * max_shift /\
            Z.abs (last_cy t - origin_cy t)
              <= Z.of_nat (length frames) * max_shift) spots'.
Proof.
  intros Hrange Hms Hframes Hc Hrun.
  destruct (process_loop_spec _ _ _ _ _ _ _ _ _ _ _ Hrun) as [Hlen Hrec].
  split; [exact Hlen|].
  apply Forall_lookup. intros j t' Hj.
  destruct (fst (build_spot_templates ref spots width height) !! j)
    as [t|] eqn:Et.
  2:{ apply lookup_ge_None in Et. apply lookup_lt_Some in Hj. lia. }
  destruct (Hrec _ _ Et) as (t'' & Ht'' & Hseq).
  assert (t'' = t') as -> by congruence.
  destruct (build_spot_templates_lookup _ _ _ _ _ _ Et) as (d & Hd & Hb).
  apply build_spot_inr in Hb as (Hwf & _ & _ & Hox & Hoy & Hlx & Hly & _).
  rewrite <- list_elem_of_In in Hd.
  rewrite Forall_forall in Hc. specialize (Hc d Hd).
  assert (in_frame width height t) as Hin
    by (unfold in_frame, center_in_frame in *; by rewrite Hlx, Hly).
  assert (Forall (fun g => shape0 g = height /\ shape1 g = width)
            (map edge_image frames)) as Hgs
    by (apply Forall_fmap; exact Hframes).
  destruct (track_seq_drift _ _ _ _ _ Hrange Hms Hgs t t' Hwf Hin Hseq)
    as [Dx Dy].
  rewrite length_map in Dx, Dy.
  pose proof (track_seq_frame _ _ _ _ _ _ _ Hseq) as (cx & cy & E).
  assert (origin_cx t' = origin_cx t /\ origin_cy t' = origin_cy t)
    as [-> ->] by (rewrite E; split; reflexivity).
  rewrite Hox, Hoy, <- Hlx, <- Hly. split; assumption.
Qed.

(** ** Darkening *)

(** X9: with a factor of at most 1 darkening never brightens: every channel
    of the darkened frame is between 0 and the channel it replaces (for
    8-bit channels, float32 rounding being monotone and exact on the
    integers 0..255). *)
Theorem darkening_never_brightens darken mask out i j c :
  (forall a b : Q, (a <= b)%Q -> (f32 a <= f32 b)%Q) ->
  (forall n : Z, 0 <= n <= 255 -> (f32 (inject_Z n) == inject_Z n)%Q) ->
  (darken <= 1)%Q ->
  0 <= chan out i j c <= 255 ->
  0 <= chan (darken_masked darken mask out) i j c <= chan out i j c.
Proof.
  intros Hmono Hexact Hd Hv. unfold darken_masked. cbn [chan].
  destruct (at2 mask i j =? 255); [|lia].
  unfold darken_channel. rewrite Qfloor_clip.
  set (v := chan out i j c) in *.
  assert (Qfloor (f32 (inject_Z v * f32 darken)) <= v); [|lia].
  assert (f32 darken <= 1)%Q as Hd1.
  { eapply Qle_trans; [apply Hmono, Hd|].
    rewrite (Hexact 1 ltac:(lia)). apply Qle_refl. }
  assert (inject_Z v * f32 darken <= inject_Z v)%Q as Hprod.
  { rewrite <- (Qmult_1_r (inject_Z v)) at 2.
    rewrite !(Qmult_comm (inject_Z v)).
    apply Qmult_le_compat_r; [exact Hd1|].
    change 0%Q with (inject_Z 0). rewrite <- Zle_Qle. lia. }
  rewrite <- (Qfloor_Z v) at 2. apply Qfloor_resp_le.
  eapply Qle_trans; [apply Hmono, Hprod|].
  rewrite (Hexact v Hv). apply Qle_refl.
Qed.

(** ** Runs of the frame loop *)

Lemma lists_equal_by_lookup (l1 l2 : list SpotTrack)
    (F : SpotTrack -> option SpotTrack) (l0 : list SpotTrack) :
  length l1 = length l0 -> length l2 = length l0 ->
  (forall j s, l0 !! j = Some s ->
     exists s', l1 !! j = Some s' /\ F s = Some s') ->
  (forall j s, l0 !! j = Some s ->
     exists s', l2 !! j = Some s' /\ F s = Some s') ->
  l1 = l2.
Proof.
  intros H1 H2 R1 R2. apply list_eq. intros j.
  destruct (l0 !! j) as [s|] eqn:E0.
  - destruct (R1 _ _ E0) as (a & -> & Fa).
    destruct (R2 _ _ E0) as (b & -> & Fb). congruence.
  - apply lookup_ge_None in E0.
    rewrite !lookup_ge_None_2 by lia. reflexivity.
Qed.

(** X10: tracks are independent.  In a run over well-formed dicts, the dict
    at position [j] ends exactly as it ends in the run in which it is the
    only dict. *)
Theorem tracks_are_independent args width height max_shift thr ir frames idx
    spots j s :
  Forall well_formed spots ->
  spots !! j = Some s ->
  exists evs spots' evs1 s',
    process_loop args width height max_shift thr ir frames idx spots
      = (evs, Some spots') /\
    process_loop args width height max_shift thr ir frames idx [s]
      = (evs1, Some [s']) /\
    spots' !! j = Some s'.
Proof.
  intros Hwf Hj.
  destruct (process_loop_total args width height max_shift thr ir frames idx
              spots Hwf) as (evs & spots' & Hrun).
  assert (Forall well_formed [s]) as Hwf1.
  { constructor; [|constructor]. eapply Forall_lookup_1; eauto. }
  destruct (process_loop_total args width height max_shift thr ir frames idx
              [s] Hwf1) as (evs1 & one & Hrun1).
  destruct (process_loop_spec _ _ _ _ _ _ _ _ _ _ _ Hrun) as [_ Hrec].
  destruct (process_loop_spec _ _ _ _ _ _ _ _ _ _ _ Hrun1) as [Hlen1 Hrec1].
  destruct (Hrec _ _ Hj) as (s' & Hs' & Hseq).
  destruct (Hrec1 0%nat s eq_refl) as (s1 & Hs1 & Hseq1).
  assert (s1 = s') as -> by congruence.
  destruct one as [|a [|b one]]; simpl in Hlen1; try discriminate.
  injection Hs1 as ->.
  exists evs, spots', evs1, s'. auto.
Qed.

(** X11: tracking does not depend on the display options.  Two runs over the
    same frames with the same search parameters end with the same dicts,
    whatever [darken], the inpainting settings and [debug] are. *)
Theorem tracking_ignores_display_options args args' width height max_shift
    thr ir ir' frames idx idx' spots :
  Forall well_formed spots ->
  exists evs evs' spots',
    process_loop args width height max_shift thr ir frames idx spots
      = (evs, Some spots') /\
    process_loop args' width height max_shift thr ir' frames idx' spots
      = (evs', Some spots').
Proof.
  intros Hwf.
  destruct (process_loop_total args width height max_shift thr ir frames idx
              spots Hwf) as (evs & spots1 & Hrun1).
  destruct (process_loop_total args' width height max_shift thr ir' frames
              idx' spots Hwf) as (evs' & spots2 & Hrun2).
  destruct (process_loop_spec _ _ _ _ _ _ _ _ _ _ _ Hrun1) as [Hl1 Hr1].
  destruct (process_loop_spec _ _ _ _ _ _ _ _ _ _ _ Hrun2) as [Hl2 Hr2].
  assert (spots1 = spots2) as <-
    by (eapply lists_equal_by_lookup; eauto).
  eauto.
Qed.

Lemma written_frames_app evs1 evs2 :
  written_frames (evs1 ++ evs2) = written_frames evs1 ++ written_frames evs2.
Proof.
  induction evs1 as [|e rest IH]; simpl; [reflexivity|].
  destruct e; simpl; by rewrite IH.
Qed.

Lemma written_frames_stdout ms :
  written_frames (map Stdout ms) = [].
Proof. induction ms; simpl; auto. Qed.

Lemma process_loop_writes args width height max_shift thr ir frames :
  forall idx spots evs r,
  process_loop args width height max_shift thr ir frames idx spots
    = (evs, r) ->
  r <> None ->
  length (written_frames evs) = length frames.
Proof.
  induction frames as [|f rest IH]; intros idx spots evs r; simpl.
  - by intros [= <- <-] _.
  - destruct (process_frame args width height max_shift thr ir f spots)
      as [[[spots1 out] active]|] eqn:Ef.
    + destruct (process_loop _ _ _ _ _ _ rest _ spots1) as [evs1 r1] eqn:El.
      intros [= <- <-] Hr. simpl.
      assert (written_frames
                ((if (idx + 1) mod 100 =? 0
                  then [Stdout (MsgProgress (idx + 1) active)] else [])
                 ++ evs1) = written_frames evs1) as ->
        by (destruct (_ =? 0); reflexivity).
      f_equal. eapply IH; eauto.
    + intros [= <- <-] Hr. congruence.
Qed.

(** The frame written at position [k] is what [process_frame] returns for
    the frame read at position [k] on the dicts as the first [k] frames
    have left them. *)
Lemma process_loop_prefix args width height max_shift thr ir frames :
  forall idx spots evs spots',
  process_loop args width height max_shift thr ir frames idx spots
    = (evs, Some spots') ->
  forall k f, frames !! k = Some f ->
    exists evs_k spots_k spots_k' out active,
      process_loop args width height max_shift thr ir (take k frames) idx
        spots = (evs_k, Some spots_k) /\
      process_frame args width height max_shift thr ir f spots_k
        = Some (spots_k', out, active) /\
      written_frames evs !! k = Some out.
Proof.
  induction frames as [|f0 rest IH]; intros idx spots evs spots' Hrun k f Hk.
  - by rewrite lookup_nil in Hk.
  - simpl in Hrun.
    destruct (process_frame args width height max_shift thr ir f0 spots)
      as [[[spots1 out0] active0]|] eqn:Ef; [|discriminate].
    destruct (process_loop _ _ _ _ _ _ rest _ spots1) as [evs1 r1] eqn:El.
    injection Hrun as <- ->. simpl.
    assert (written_frames
              ((if (idx + 1) mod 100 =? 0
                then [Stdout (MsgProgress (idx + 1) active0)] else [])
               ++ evs1) = written_frames evs1) as ->
      by (destruct (_ =? 0); reflexivity).
    destruct k as [|k]; simpl in Hk.
    + injection Hk as <-. exists [], spots, spots1, out0, active0.
      split; [reflexivity|]. split; [exact Ef|reflexivity].
    + destruct (IH _ _ _ _ El k f Hk)
        as (evs_k & spots_k & spots_k' & out & active & Hpre & Hf & Hw).
      eexists. exists spots_k, spots_k', out, active.
      split; [|split; [exact Hf|exact Hw]].
      simpl. rewrite Ef, Hpre. reflexivity.
Qed.

Lemma process_frame_drawable args width height max_shift thr ir f spots
    spots' out active :
  cv_size width height -> Forall drawable spots ->
  process_frame args width height max_shift thr ir f spots
    = Some (spots', out, active) ->
  Forall drawable spots'.
Proof.
  intros Hsz Hdr Hf.
  destruct (process_frame_spec _ _ _ _ _ _ _ _ _ _ _ Hf) as [Hlen Hrec].
  apply Forall_lookup. intros j t' Hj.
  destruct (spots !! j) as [t|] eqn:Et.
  - destruct (Hrec _ _ Et) as (t'' & Ht'' & Hstep).
    assert (t'' = t') as -> by congruence.
    eapply track_spot_on_frame_drawable; [exact Hsz| |exact Hstep].
    eapply Forall_lookup_1; eauto.
  - apply lookup_ge_None in Et. apply lookup_lt_Some in Hj. lia.
Qed.

Lemma process_loop_drawable args width height max_shift thr ir frames idx
    spots evs spots' :
  cv_size width height -> Forall drawable spots ->
  process_loop args width height max_shift thr ir frames idx spots
    = (evs, Some spots') ->
  Forall drawable spots'.
Proof.
  intros Hsz Hdr Hrun.
  destruct (process_loop_spec _ _ _ _ _ _ _ _ _ _ _ Hrun) as [Hlen Hrec].
  apply Forall_lookup. intros j t' Hj.
  destruct (spots !! j) as [t|] eqn:Et.
  - destruct (Hrec _ _ Et) as (t'' & Ht'' & Hseq).
    assert (t'' = t') as -> by congruence.
    eapply track_seq_drawable; [exact Hsz| |exact Hseq].
    eapply Forall_lookup_1; eauto.
  - apply lookup_ge_None in Et. apply lookup_lt_Some in Hj. lia.
Qed.

(** X12: over frames of the capture's resolution and well-formed dicts
    whose circles [cv2.circle] accepts, the frame loop runs to the end and
    writes exactly one frame per frame read, in the order read: the frame
    written at position [k] is the output of the loop body for the frame
    read at position [k], on the dicts as the first [k] frames have left
    them, and the circles that iteration draws are accepted ones. *)
Theorem frame_loop_writes_every_frame args width height max_shift thr ir
    frames idx spots :
  cv_size width height -> Forall (sized width height) frames ->
  Forall well_formed spots -> Forall drawable spots ->
  exists evs spots',
    process_loop args width height max_shift thr ir frames idx spots
      = (evs, Some spots') /\
    length (written_frames evs) = length frames /\
    forall k f, frames !! k = Some f ->
      exists evs_k spots_k spots_k' out active,
        process_loop args width height max_shift thr ir (take k frames) idx
          spots = (evs_k, Some spots_k) /\
        process_frame args width height max_shift thr ir f spots_k
          = Some (spots_k', out, active) /\
        Forall drawable spots_k' /\
        written_frames evs !! k = Some out.
Proof.
  intros Hsz _ Hwf Hdr.
  destruct (process_loop_total args width height max_shift thr ir frames idx
              spots Hwf) as (evs & spots' & Hrun).
  exists evs, spots'. split; [exact Hrun|]. split.
  - eapply process_loop_writes; [exact Hrun|discriminate].
  - intros k f Hk.
    destruct (process_loop_prefix _ _ _ _ _ _ _ _ _ _ _ Hrun k f Hk)
      as (evs_k & spots_k & spots_k' & out & active & Hpre & Hf & Hw).
    exists evs_k, spots_k, spots_k', out, active.
    split; [exact Hpre|]. split; [exact Hf|]. split; [|exact Hw].
    eapply process_frame_drawable; [exact Hsz| |exact Hf].
    eapply process_loop_drawable; [exact Hsz|exact Hdr|exact Hpre].
Qed.

(** ** [main] as a whole *)

Lemma filter_none {A} (p : A -> bool) (l : list A) :
  Forall (fun e => p e = false) l -> length (List.filter p l) = 0%nat.
Proof.
  induction l as [|e l IH]; simpl; [reflexivity|].
  intros Hp. apply Forall_cons in Hp as [He Hl]. rewrite He. by apply IH.
Qed.

(** The shape of a run that reaches the frame loop. *)
Lemma main_with_tracks args data cap ref_frame :
  isOpened cap = true ->
  CAP_PROP_FRAME_WIDTH cap = frame_width data ->
  CAP_PROP_FRAME_HEIGHT cap = frame_height data ->
  read_at cap (frame_index data) = Some ref_frame ->
  fst (build_spot_templates ref_frame (json_spots data)
         (CAP_PROP_FRAME_WIDTH cap) (CAP_PROP_FRAME_HEIGHT cap)) <> [] ->
  exists loop_evs spots',
    process_loop args (CAP_PROP_FRAME_WIDTH cap) (CAP_PROP_FRAME_HEIGHT cap)
      (Z.max 1 (arg_max_shift args))
      (Qmax 0 (Qmin 1 (arg_match_threshold args)))
      (arg_inpaint_radius args) (frames_from_start cap) 0
      (fst (build_spot_templates ref_frame (json_spots data)
              (CAP_PROP_FRAME_WIDTH cap) (CAP_PROP_FRAME_HEIGHT cap)))
      = (loop_evs, Some spots') /\
    main args data cap =
      (map Stdout
         (snd (build_spot_templates ref_frame (json_spots data)
                 (CAP_PROP_FRAME_WIDTH cap) (CAP_PROP_FRAME_HEIGHT cap)))
       ++ WriterOpen
            (if String.eqb (arg_output args) EmptyString
             then String.append (splitext_base (arg_video args)) "_clean.mp4"
             else arg_output args)
            (CAP_PROP_FPS cap) (CAP_PROP_FRAME_WIDTH cap)
            (CAP_PROP_FRAME_HEIGHT cap)
          :: loop_evs
       ++ [Stdout
             (MsgDone
                (if String.eqb (arg_output args) EmptyString
                 then String.append (splitext_base (arg_video args))
                        "_clean.mp4"
                 else arg_output args));
           CapRelease; WriterRelease], Returned).
Proof.
  intros Hopen Hw Hh Hread Hsome.
  destruct (process_loop_total args (CAP_PROP_FRAME_WIDTH cap)
              (CAP_PROP_FRAME_HEIGHT cap) (Z.max 1 (arg_max_shift args))
              (Qmax 0 (Qmin 1 (arg_match_threshold args)))
              (arg_inpaint_radius args) (frames_from_start cap) 0 _
              (build_spot_templates_well_formed ref_frame (json_spots data)
                 (CAP_PROP_FRAME_WIDTH cap) (CAP_PROP_FRAME_HEIGHT cap)))
    as (loop_evs & spots' & Hrun).
  exists loop_evs, spots'. split; [exact Hrun|].
  unfold main. cbv zeta. rewrite Hopen. cbn [negb].
  rewrite <- Hw, <- Hh, !Z.eqb_refl. cbn [negb orb]. rewrite Hread.
  destruct (build_spot_templates ref_frame (json_spots data)
              (CAP_PROP_FRAME_WIDTH cap) (CAP_PROP_FRAME_HEIGHT cap))
    as [tracks warnings] eqn:Eb.
  cbn [fst snd] in *. destruct tracks as [|t tracks]; [done|].
  rewrite Hrun. by rewrite <- app_assoc.
Qed.

Lemma process_frame_args_ext args args' width height max_shift thr ir f
    spots :
  arg_debug args = arg_debug args' ->
  arg_darken args = arg_darken args' ->
  arg_inpaint_method args = arg_inpaint_method args' ->
  process_frame args width height max_shift thr ir f spots
    = process_frame args' width height max_shift thr ir f spots.
Proof.
  intros Hd Hk Hm. unfold process_frame, spot_pass, composite.
  by rewrite Hd, Hk, Hm.
Qed.

Lemma process_loop_args_ext args args' width height max_shift thr ir frames :
  arg_debug args = arg_debug args' ->
  arg_darken args = arg_darken args' ->
  arg_inpaint_method args = arg_inpaint_method args' ->
  forall idx spots,
  process_loop args width height max_shift thr ir frames idx spots
    = process_loop args' width height max_shift thr ir frames idx spots.
Proof.
  intros Hd Hk Hm. induction frames as [|f rest IH]; intros idx spots;
    simpl; [reflexivity|].
  rewrite (process_frame_args_ext args args') by assumption.
  destruct (process_frame args' _ _ _ _ _ f spots)
    as [[[spots1 out] active]|]; [|reflexivity].
  by rewrite IH.
Qed.

Lemma clamp_threshold_idempotent t :
  Qmax 0 (Qmin 1 (Qmax 0 (Qmin 1 t))) = Qmax 0 (Qmin 1 t).
Proof.
  unfold Qmax, Qmin.
  destruct (Qlt_bool t 1) eqn:E1.
  - destruct (Qlt_bool 0 t) eqn:E2.
    + by rewrite E1, E2.
    + reflexivity.
  - reflexivity.
Qed.

Lemma clamp_threshold_range t :
  (0 <= Qmax 0 (Qmin 1 t) <= 1)%Q.
Proof.
  unfold Qmax, Qmin.
  destruct (Qlt_bool t 1) eqn:E1.
  - destruct (Qlt_bool 0 t) eqn:E2.
    + apply Qlt_bool_true in E1, E2. split; by apply Qlt_le_weak.
    + split; [apply Qle_refl|discriminate].
  - split; discriminate.
Qed.

(** X13: [main] coerces the search parameters: a run with any --max-shift
    and --match-threshold is the run with [max(1, max_shift)] and the
    threshold clamped into [0, 1]; so a max-shift below 1 acts as 1 and a
    threshold outside [0, 1] as the nearer bound. *)
Theorem main_coerces_search_parameters args data cap :
  main args data cap = main (coerce_args args) data cap /\
  1 <= arg_max_shift (coerce_args args) /\
  (0 <= arg_match_threshold (coerce_args args) <= 1)%Q.
Proof.
  split; [|split; [simpl; lia|apply clamp_threshold_range]].
  unfold main. cbv zeta. cbn [coerce_args arg_video arg_output
    arg_max_shift arg_match_threshold arg_inpaint_radius].
  rewrite clamp_threshold_idempotent.
  replace (Z.max 1 (Z.max 1 (arg_max_shift args)))
    with (Z.max 1 (arg_max_shift args)) by lia.
  destruct (isOpened cap); cbn [negb]; [|reflexivity].
  destruct (negb _ || negb _); [reflexivity|].
  destruct (read_at cap (frame_index data)) as [ref_frame|]; [|reflexivity].
  destruct (build_spot_templates ref_frame (json_spots data)
              (CAP_PROP_FRAME_WIDTH cap) (CAP_PROP_FRAME_HEIGHT cap))
    as [tracks warnings].
  destruct tracks as [|t tracks]; [reflexivity|].
  by rewrite (process_loop_args_ext args (coerce_args args)).
Qed.

Lemma track_seq_total gs width height max_shift thr : forall s,
  well_formed s ->
  exists s', track_seq gs width height max_shift thr s = Some s' /\
             well_formed s'.
Proof.
  induction gs as [|g rest IH]; intros s Hwf; simpl; [eauto|].
  destruct (track_spot_on_frame_total s g width height max_shift thr Hwf)
    as [s1 E1].
  rewrite E1. apply IH. eapply track_spot_on_frame_well_formed; eauto.
Qed.

(** X14: the guarded call of [cv2.matchTemplate] cannot fail on the dicts
    [build_spot_templates] makes: their templates are not empty and have
    the recorded shape, the tracker keeps them so, and a call either holds
    because the sliced region is smaller than the template or hands the
    matcher a template that fits.  So over any sequence of processed
    images, with any frame size, search radius and threshold, the
    successive tracker calls on such a dict all return. *)
Theorem built_tracks_never_fail_matching ref spots width height :
  Forall (fun t =>
            forall gs w h max_shift thr,
              exists t',
                track_seq gs w h max_shift thr t = Some t' /\
                well_formed t')
    (fst (build_spot_templates ref spots width height)).
Proof.
  eapply Forall_impl; [apply build_spot_templates_well_formed|].
  intros t Hwf gs w h max_shift thr. by apply track_seq_total.
Qed.

(** X15: once the spot file is loaded, a run that builds at least one
    track - on a capture that delivers frames of the resolution it reports
    and a spot file whose circles [cv2.circle] accepts - opens the writer
    once, writes exactly one frame per frame the capture delivers, then
    prints the final line and releases the capture and the writer, in that
    order. *)
Theorem main_complete_run args data cap ref_frame :
  isOpened cap = true ->
  CAP_PROP_FRAME_WIDTH cap = frame_width data ->
  CAP_PROP_FRAME_HEIGHT cap = frame_height data ->
  read_at cap (frame_index data) = Some ref_frame ->
  fst (build_spot_templates ref_frame (json_spots data)
         (CAP_PROP_FRAME_WIDTH cap) (CAP_PROP_FRAME_HEIGHT cap)) <> [] ->
  cv_size (CAP_PROP_FRAME_WIDTH cap) (CAP_PROP_FRAME_HEIGHT cap) ->
  Forall (sized (CAP_PROP_FRAME_WIDTH cap) (CAP_PROP_FRAME_HEIGHT cap))
    (frames_from_start cap) ->
  Forall drawable_def (json_spots data) ->
  exists path loop_evs,
    main args data cap =
      (map Stdout
         (snd (build_spot_templates ref_frame (json_spots data)
                 (CAP_PROP_FRAME_WIDTH cap) (CAP_PROP_FRAME_HEIGHT cap)))
       ++ WriterOpen path (CAP_PROP_FPS cap) (CAP_PROP_FRAME_WIDTH cap)
            (CAP_PROP_FRAME_HEIGHT cap)
          :: loop_evs
       ++ [Stdout (MsgDone path); CapRelease; WriterRelease], Returned) /\
    length (written_frames (fst (main args data cap)))
      = length (frames_from_start cap) /\
    length (List.filter is_writer_open loop_evs) = 0%nat /\
    length (List.filter is_cap_release loop_evs) = 0%nat /\
    length (List.filter is_writer_release loop_evs) = 0%nat.
Proof.
  intros Hopen Hw Hh Hread Hsome _ _ _.
  destruct (main_with_tracks args data cap ref_frame Hopen Hw Hh Hread Hsome)
    as (loop_evs & spots' & Hrun & Hmain).
  eexists. exists loop_evs. split; [exact Hmain|].
  pose proof (process_loop_writes _ _ _ _ _ _ _ _ _ _ _ Hrun
                ltac:(discriminate)) as Hwr.
  assert (forall frames idx spots evs r,
    process_loop args (CAP_PROP_FRAME_WIDTH cap) (CAP_PROP_FRAME_HEIGHT cap)
      (Z.max 1 (arg_max_shift args))
      (Qmax 0 (Qmin 1 (arg_match_threshold args)))
      (arg_inpaint_radius args) frames idx spots = (evs, r) ->
    Forall (fun e => is_writer_open e = false /\ is_cap_release e = false
                     /\ is_writer_release e = false) evs) as Hev.
  { induction frames as [|f rest IH]; intros idx spots evs r; simpl.
    - intros [= <- <-]. constructor.
    - destruct (process_frame _ _ _ _ _ _ f spots)
        as [[[spots1 out] active]|]; [|intros [= <- <-]; constructor].
      destruct (process_loop _ _ _ _ _ _ rest _ spots1) as [evs1 r1] eqn:El.
      intros [= <- <-]. constructor; [auto|].
      apply Forall_app. split; [|eapply IH; eauto].
      destruct (_ =? 0); repeat constructor. }
  specialize (Hev _ _ _ _ _ Hrun).
  pose proof (filter_none (A:=event)) as Hnone.
  split.
  - rewrite Hmain. cbn [fst].
    rewrite written_frames_app, written_frames_stdout. simpl.
    rewrite written_frames_app. simpl. rewrite app_nil_r. lia.
  - repeat split; apply Hnone; eapply Forall_impl; eauto; simpl; tauto.
Qed.

(** The two kinds of run: the four checks pass and the writer is opened,
    or one of them fails and no event touches the output. *)
Lemma main_writer_cases args data cap :
  ((isOpened cap = true /\
    CAP_PROP_FRAME_WIDTH cap = frame_width data /\
    CAP_PROP_FRAME_HEIGHT cap = frame_height data /\
    exists ref_frame,
      read_at cap (frame_index data) = Some ref_frame /\
      fst (build_spot_templates ref_frame (json_spots data)
             (CAP_PROP_FRAME_WIDTH cap) (CAP_PROP_FRAME_HEIGHT cap)) <> [])
   /\ exists e, e ∈ fst (main args data cap) /\ is_writer_open e = true) \/
  (~ (isOpened cap = true /\
      CAP_PROP_FRAME_WIDTH cap = frame_width data /\
      CAP_PROP_FRAME_HEIGHT cap = frame_height data /\
      exists ref_frame,
        read_at cap (frame_index data) = Some ref_frame /\
        fst (build_spot_templates ref_frame (json_spots data)
               (CAP_PROP_FRAME_WIDTH cap) (CAP_PROP_FRAME_HEIGHT cap)) <> [])
   /\ Forall no_writer_event (fst (main args data cap))).
Proof.
  unfold main. cbv zeta.
  destruct (isOpened cap); cbn [negb].
  2:{ right. split; [intros (? & _); discriminate|repeat constructor]. }
  destruct (Z.eqb_spec (CAP_PROP_FRAME_WIDTH cap) (frame_width data))
    as [Ew|Ew]; cbn [negb orb].
  2:{ right. split; [intros (_ & ? & _); done|repeat constructor]. }
  destruct (Z.eqb_spec (CAP_PROP_FRAME_HEIGHT cap) (frame_height data))
    as [Eh|Eh]; cbn [negb].
  2:{ right. split; [intros (_ & _ & ? & _); done|repeat constructor]. }
  destruct (read_at cap (frame_index data)) as [ref_frame|].
  2:{ right. split; [intros (_ & _ & _ & ? & ? & _); discriminate|].
      repeat constructor. }
  destruct (build_spot_templates ref_frame (json_spots data)
              (CAP_PROP_FRAME_WIDTH cap) (CAP_PROP_FRAME_HEIGHT cap))
    as [tracks warnings] eqn:Eb.
  destruct tracks as [|t tracks].
  - right. split.
    + intros (_ & _ & _ & rf & [= <-] & Hne). rewrite Eb in Hne. done.
    + cbn [fst]. apply Forall_app. split; [|repeat constructor].
      apply Forall_forall. intros e He.
      apply list_elem_of_fmap in He as (m & -> & _). exact I.
  - left. split.
    + repeat split; try assumption.
      exists ref_frame. split; [reflexivity|]. rewrite Eb. discriminate.
    + destruct (process_loop _ _ _ _ _ _ _ _ _) as [loop_evs r].
      eexists. split.
      * destruct r; cbn [fst].
        -- apply elem_of_app. left. apply elem_of_app. right. left.
        -- apply elem_of_app. right. left.
      * reflexivity.
Qed.

(** X16: the writer is opened exactly when the stream is open, the resolution
    matches the spot file, the reference frame can be read and at least one
    template is built; on every other path no event of [main] touches the
    output: nothing is opened, written or released on the writer. *)
Theorem main_opens_writer_iff args data cap :
  ((exists e, e ∈ fst (main args data cap) /\ is_writer_open e = true) <->
   (isOpened cap = true /\
    CAP_PROP_FRAME_WIDTH cap = frame_width data /\
    CAP_PROP_FRAME_HEIGHT cap = frame_height data /\
    exists ref_frame,
      read_at cap (frame_index data) = Some ref_frame /\
      fst (build_spot_templates ref_frame (json_spots data)
             (CAP_PROP_FRAME_WIDTH cap) (CAP_PROP_FRAME_HEIGHT cap)) <> []))
  /\
  ((~ exists e, e ∈ fst (main args data cap) /\ is_writer_open e = true) ->
   Forall no_writer_event (fst (main args data cap))).
Proof.
  destruct (main_writer_cases args data cap) as [[Hc He]|[Hc Hn]].
  - split; [tauto|]. intros Hno. by destruct Hno.
  - split; [|intros _; exact Hn]. split; [|tauto].
    intros (e & He & Hopen). exfalso.
    rewrite Forall_forall in Hn. specialize (Hn e He).
    destruct e; simpl in Hopen, Hn; done.
Qed.

End PipelineExtras.

(** * Properties of the marking tool *)

Section MarkSpotsProperties.
Local Abbreviation blur_spots_main := main (only parsing).
Import MarkSpots.
Context `{cv : OpenCV}.

Lemma ui_loop_radius inputs : forall st msgs st',
  ui_loop inputs st = Some (msgs, st') ->
  3 <= current_radius st <= 200 ->
  Forall valid_radius (spots st) ->
  3 <= current_radius st' <= 200 /\ Forall valid_radius (spots st').
Proof.
  induction inputs as [|i rest IH]; intros st msgs st'; simpl;
    [discriminate|].
  destruct i as [event x y|ret].
  - intros Hrun Hr Hs. apply (IH _ _ _ Hrun); unfold mouse_callback.
    + destruct (event =? EVENT_MOUSEMOVE); [exact Hr|].
      destruct (event =? EVENT_LBUTTONDOWN); exact Hr.
    + destruct (event =? EVENT_MOUSEMOVE); [exact Hs|].
      destruct (event =? EVENT_LBUTTONDOWN); [|exact Hs].
      simpl. apply Forall_app. split; [exact Hs|].
      constructor; [exact Hr|constructor].
  - destruct (_ || _).
    { intros [= _ <-] Hr Hs. simpl. split; [exact Hr|constructor]. }
    destruct (_ =? key_s).
    { intros [= _ <-] Hr Hs. split; assumption. }
    destruct (_ || _).
    { intros Hrun Hr Hs. apply (IH _ _ _ Hrun); simpl; [|exact Hs].
      destruct (Z.gtb_spec (current_radius st + 2) 200); lia. }
    destruct (_ || _).
    { intros Hrun Hr Hs. apply (IH _ _ _ Hrun); simpl; [|exact Hs].
      destruct (Z.ltb_spec (current_radius st - 2) 3); lia. }
    intros Hrun Hr Hs. by apply (IH _ _ _ Hrun).
Qed.

(** How the loop can end: with q or ESC and no spots, or with s and the
    spots collected so far. *)
Lemma ui_loop_exit inputs : forall st msgs st',
  ui_loop inputs st = Some (msgs, st') ->
  (msgs = [MkExiting] /\ spots st' = []) \/ msgs = [MkSaving].
Proof.
  induction inputs as [|i rest IH]; intros st msgs st'; simpl;
    [discriminate|].
  destruct i as [event x y|ret]; [apply IH|].
  destruct (_ || _); [intros [= <- <-]; by left|].
  destruct (_ =? key_s); [intros [= <- <-]; by right|].
  destruct (_ || _); [apply IH|].
  destruct (_ || _); apply IH.
Qed.

Lemma saved_spots_valid video idx out cap inputs r path j :
  main video idx out cap inputs = Some r ->
  mk_file r = Some (path, j) ->
  js_spots j <> [] /\
  Forall valid_radius (js_spots j) /\
  js_frame_index j = idx /\ js_video_path j = video /\
  exists f, read_at cap idx = Some f /\
            js_frame_width j = fcols f /\ js_frame_height j = frows f.
Proof.
  unfold main.
  destruct (isOpened cap); cbn [negb]; [|by intros [= <-]].
  destruct (read_at cap idx) as [f|]; [|by intros [= <-]].
  cbv zeta.
  destruct (ui_loop inputs _) as [[msgs st]|] eqn:El; [|discriminate].
  destruct (ui_loop_radius _ _ _ _ El) as [_ Hs];
    [simpl; lia|constructor|].
  destruct (spots st) as [|d ds] eqn:Es; [by intros [= <-]|].
  intros [= <-]. cbn [mk_file]. intros [= <- <-]. cbn.
  split; [discriminate|]. split; [exact Hs|].
  split; [reflexivity|]. split; [reflexivity|]. exists f. auto.
Qed.

(** X17: whatever is clicked and typed, a written spot file holds at least
    one spot, every spot in it has a radius between 3 and 200, and its
    width, height and frame index are those of the frame shown. *)
Theorem saved_spots_have_valid_radius video idx out cap inputs r path j :
  main video idx out cap inputs = Some r ->
  mk_file r = Some (path, j) ->
  js_spots j <> [] /\
  Forall valid_radius (js_spots j) /\
  js_frame_index j = idx /\ js_video_path j = video /\
  exists f, read_at cap idx = Some f /\
            js_frame_width j = fcols f /\ js_frame_height j = frows f.
Proof. apply saved_spots_valid. Qed.

(** X18: ending with q or ESC writes no file, whatever was clicked before;
    the tool prints that it exits and that no spots were saved. *)
Theorem quitting_saves_nothing video idx out cap inputs r :
  main video idx out cap inputs = Some r ->
  MkExiting ∈ mk_out r ->
  mk_file r = None /\ mk_out r = [MkExiting; MkNoSpots].
Proof.
  unfold main.
  destruct (isOpened cap); cbn [negb].
  2:{ intros [= <-] Hin. apply list_elem_of_singleton in Hin. discriminate. }
  destruct (read_at cap idx) as [f|].
  2:{ intros [= <-] Hin. apply list_elem_of_singleton in Hin. discriminate. }
  cbv zeta.
  destruct (ui_loop inputs _) as [[msgs st]|] eqn:El; [|discriminate].
  destruct (ui_loop_exit _ _ _ _ El) as [[-> Hs]| ->].
  - rewrite Hs. intros [= <-] _. split; reflexivity.
  - destruct (spots st); intros [= <-] Hin; exfalso;
      repeat (apply elem_of_cons in Hin as [Hin|Hin]; [discriminate|]);
      by apply not_elem_of_nil in Hin.
Qed.

Lemma ui_loop_relevant inputs : forall st1 st2,
  spots st1 = spots st2 -> current_radius st1 = current_radius st2 ->
  saved_view (ui_loop inputs st1)
    = saved_view (ui_loop (List.filter relevant inputs) st2).
Proof.
  induction inputs as [|i rest IH]; intros st1 st2 Hs Hr; simpl;
    [reflexivity|].
  destruct i as [event x y|ret]; simpl.
  - unfold mouse_callback at 1.
    destruct (event =? EVENT_MOUSEMOVE) eqn:Em; simpl; [by apply IH|].
    destruct (event =? EVENT_LBUTTONDOWN) eqn:Ec; simpl; [|by apply IH].
    apply IH; unfold mouse_callback; rewrite ?Em, ?Ec; simpl;
      rewrite ?Hs, ?Hr; reflexivity.
  - destruct (Z.land ret 255 =? key_q) eqn:Eq; simpl.
    { rewrite Eq. simpl. by rewrite Hr. }
    destruct (Z.land ret 255 =? key_esc) eqn:Ee; simpl.
    { rewrite Eq, Ee. simpl. by rewrite Hr. }
    destruct (Z.land ret 255 =? key_s) eqn:Es; simpl.
    { rewrite Eq, Ee, Es. simpl. by rewrite Hs, Hr. }
    destruct (Z.land ret 255 =? key_plus) eqn:Ep; simpl.
    { rewrite Eq, Ee, Es, Ep. simpl.
      apply IH; simpl; rewrite ?Hs, ?Hr; reflexivity. }
    destruct (Z.land ret 255 =? key_equal) eqn:Eeq; simpl.
    { rewrite Eq, Ee, Es, Ep, Eeq. simpl.
      apply IH; simpl; rewrite ?Hs, ?Hr; reflexivity. }
    destruct (Z.land ret 255 =? key_minus) eqn:Emi; simpl.
    { rewrite Eq, Ee, Es, Ep, Eeq, Emi. simpl.
      apply IH; simpl; rewrite ?Hs, ?Hr; reflexivity. }
    destruct (Z.land ret 255 =? key_underscore) eqn:Eu; simpl.
    { rewrite Eq, Ee, Es, Ep, Eeq, Emi, Eu. simpl.
      apply IH; simpl; rewrite ?Hs, ?Hr; reflexivity. }
    by apply IH.
Qed.

(** X19: only clicks and the handled keys (q, ESC, s, +, =, -, _) matter:
    dropping every mouse move, every other mouse event and every other key
    (or "no key") from the inputs changes neither the output nor the
    file. *)
Theorem only_clicks_and_handled_keys_matter video idx out cap inputs :
  main video idx out cap inputs
    = main video idx out cap (List.filter relevant inputs).
Proof.
  unfold main.
  destruct (isOpened cap); cbn [negb]; [|reflexivity].
  destruct (read_at cap idx) as [f|]; [|reflexivity].
  cbv zeta.
  pose proof (ui_loop_relevant inputs
                (mk_ui [] 25 (fcols f / 2) (frows f / 2))
                (mk_ui [] 25 (fcols f / 2) (frows f / 2))
                eq_refl eq_refl) as Hv.
  destruct (ui_loop inputs _) as [[m1 s1]|],
           (ui_loop (List.filter relevant inputs) _) as [[m2 s2]|];
    simpl in Hv; try discriminate; [|reflexivity].
  injection Hv as -> Hs _. rewrite Hs. reflexivity.
Qed.

(** X20: only the low 8 bits of the value [waitKey] returns are looked at:
    a key code with higher bits set acts as the plain key. *)
Theorem key_codes_are_masked ret k rest st :
  ui_loop (WaitKey (ret + 256 * k) :: rest) st
    = ui_loop (WaitKey ret :: rest) st.
Proof.
  simpl.
  assert (Z.land (ret + 256 * k) 255 = Z.land ret 255) as ->;
    [|reflexivity].
  change 255 with (Z.ones 8). rewrite !Z.land_ones by lia.
  change (2 ^ 8) with 256. rewrite Z.mul_comm. apply Z_mod_plus_full.
Qed.

(** X21: marking feeds tracking.  If the tool wrote a spot file for a frame
    and every saved center lies inside that frame, blur_spots.py run on the
    same video with that file skips no spot: it builds one track per saved
    spot, prints no warning and opens the output. *)
Theorem marked_spots_are_all_tracked video idx out cap inputs r path j f
    args :
  main video idx out cap inputs = Some r ->
  mk_file r = Some (path, j) ->
  read_at cap idx = Some f ->
  CAP_PROP_FRAME_WIDTH cap = fcols f ->
  CAP_PROP_FRAME_HEIGHT cap = frows f ->
  shape0 (edge_image f) = frows f -> shape1 (edge_image f) = fcols f ->
  Forall (center_in_frame (fcols f) (frows f)) (js_spots j) ->
  snd (build_spot_templates f (js_spots j) (fcols f) (frows f)) = [] /\
  length (fst (build_spot_templates f (js_spots j) (fcols f) (frows f)))
    = length (js_spots j) /\
  exists e, e ∈ fst (blur_spots_main args (load_spots_file j) cap) /\
            is_writer_open e = true.
Proof.
  intros Hmain Hfile Hread Hw Hh H0 H1 Hc.
  assert (isOpened cap = true) as Hopen.
  { revert Hmain Hfile. unfold main.
    destruct (isOpened cap); [reflexivity|].
    cbn [negb]. intros [= <-]. discriminate. }
  destruct (saved_spots_valid _ _ _ _ _ _ _ _ Hmain Hfile)
    as (Hne & Hrad & Hidx & _ & f' & Hread' & Hjw & Hjh).
  assert (f' = f) as -> by congruence.
  assert (Forall (fun d => center_in_frame (fcols f) (frows f) d /\
                           1 <= spot_radius d + margin) (js_spots j))
    as Hall.
  { apply Forall_and. split; [exact Hc|].
    eapply Forall_impl; [exact Hrad|].
    intros d [? ?]. unfold margin. lia. }
  destruct (build_loop_in_frame (edge_image f) (fcols f) (frows f)
              (js_spots j) H0 H1 Hall) as [Hwarn Hf].
  split; [exact Hwarn|].
  assert (length (fst (build_spot_templates f (js_spots j) (fcols f)
                         (frows f))) = length (js_spots j)) as Hlen.
  { symmetry. eapply Forall2_length. exact Hf. }
  split; [exact Hlen|].
  destruct (main_with_tracks args (load_spots_file j) cap f)
    as (loop_evs & spots' & _ & ->).
  - exact Hopen.
  - simpl. congruence.
  - simpl. congruence.
  - simpl. congruence.
  - simpl. rewrite Hw, Hh. intros E. rewrite E in Hlen. simpl in Hlen.
    destruct (js_spots j); [by apply Hne|discriminate].
  - eexists. split.
    + cbn [fst]. apply elem_of_app. right. left.
    + reflexivity.
Qed.

End MarkSpotsProperties.

(** * Properties of the offset helpers *)

Section ToolboxProperties.
Import Toolbox.

Lemma string_length_append s1 s2 :
  String.length (String.append s1 s2)
    = (String.length s1 + String.length s2)%nat.
Proof. induction s1 as [|c s1 IH]; simpl; [reflexivity|by rewrite IH]. Qed.

Lemma pad2_length n : 0 <= n < 100 -> String.length (pad2 n) = 2%nat.
Proof.
  intros Hn.
  assert (forallb (fun k => Nat.eqb (String.length (pad2 (Z.of_nat k))) 2)
            (seq 0 100) = true) as Hall by (vm_compute; reflexivity).
  rewrite forallb_forall in Hall.
  specialize (Hall (Z.to_nat n)).
  rewrite Z2Nat.id in Hall by lia.
  apply Nat.eqb_eq, Hall, in_seq. lia.
Qed.

Lemma hms_of_seconds h m s :
  0 <= h -> 0 <= m < 60 -> 0 <= s < 60 ->
  (h * 3600 + m * 60 + s) / 3600 = h /\
  ((h * 3600 + m * 60 + s) mod 3600) / 60 = m /\
  (h * 3600 + m * 60 + s) mod 60 = s.
Proof.
  intros Hh Hm Hs.
  assert ((h * 3600 + m * 60 + s) / 3600 = h) as Eh
    by (symmetry; apply (Z.div_unique _ _ h (m * 60 + s)); lia).
  assert ((h * 3600 + m * 60 + s) mod 3600 = m * 60 + s) as Er
    by (symmetry; apply (Z.mod_unique _ _ h (m * 60 + s)); lia).
  split; [exact Eh|]. rewrite Er. split.
  - symmetry. apply (Z.div_unique _ _ m s); lia.
  - symmetry. apply (Z.mod_unique _ _ (h * 60 + m) s); lia.
Qed.

(** X22: the label shows the spin boxes.  For hours >= 0 and minutes and
    seconds in 0..59 the label is the sign followed by the three values,
    each padded to two digits; the sign is "-" exactly in SUB mode with a
    non-zero offset. *)
Theorem hours_label_shows_widgets w :
  0 <= hoursSpin w -> 0 <= minutesSpin w < 60 -> 0 <= secondsSpin w < 60 ->
  hours_label w =
    String.append
      (if modeToggle w
          && (0 <? hoursSpin w * 3600 + minutesSpin w * 60 + secondsSpin w)
       then "-"%string else "+"%string)
      (String.append (pad2 (hoursSpin w))
         (String.append ":"
            (String.append (pad2 (minutesSpin w))
               (String.append ":" (pad2 (secondsSpin w)))))).
Proof.
  intros Hh Hm Hs.
  destruct (hms_of_seconds _ _ _ Hh Hm Hs) as (Eh & Em & Es).
  unfold hours_label, format_hhmmss, get_offset_seconds. cbv zeta.
  set (t := hoursSpin w * 3600 + minutesSpin w * 60 + secondsSpin w) in *.
  assert (0 <= t) by (unfold t; lia).
  destruct (modeToggle w); cbn [andb].
  - rewrite Z.abs_opp, Z.abs_eq, Eh, Em, Es by lia.
    destruct (Z.ltb_spec 0 t), (Z.leb_spec 0 (- t)); try lia; reflexivity.
  - rewrite Z.abs_eq, Eh, Em, Es by lia.
    destruct (Z.leb_spec 0 t); [reflexivity|lia].
Qed.

(** X23: for every offset the formatted text is sign, hours, minutes and
    seconds with minutes and seconds below 60 and
    [hours * 3600 + minutes * 60 + seconds = |offset|]; below 100 hours
    the text is exactly 9 characters long. *)
Theorem format_hhmmss_fields t :
  exists hh mm ss,
    format_hhmmss t =
      String.append (if 0 <=? t then "+"%string else "-"%string)
        (String.append (pad2 hh)
           (String.append ":"
              (String.append (pad2 mm) (String.append ":" (pad2 ss))))) /\
    0 <= hh /\ 0 <= mm < 60 /\ 0 <= ss < 60 /\
    hh * 3600 + mm * 60 + ss = Z.abs t /\
    (Z.abs t < 360000 -> String.length (format_hhmmss t) = 9%nat).
Proof.
  exists (Z.abs t / 3600), ((Z.abs t mod 3600) / 60), (Z.abs t mod 60).
  pose proof (Z.abs_nonneg t) as Ha.
  pose proof (Z.div_mod (Z.abs t) 3600 ltac:(lia)) as D1.
  pose proof (Z.mod_pos_bound (Z.abs t) 3600 ltac:(lia)) as M1.
  pose proof (Z.div_mod (Z.abs t mod 3600) 60 ltac:(lia)) as D2.
  pose proof (Z.mod_pos_bound (Z.abs t mod 3600) 60 ltac:(lia)) as M2.
  pose proof (Z.mod_pos_bound (Z.abs t) 60 ltac:(lia)) as M3.
  assert (0 <= Z.abs t / 3600) as Hh by (apply Z.div_pos; lia).
  assert (0 <= (Z.abs t mod 3600) / 60 < 60) as Hm.
  { split; [apply Z.div_pos; lia|].
    apply Z.div_lt_upper_bound; lia. }
  assert ((Z.abs t mod 3600) mod 60 = Z.abs t mod 60) as E60.
  { apply Z.mod_mod_divide. exists 60. reflexivity. }
  split; [reflexivity|]. split; [exact Hh|]. split; [exact Hm|].
  split; [exact M3|]. split; [lia|].
  intros Hsmall. unfold format_hhmmss. cbv zeta.
  assert (Z.abs t / 3600 < 100) by (apply Z.div_lt_upper_bound; lia).
  rewrite !string_length_append.
  rewrite !pad2_length by lia.
  by destruct (0 <=? t).
Qed.

Section TimestampProperties.
Variable datetime : Type.
Variable strptime : string -> string -> option datetime.
Variable seconds_between : datetime -> datetime -> option Z.

Lemma first_parse_app value l1 l2 :
  first_parse datetime strptime value (l1 ++ l2) =
  match first_parse datetime strptime value l1 with
  | Some dt => Some dt
  | None => first_parse datetime strptime value l2
  end.
Proof.
  induction l1 as [|fmt rest IH]; simpl; [reflexivity|].
  destruct (strptime value fmt); [reflexivity|exact IH].
Qed.

(** X24: the shot parser extends the strict parser: whatever the strict
    parser accepts, the shot parser accepts with the same result, and what
    only the shot parser accepts is read in the space-separated format. *)
Theorem shot_parser_extends_strict_parser value :
  parse_shot_datetime datetime strptime value =
  match parse_iso8601_strict datetime strptime value with
  | Some dt => Some dt
  | None =>
      match value with
      | Some v =>
          if String.eqb v EmptyString then None
          else strptime v "%Y-%m-%d %H:%M:%S"
      | None => None
      end
  end.
Proof.
  unfold parse_shot_datetime, parse_iso8601_strict.
  destruct value as [v|]; [|reflexivity]. unfold falsy.
  destruct (String.eqb v EmptyString); [reflexivity|].
  change SHOT_DATETIME_FORMATS
    with (strict_formats ++ ["%Y-%m-%d %H:%M:%S"%string]).
  rewrite first_parse_app.
  destruct (first_parse datetime strptime v strict_formats);
    [reflexivity|].
  simpl. by destruct (strptime v "%Y-%m-%d %H:%M:%S").
Qed.

(** X25: [calc_offset] returns None exactly when one of the two texts is
    missing, empty or not in a strict format; it raises exactly when both
    parse and their difference cannot be taken. *)
Theorem calc_offset_failures from_text to_text :
  (calc_offset datetime strptime seconds_between from_text to_text
     = Ret None <->
   parse_iso8601_strict datetime strptime from_text = None \/
   parse_iso8601_strict datetime strptime to_text = None) /\
  (calc_offset datetime strptime seconds_between from_text to_text
     = Raises <->
   exists a b,
     parse_iso8601_strict datetime strptime from_text = Some a /\
     parse_iso8601_strict datetime strptime to_text = Some b /\
     seconds_between a b = None).
Proof.
  unfold calc_offset.
  destruct (parse_iso8601_strict datetime strptime from_text) as [a|],
           (parse_iso8601_strict datetime strptime to_text) as [b|].
  - destruct (seconds_between a b) as [d|] eqn:Ed; cbv zeta.
    + split; split.
      * discriminate.
      * intros [?|?]; discriminate.
      * discriminate.
      * intros (a' & b' & [= <-] & [= <-] & ?). congruence.
    + split; split.
      * discriminate.
      * intros [?|?]; discriminate.
      * intros _. eauto.
      * reflexivity.
  - split; split; auto; try discriminate.
    intros (? & ? & _ & ? & _). discriminate.
  - split; split; auto; try discriminate.
    intros (? & ? & ? & _). discriminate.
  - split; split; auto; try discriminate.
    intros (? & ? & ? & _). discriminate.
Qed.

(** X26: the offset survives the round trip through the widgets.  When
    [calc_offset] returns a result for a difference of [diff] seconds and
    the hours fit the spin box (at most 999, that is [|diff|] below 1000
    hours), the three values are inside the declared ranges of the spin
    boxes, and with spin boxes that keep a value inside their range,
    storing the result in them and in the mode toggle makes
    [get_offset_seconds] return [diff] and the label show
    [format_hhmmss diff]. *)
Theorem calc_offset_round_trip (set_value : Z -> Z -> Z -> Z) from_text
    to_text hours minutes seconds is_subtract :
  (forall lo hi v, lo <= v <= hi -> set_value lo hi v = v) ->
  calc_offset datetime strptime seconds_between from_text to_text
    = Ret (Some (hours, minutes, seconds, is_subtract)) ->
  hours <= 999 ->
  exists a b diff,
    parse_iso8601_strict datetime strptime from_text = Some a /\
    parse_iso8601_strict datetime strptime to_text = Some b /\
    seconds_between a b = Some diff /\
    Z.abs diff < 1000 * 3600 /\
    0 <= hours <= 999 /\ 0 <= minutes <= 59 /\ 0 <= seconds <= 59 /\
    store_offset set_value (hours, minutes, seconds, is_subtract)
      = mk_widgets hours minutes seconds (diff <? 0) /\
    get_offset_seconds
      (store_offset set_value (hours, minutes, seconds, is_subtract))
      = diff /\
    hours_label
      (store_offset set_value (hours, minutes, seconds, is_subtract))
      = format_hhmmss diff.
Proof.
  intros Hkeep. unfold calc_offset.
  destruct (parse_iso8601_strict datetime strptime from_text) as [a|];
    [|discriminate].
  destruct (parse_iso8601_strict datetime strptime to_text) as [b|];
    [|discriminate].
  destruct (seconds_between a b) as [diff|] eqn:Ed; [|discriminate].
  cbv zeta. intros [= <- <- <- <-] Hmax. exists a, b, diff.
  split; [reflexivity|]. split; [reflexivity|]. split; [exact Ed|].
  pose proof (Z.abs_nonneg diff) as Ha.
  pose proof (Z.div_mod (Z.abs diff) 3600 ltac:(lia)) as D1.
  pose proof (Z.mod_pos_bound (Z.abs diff) 3600 ltac:(lia)) as M1.
  pose proof (Z.div_mod (Z.abs diff mod 3600) 60 ltac:(lia)) as D2.
  pose proof (Z.mod_pos_bound (Z.abs diff mod 3600) 60 ltac:(lia)) as M2.
  pose proof (Z.mod_pos_bound (Z.abs diff) 60 ltac:(lia)) as M3.
  assert ((Z.abs diff mod 3600) mod 60 = Z.abs diff mod 60) as E60.
  { apply Z.mod_mod_divide. exists 60. reflexivity. }
  assert (0 <= (Z.abs diff mod 3600) / 60 < 60) as Hm.
  { split; [apply Z.div_pos; lia|].
    apply Z.div_lt_upper_bound; lia. }
  assert (0 <= Z.abs diff / 3600) as Hh by (apply Z.div_pos; lia).
  assert (store_offset set_value
            (Z.abs diff / 3600, (Z.abs diff mod 3600) / 60,
             Z.abs diff mod 60, diff <? 0)
          = mk_widgets (Z.abs diff / 3600) ((Z.abs diff mod 3600) / 60)
              (Z.abs diff mod 60) (diff <? 0)) as Hstore.
  { unfold store_offset. rewrite !Hkeep by lia. reflexivity. }
  assert (get_offset_seconds
            (mk_widgets (Z.abs diff / 3600) ((Z.abs diff mod 3600) / 60)
               (Z.abs diff mod 60) (diff <? 0)) = diff) as Hget.
  { unfold get_offset_seconds. simpl.
    destruct (Z.ltb_spec diff 0); lia. }
  split; [lia|]. split; [lia|]. split; [lia|]. split; [lia|].
  split; [exact Hstore|]. rewrite Hstore. split; [exact Hget|].
  unfold hours_label. by rewrite Hget.
Qed.

End TimestampProperties.

Section ExifProperties.
Variable json_obj : Type.
Variable source_file : json_obj -> option string.
Variable norm_path : string -> string.
Variable json_loads : string -> string + list json_obj.
Variable which_exiftool : bool.
Variable run_exiftool : list string -> run_outcome.

Let collect := collect json_obj source_file norm_path.
Let fill_missing := fill_missing json_obj norm_path.
Let get_exif_data_many :=
  get_exif_data_many json_obj source_file norm_path json_loads
    which_exiftool run_exiftool.

Lemma fill_missing_keeps paths : forall r k v,
  r !! k = Some v -> fill_missing paths r !! k = Some v.
Proof.
  induction paths as [|p rest IH]; intros r k v Hk; simpl; [exact Hk|].
  apply IH. destruct (r !! norm_path p) eqn:Ep; [exact Hk|].
  rewrite lookup_insert_ne; [exact Hk|]. congruence.
Qed.

Lemma fill_missing_covers paths : forall r p,
  p ∈ paths -> is_Some (fill_missing paths r !! norm_path p).
Proof.
  induction paths as [|q rest IH]; intros r p Hp; simpl.
  - by apply not_elem_of_nil in Hp.
  - apply elem_of_cons in Hp as [->|Hp]; [|by apply IH].
    destruct (r !! norm_path q) as [v|] eqn:Eq.
    + exists v. by apply fill_missing_keeps.
    + exists (VNoData json_obj). apply fill_missing_keeps.
      apply lookup_insert_eq.
Qed.

Lemma fill_missing_origin paths : forall r k v,
  fill_missing paths r !! k = Some v ->
  r !! k = Some v \/
  (r !! k = None /\ v = VNoData json_obj /\
   exists p, p ∈ paths /\ norm_path p = k).
Proof.
  induction paths as [|q rest IH]; intros r k v; simpl; [by left|].
  intros Hk. apply IH in Hk as [Hk|(Hn & -> & p & Hp & <-)].
  - destruct (r !! norm_path q) eqn:Eq; [by left|].
    destruct (decide (norm_path q = k)) as [<-|Hne].
    + rewrite lookup_insert_eq in Hk. injection Hk as <-.
      right. split; [exact Eq|]. split; [reflexivity|].
      exists q. split; [left|reflexivity].
    + rewrite lookup_insert_ne in Hk by exact Hne. by left.
  - right. destruct (r !! norm_path q) eqn:Eq.
    + split; [exact Hn|]. split; [reflexivity|].
      exists p. split; [by right|reflexivity].
    + destruct (decide (norm_path q = norm_path p)) as [E|Hne].
      * rewrite E, lookup_insert_eq in Hn. discriminate.
      * rewrite lookup_insert_ne in Hn by exact Hne.
        split; [exact Hn|]. split; [reflexivity|].
        exists p. split; [by right|reflexivity].
Qed.

Lemma collect_origin data : forall r k v,
  collect data r !! k = Some v ->
  r !! k = Some v \/
  exists o sf, o ∈ data /\ source_file o = Some sf /\
               norm_path sf = k /\ v = VObj json_obj o.
Proof.
  induction data as [|o rest IH]; intros r k v; simpl; [by left|].
  intros Hk. apply IH in Hk as [Hk|(o' & sf & Ho & Hs & Hn & Hv)].
  - destruct (source_file o) as [sf|] eqn:Es; [|by left].
    destruct (decide (norm_path sf = k)) as [<-|Hne].
    + rewrite lookup_insert_eq in Hk. injection Hk as <-.
      right. exists o, sf. split; [left|]. auto.
    + rewrite lookup_insert_ne in Hk by exact Hne. by left.
  - right. exists o', sf. split; [by right|]. auto.
Qed.

Lemma collect_keeps_key data : forall r k,
  is_Some (r !! k) -> is_Some (collect data r !! k).
Proof.
  induction data as [|o rest IH]; intros r k Hk; simpl; [exact Hk|].
  apply IH. destruct (source_file o) as [sf|]; [|exact Hk].
  destruct (decide (norm_path sf = k)) as [<-|Hne].
  - rewrite lookup_insert_eq. eauto.
  - by rewrite lookup_insert_ne.
Qed.

Lemma collect_covers data : forall r o sf,
  o ∈ data -> source_file o = Some sf ->
  is_Some (collect data r !! norm_path sf).
Proof.
  induction data as [|o' rest IH]; intros r o sf Ho Hs; simpl.
  - by apply not_elem_of_nil in Ho.
  - apply elem_of_cons in Ho as [->|Ho]; [|by eapply IH].
    rewrite Hs. apply collect_keeps_key. rewrite lookup_insert_eq. eauto.
Qed.

(** X27: whenever exiftool ran and its output parsed, every requested path
    has an entry under its normalized name, whatever exiftool printed and
    whatever its return code. *)
Theorem exif_every_path_has_an_entry file_paths stdout stderr returncode
    data_list p :
  no_paths file_paths = false ->
  which_exiftool = true ->
  run_exiftool (paths_of file_paths) = RunDone stdout stderr returncode ->
  json_loads (if String.eqb stdout EmptyString then "[]"%string else stdout)
    = inr data_list ->
  p ∈ paths_of file_paths ->
  is_Some (get_exif_data_many file_paths !! norm_path p).
Proof.
  intros Hnp Hwhich Hrun Hjson Hp.
  unfold get_exif_data_many, Toolbox.get_exif_data_many.
  rewrite Hnp, Hwhich. cbn [negb]. cbv zeta. rewrite Hrun, Hjson.
  pose proof (fill_missing_covers (paths_of file_paths)
                (collect data_list ∅) p Hp) as [v Hv].
  destruct (negb (returncode =? 0)); [|by exists v].
  destruct (decide ("_stderr"%string = norm_path p)) as [<-|H1].
  { rewrite lookup_insert_eq. eauto. }
  rewrite lookup_insert_ne by exact H1.
  destruct (decide ("_warning"%string = norm_path p)) as [<-|H2].
  { rewrite lookup_insert_eq. eauto. }
  rewrite lookup_insert_ne by exact H2. by exists v.
Qed.

(** X28: with return code 0 the dict holds nothing else: every entry is an
    object exiftool printed, stored under its normalized SourceFile, or the
    "no data" error stored under the normalized name of a requested path
    for which exiftool printed no object. *)
Theorem exif_entries_origin file_paths stdout stderr data_list k v :
  no_paths file_paths = false ->
  which_exiftool = true ->
  run_exiftool (paths_of file_paths) = RunDone stdout stderr 0 ->
  json_loads (if String.eqb stdout EmptyString then "[]"%string else stdout)
    = inr data_list ->
  get_exif_data_many file_paths !! k = Some v ->
  (exists o sf, o ∈ data_list /\ source_file o = Some sf /\
                norm_path sf = k /\ v = VObj json_obj o) \/
  (v = VNoData json_obj /\
   (exists p, p ∈ paths_of file_paths /\ norm_path p = k) /\
   forall o sf, o ∈ data_list -> source_file o = Some sf ->
                norm_path sf <> k).
Proof.
  intros Hnp Hwhich Hrun Hjson.
  unfold get_exif_data_many, Toolbox.get_exif_data_many.
  rewrite Hnp, Hwhich. cbn [negb]. cbv zeta. rewrite Hrun, Hjson.
  cbn [Z.eqb negb]. intros Hk.
  apply fill_missing_origin in Hk as [Hk|(Hn & -> & Hp)].
  - apply collect_origin in Hk as [Hk|Hk]; [|by left].
    rewrite lookup_empty in Hk. discriminate.
  - right. split; [reflexivity|]. split; [exact Hp|].
    intros o sf Ho Hs E.
    destruct (collect_covers data_list ∅ o sf Ho Hs) as [v' Hv'].
    fold collect in Hn. rewrite E in Hv'. congruence.
Qed.

(** X29: how failures look to the caller.  When exiftool is missing or the
    run raises, the dict is the single entry "error", which [onPrintExif]
    takes for a failure of the whole call; when the output does not parse,
    the dict has the two entries "error" and "stderr", which it does not. *)
Theorem exif_failure_reports file_paths :
  no_paths file_paths = false ->
  (which_exiftool = false ->
   get_exif_data_many file_paths
     = {[ "error"%string := VText json_obj NotFoundOnPath ]} /\
   whole_call_failed json_obj (get_exif_data_many file_paths) = true) /\
  (forall e,
     which_exiftool = true ->
     run_exiftool (paths_of file_paths) = RunRaised e ->
     get_exif_data_many file_paths
       = {[ "error"%string := VText json_obj (Unexpected e) ]} /\
     whole_call_failed json_obj (get_exif_data_many file_paths) = true) /\
  (forall stdout stderr returncode e,
     which_exiftool = true ->
     run_exiftool (paths_of file_paths)
       = RunDone stdout stderr returncode ->
     json_loads
       (if String.eqb stdout EmptyString then "[]"%string else stdout)
       = inl e ->
     get_exif_data_many file_paths !! "error"%string
       = Some (VText json_obj (ParseFailed e)) /\
     get_exif_data_many file_paths !! "stderr"%string
       = Some (VText json_obj (Stripped stderr)) /\
     size (get_exif_data_many file_paths) = 2%nat /\
     whole_call_failed json_obj (get_exif_data_many file_paths) = false).
Proof.
  intros Hnp. unfold get_exif_data_many, Toolbox.get_exif_data_many.
  rewrite Hnp. cbv zeta. split; [|split].
  - intros ->. cbn [negb]. split; [reflexivity|].
    unfold whole_call_failed. rewrite lookup_singleton_eq, map_size_singleton.
    rewrite bool_decide_eq_true_2 by eauto. reflexivity.
  - intros e -> ->. cbn [negb]. split; [reflexivity|].
    unfold whole_call_failed. rewrite lookup_singleton_eq, map_size_singleton.
    rewrite bool_decide_eq_true_2 by eauto. reflexivity.
  - intros stdout stderr returncode e -> -> ->. cbn [negb].
    assert (size (<["stderr"%string := VText json_obj (Stripped stderr)]>
                    ({[ "error"%string := VText json_obj (ParseFailed e) ]}
                       : gmap string (exif_value json_obj))) = 2%nat)
      as Hsize.
    { rewrite map_size_insert_None; [by rewrite map_size_singleton|].
      by rewrite lookup_singleton_ne. }
    split; [|split; [|split]].
    + rewrite lookup_insert_ne by done. apply lookup_singleton_eq.
    + apply lookup_insert_eq.
    + exact Hsize.
    + unfold whole_call_failed. rewrite Hsize. apply andb_false_r.
Qed.

End ExifProperties.

End ToolboxProperties.

(** * The further properties on concrete inputs *)

Section ExtrasConcrete.
Import Reference.
Local Existing Instance opencv.

Lemma in_range_bounds k n : In k (range n) -> 0 <= k < n.
Proof.
  unfold range. rewrite in_map_iff. intros (i & <- & Hi).
  apply in_seq in Hi. lia.
Qed.

(** The reference matcher reports a location inside its result array. *)
Lemma exact_match_in_range : match_in_range.
Proof.
  intros roi templ [Hh1 Hh2] [Hw1 Hw2]. simpl. unfold exact_match.
  destruct (List.find _ (positions roi templ)) as [[u v]|] eqn:Ef; simpl.
  - apply List.find_some in Ef as [Hin _].
    unfold positions in Hin. apply in_flat_map in Hin as (v' & Hv & Hin).
    apply in_map_iff in Hin as (u' & [= <- <-] & Hu).
    apply in_range_bounds in Hv, Hu. lia.
  - lia.
Qed.

Lemma in_frame_definitions_all_tracked_witness :
  snd (build_spot_templates frame16 [mk_spot 8 8 1; mk_spot 2 8 1] 16 16)
    = [] /\
  Forall2
    (fun d t =>
       origin_cx t = spot_x d /\ origin_cy t = spot_y d /\
       radius t = spot_radius d /\
       let '(x1, y1, x2, y2) := template_box d 16 16 in
       templ_w t = x2 - x1 /\ templ_h t = y2 - y1 /\
       forall i j,
         at2 (template t) i j = at2 (edge_image frame16) (y1 + i) (x1 + j))
    [mk_spot 8 8 1; mk_spot 2 8 1]
    (fst (build_spot_templates frame16 [mk_spot 8 8 1; mk_spot 2 8 1]
            16 16)).
Proof.
  apply (in_frame_definitions_all_tracked frame16
           [mk_spot 8 8 1; mk_spot 2 8 1] 16 16).
  - reflexivity.
  - reflexivity.
  - repeat constructor; simpl; unfold margin; lia.
Defined.

Lemma boxes_outside_frame_are_skipped_witness :
  build_spot_templates frame16 [mk_spot 100 100 1; mk_spot 8 40 2] 16 16 =
    ([], [MsgEmptyTemplate 100 100; MsgEmptyTemplate 8 40]).
Proof.
  apply (boxes_outside_frame_are_skipped frame16
           [mk_spot 100 100 1; mk_spot 8 40 2] 16 16).
  - reflexivity.
  - reflexivity.
  - repeat constructor; simpl; unfold margin; lia.
Defined.

Lemma accepted_center_in_frame_witness :
  track_spot_on_frame track_m3_8 gray16 16 16 1 (1 # 2)
    = Some (set_last track_m3_8 1 8) /\
  (set_last track_m3_8 1 8 = track_m3_8 \/
   in_frame 16 16 (set_last track_m3_8 1 8)).
Proof.
  assert (track_spot_on_frame track_m3_8 gray16 16 16 1 (1 # 2)
          = Some (set_last track_m3_8 1 8)) as E
    by (vm_compute; reflexivity).
  split; [exact E|].
  apply (accepted_center_in_frame track_m3_8 gray16 16 16 1 (1 # 2)
           (set_last track_m3_8 1 8)); [lia | lia | exact E].
Defined.

Lemma well_formed_track_8_8 : well_formed track_8_8.
Proof.
  unfold well_formed. split; [reflexivity|]. split; [reflexivity|].
  split; simpl; lia.
Defined.

Lemma well_formed_track_2_8 : well_formed track_2_8.
Proof.
  unfold well_formed. split; [reflexivity|]. split; [reflexivity|].
  split; simpl; lia.
Defined.

Lemma displacement_bound_in_frame_witness :
  track_spot_on_frame track_2_8 gray16 16 16 2 (1 # 2)
    = Some (set_last track_2_8 3 8) /\
  Z.abs (last_cx (set_last track_2_8 3 8) - last_cx track_2_8) <= 2 /\
  Z.abs (last_cy (set_last track_2_8 3 8) - last_cy track_2_8) <= 2.
Proof.
  assert (track_spot_on_frame track_2_8 gray16 16 16 2 (1 # 2)
          = Some (set_last track_2_8 3 8)) as E
    by (vm_compute; reflexivity).
  split; [exact E|].
  apply (displacement_bound_in_frame track_2_8 gray16 16 16 2 (1 # 2)
           (set_last track_2_8 3 8)).
  - exact exact_match_in_range.
  - reflexivity.
  - reflexivity.
  - exact well_formed_track_2_8.
  - unfold in_frame; simpl; lia.
  - lia.
  - exact E.
Defined.

Lemma drift_bounded_by_frames_witness :
  exists evs spots',
    process_loop args0 16 16 2 (1 # 2) 3 [frame16; frame16] 0
      (fst (build_spot_templates frame16 [mk_spot 8 8 1; mk_spot 2 8 1]
              16 16))
      = (evs, Some spots') /\
    length spots'
      = length (fst (build_spot_templates frame16
                       [mk_spot 8 8 1; mk_spot 2 8 1] 16 16)) /\
    Forall (fun t =>
              Z.abs (last_cx t - origin_cx t) <= Z.of_nat 2 * 2 /\
              Z.abs (last_cy t - origin_cy t) <= Z.of_nat 2 * 2) spots'.
Proof.
  destruct (process_loop_total args0 16 16 2 (1 # 2) 3 [frame16; frame16] 0
              _ (build_spot_templates_well_formed frame16
                   [mk_spot 8 8 1; mk_spot 2 8 1] 16 16))
    as (evs & spots' & Hrun).
  exists evs, spots'. split; [exact Hrun|].
  apply (drift_bounded_by_frames frame16 [mk_spot 8 8 1; mk_spot 2 8 1]
           args0 16 16 2 (1 # 2) 3 [frame16; frame16] 0 evs spots').
  - exact exact_match_in_range.
  - lia.
  - repeat constructor.
  - repeat constructor; simpl; lia.
  - exact Hrun.
Defined.

Lemma darkening_never_brightens_witness :
  0 <= chan (darken_masked (1 # 2) (disk (zeros 16 16) 8 8 1) frame16) 8 9 2
    <= chan frame16 8 9 2.
Proof.
  apply (darkening_never_brightens (1 # 2) (disk (zeros 16 16) 8 8 1)
           frame16 8 9 2).
  - intros a b Hab. exact Hab.
  - intros n _. simpl. apply Qeq_refl.
  - unfold Qle; simpl; lia.
  - simpl; lia.
Defined.

Lemma cv_size_16 : cv_size 16 16.
Proof. unfold cv_size, INT_MAX. lia. Qed.

Lemma drawable_track_8_8 : drawable track_8_8.
Proof. unfold drawable, circle_accepts, fits_int, INT_MAX. simpl. lia. Qed.

Lemma spot_pass_mask_and_count_witness :
  exists st,
    spot_pass args0 16 16 2 (1 # 2) frame16 [track_8_8; track_dead]
      = Some st /\
    Forall drawable (fs_spots st) /\
    fs_active st = 1 /\
    fs_mask st = stamp_mask (zeros 16 16) (fs_spots st).
Proof.
  destruct (spot_pass_mask_and_count args0 16 16 2 (1 # 2) frame16
              [track_8_8; track_dead])
    as (st & Hst & Hf & Hd & Hm & Ha & _).
  - exact cv_size_16.
  - split; reflexivity.
  - repeat constructor; simpl; lia.
  - constructor; [exact drawable_track_8_8|].
    constructor; [exact drawable_track_8_8|constructor].
  - exists st. split; [exact Hst|]. split; [exact Hd|].
    split; [|exact Hm].
    rewrite Ha. clear Hm Ha Hd Hf.
    assert (Some st = Some (mk_fs [track_8_8; track_dead]
                              (disk (zeros 16 16) 8 8 1) 1 [])) as E
      by (rewrite <- Hst; vm_compute; reflexivity).
    injection E as ->. reflexivity.
Defined.

Lemma frame_passes_through_without_alive_spots_witness :
  process_frame (args_darken true) 16 16 2 (1 # 2) 3 frame16 [track_dead]
    = Some ([track_dead], frame16, 0).
Proof.
  apply (frame_passes_through_without_alive_spots (args_darken true) 16 16 2
           (1 # 2) 3 frame16 [track_dead]).
  repeat constructor.
Defined.

Lemma tracks_are_independent_witness :
  exists evs spots' evs1 s',
    process_loop args0 16 16 2 (1 # 2) 3 [frame16; frame16] 0
      [track_8_8; track_2_8] = (evs, Some spots') /\
    process_loop args0 16 16 2 (1 # 2) 3 [frame16; frame16] 0 [track_2_8]
      = (evs1, Some [s']) /\
    spots' !! 1%nat = Some s'.
Proof.
  apply (tracks_are_independent args0 16 16 2 (1 # 2) 3 [frame16; frame16] 0
           [track_8_8; track_2_8] 1%nat track_2_8).
  - repeat constructor; simpl; lia.
  - reflexivity.
Defined.

Lemma tracking_ignores_display_options_witness :
  exists evs evs' spots',
    process_loop args0 16 16 2 (1 # 2) 3 [frame16] 0 [track_2_8]
      = (evs, Some spots') /\
    process_loop (args_darken true) 16 16 2 (1 # 2) 5 [frame16] 7
      [track_2_8] = (evs', Some spots').
Proof.
  apply (tracking_ignores_display_options args0 (args_darken true) 16 16 2
           (1 # 2) 3 5 [frame16] 0 7 [track_2_8]).
  repeat constructor; simpl; lia.
Defined.

Lemma frame_loop_writes_every_frame_witness :
  exists evs spots',
    process_loop args0 16 16 2 (1 # 2) 3 [frame16; flat16; frame16] 0
      [track_8_8] = (evs, Some spots') /\
    length (written_frames evs) = length [frame16; flat16; frame16] /\
    forall k f, [frame16; flat16; frame16] !! k = Some f ->
      exists evs_k spots_k spots_k' out active,
        process_loop args0 16 16 2 (1 # 2) 3
          (take k [frame16; flat16; frame16]) 0 [track_8_8]
          = (evs_k, Some spots_k) /\
        process_frame args0 16 16 2 (1 # 2) 3 f spots_k
          = Some (spots_k', out, active) /\
        Forall drawable spots_k' /\
        written_frames evs !! k = Some out.
Proof.
  apply (frame_loop_writes_every_frame args0 16 16 2 (1 # 2) 3
           [frame16; flat16; frame16] 0 [track_8_8]).
  - exact cv_size_16.
  - repeat constructor.
  - repeat constructor; simpl; lia.
  - constructor; [exact drawable_track_8_8|constructor].
Defined.

Lemma main_complete_run_witness :
  exists path loop_evs,
    main args0 data_inside cap16 =
      (map Stdout
         (snd (build_spot_templates frame16 (json_spots data_inside) 16 16))
       ++ WriterOpen path 25 16 16
          :: loop_evs
       ++ [Stdout (MsgDone path); CapRelease; WriterRelease], Returned) /\
    length (written_frames (fst (main args0 data_inside cap16))) = 1%nat /\
    length (List.filter is_writer_open loop_evs) = 0%nat /\
    length (List.filter is_cap_release loop_evs) = 0%nat /\
    length (List.filter is_writer_release loop_evs) = 0%nat.
Proof.
  apply (main_complete_run args0 data_inside cap16 frame16).
  - reflexivity.
  - reflexivity.
  - reflexivity.
  - reflexivity.
  - discriminate.
  - exact cv_size_16.
  - repeat constructor.
  - constructor; [|constructor].
    unfold drawable_def, circle_accepts, fits_int, INT_MAX. simpl. lia.
Defined.

Lemma mark_main_saves :
  MarkSpots.main "clip.mp4" 0 EmptyString cap16 clicks_then_save
    = Some (MarkSpots.mk_result
              [MarkSpots.MkSaving;
               MarkSpots.MkSaved 2 "clip.mp4.spots.json"]
              (Some ("clip.mp4.spots.json"%string, saved_json))).
Proof. reflexivity. Qed.

Lemma saved_spots_have_valid_radius_witness :
  MarkSpots.js_spots saved_json <> [] /\
  Forall MarkSpots.valid_radius (MarkSpots.js_spots saved_json) /\
  MarkSpots.js_frame_index saved_json = 0 /\
  MarkSpots.js_video_path saved_json = "clip.mp4"%string /\
  exists f, read_at cap16 0 = Some f /\
            MarkSpots.js_frame_width saved_json = fcols f /\
            MarkSpots.js_frame_height saved_json = frows f.
Proof.
  exact (saved_spots_have_valid_radius "clip.mp4" 0 EmptyString cap16
           clicks_then_save _ _ saved_json mark_main_saves eq_refl).
Defined.

Lemma quitting_saves_nothing_witness :
  exists r,
    MarkSpots.main "clip.mp4" 0 EmptyString cap16 clicks_then_quit = Some r
    /\ MarkSpots.mk_file r = None /\
    MarkSpots.mk_out r = [MarkSpots.MkExiting; MarkSpots.MkNoSpots].
Proof.
  eexists. split; [reflexivity|].
  apply (quitting_saves_nothing "clip.mp4" 0 EmptyString cap16
           clicks_then_quit).
  - reflexivity.
  - simpl. left.
Defined.

Lemma marked_spots_are_all_tracked_witness :
  snd (build_spot_templates frame16 (MarkSpots.js_spots saved_json) 16 16)
    = [] /\
  length (fst (build_spot_templates frame16 (MarkSpots.js_spots saved_json)
                 16 16)) = 2%nat /\
  exists e,
    e ∈ fst (main args0 (MarkSpots.load_spots_file saved_json) cap16) /\
    is_writer_open e = true.
Proof.
  apply (marked_spots_are_all_tracked "clip.mp4" 0 EmptyString cap16
           clicks_then_save _ _ saved_json frame16 args0 mark_main_saves
           eq_refl).
  - reflexivity.
  - reflexivity.
  - reflexivity.
  - reflexivity.
  - reflexivity.
  - repeat constructor; simpl; lia.
Defined.

Lemma hours_label_shows_widgets_witness :
  Toolbox.hours_label (Toolbox.mk_widgets 1 2 3 true)
    = "-01:02:03"%string.
Proof.
  rewrite (hours_label_shows_widgets (Toolbox.mk_widgets 1 2 3 true))
    by (simpl; lia).
  reflexivity.
Defined.

Lemma calc_offset_round_trip_witness :
  Toolbox.calc_offset Z toy_strptime toy_seconds_between
    (Some "2025-04-24T01:00:00"%string) (Some "2025-04-24T00:00:00"%string)
    = Toolbox.Ret (Some (1, 0, 0, true)) /\
  Toolbox.get_offset_seconds
    (Toolbox.store_offset clamp_value (1, 0, 0, true)) = -3600 /\
  Toolbox.hours_label (Toolbox.store_offset clamp_value (1, 0, 0, true))
    = "-01:00:00"%string.
Proof.
  assert (Toolbox.calc_offset Z toy_strptime toy_seconds_between
            (Some "2025-04-24T01:00:00"%string)
            (Some "2025-04-24T00:00:00"%string)
          = Toolbox.Ret (Some (1, 0, 0, true))) as E by reflexivity.
  split; [exact E|].
  destruct (calc_offset_round_trip Z toy_strptime toy_seconds_between
              clamp_value (Some "2025-04-24T01:00:00"%string)
              (Some "2025-04-24T00:00:00"%string) 1 0 0 true)
    as (a & b & diff & Ha & Hb & Hd & _ & _ & _ & _ & _ & Hget & Hlabel).
  - intros lo hi v Hv. unfold clamp_value. lia.
  - exact E.
  - lia.
  - injection Ha as <-. injection Hb as <-. injection Hd as <-.
    split; [exact Hget|]. rewrite Hlabel. reflexivity.
Defined.

Lemma exif_every_path_has_an_entry_witness :
  is_Some (toy_exif (Toolbox.ManyPaths ["a.mp4"; "b.mp4"]%string)
             !! "b.mp4"%string).
Proof.
  apply (exif_every_path_has_an_entry string toy_source_file toy_norm_path
           toy_json_loads true toy_run
           (Toolbox.ManyPaths ["a.mp4"; "b.mp4"]%string)
           "[...]" "warning: b.mp4" 0 ["a.mp4"%string] "b.mp4").
  - reflexivity.
  - reflexivity.
  - reflexivity.
  - reflexivity.
  - simpl. right. left.
Defined.

Lemma toy_exif_lookup_b :
  toy_exif (Toolbox.ManyPaths ["a.mp4"; "b.mp4"]%string) !! "b.mp4"%string
    = Some (Toolbox.VNoData string).
Proof. vm_compute. reflexivity. Qed.

Lemma exif_entries_origin_witness :
  (exists o sf, o ∈ ["a.mp4"%string] /\ toy_source_file o = Some sf /\
                toy_norm_path sf = "b.mp4"%string /\
                Toolbox.VNoData string = Toolbox.VObj string o) \/
  (Toolbox.VNoData string = Toolbox.VNoData string /\
   (exists p, p ∈ ["a.mp4"; "b.mp4"]%string /\
              toy_norm_path p = "b.mp4"%string) /\
   forall o sf, o ∈ ["a.mp4"%string] -> toy_source_file o = Some sf ->
                toy_norm_path sf <> "b.mp4"%string).
Proof.
  apply (exif_entries_origin string toy_source_file toy_norm_path
           toy_json_loads true toy_run
           (Toolbox.ManyPaths ["a.mp4"; "b.mp4"]%string)
           "[...]" "warning: b.mp4" ["a.mp4"%string] "b.mp4"
           (Toolbox.VNoData string)).
  - reflexivity.
  - reflexivity.
  - reflexivity.
  - reflexivity.
  - exact toy_exif_lookup_b.
Defined.

Lemma exif_failure_reports_witness :
  size (Toolbox.get_exif_data_many string toy_source_file toy_norm_path
          toy_json_loads true toy_run_garbage (Toolbox.OnePath "a.mp4"))
    = 2%nat /\
  Toolbox.whole_call_failed string
    (Toolbox.get_exif_data_many string toy_source_file toy_norm_path
       toy_json_loads true toy_run_garbage (Toolbox.OnePath "a.mp4"))
    = false.
Proof.
  destruct (exif_failure_reports string toy_source_file toy_norm_path
              toy_json_loads true toy_run_garbage (Toolbox.OnePath "a.mp4")
              eq_refl) as (_ & _ & Hparse).
  destruct (Hparse "garbage"%string "no such tag"%string 1
              "Expecting value"%string eq_refl eq_refl eq_refl)
    as (_ & _ & Hsize & Hfail).
  split; assumption.
Defined.

End ExtrasConcrete.
